(** * ODR-DabMod: the real-time output subsystem

    A shallow embedding of the parts of [OutputUHD.cpp],
    [OutputUHDFeedback.cpp] and [MemlessPoly.cpp] that drive the SDR:
    timestamp bookkeeping, the transmit loop, the remote-control
    parameters, the feedback capture and the digital predistorter.

    Fixed-width C++ integers are integers of [Z] with their wrap-around
    written out; byte buffers are lists of bytes; threads that share a
    variable are modelled by passing the values they observe as
    arguments. *)

From Stdlib Require Import String DecimalString.
From Stdlib Require Import ZArith QArith Qround List Lia Bool.
From Stdlib.Strings Require Import Byte.
Import ListNotations.

Local Open Scope Z_scope.

(** ** Machine integers *)

Module Machine.

(** Conversion to [uint32_t], [uint64_t] ([size_t] on the target) and
    [uint8_t]. *)
Definition uint32 (z : Z) : Z := z mod 2 ^ 32.
Definition uint64 (z : Z) : Z := z mod 2 ^ 64.
Definition uint8 (z : Z) : Z := z mod 2 ^ 8.

(** Conversion to [int] (two's complement, 32 bits). *)
Definition int32 (z : Z) : Z := (z + 2 ^ 31) mod 2 ^ 32 - 2 ^ 31.

(** [sizeof(complexf)]: two 32-bit floats. *)
Definition sizeof_complexf : Z := 8.

End Machine.

Import Machine.

(** ** Timestamps *)

Module Timestamp.

(** [struct frame_timestamp], as used by [OutputUHD.cpp]. *)
Record frame_timestamp : Type := mk_frame_timestamp {
  fct : Z;
  timestamp_sec : Z;
  timestamp_pps : Z;
  timestamp_valid : bool;
  timestamp_refresh : bool
}.

(** [uint64_t increment = (uint64_t)sizeIn * 16384000ul /
    (uint64_t)myConf.sampleRate;] The division is undefined for a zero
    sample rate. *)
Definition increment (sampleRate sizeIn : Z) : option Z :=
  if uint64 sampleRate =? 0 then None
  else Some (uint64 (uint64 sizeIn * 16384000) / uint64 sampleRate).

(** [while (expected_pps >= 16384000) { expected_sec++; expected_pps -=
    16384000; }] on two [uint32_t] variables.  [fuel] bounds the number
    of iterations; the result is [None] when it runs out. *)
Fixpoint carry (fuel : nat) (expected_sec expected_pps : Z)
  : option (Z * Z) :=
  if expected_pps >=? 16384000 then
    match fuel with
    | O => None
    | S fuel' =>
        carry fuel' (uint32 (expected_sec + 1))
              (uint32 (expected_pps - 16384000))
    end
  else Some (expected_sec, expected_pps).

(** A [uint32_t] holds fewer than 263 times 16384000. *)
Definition carry_fuel : nat := 263.

(** The expected time stamp of a frame, from the previous frame's:
    [expected_sec = last_tx_second + increment / 16384000ul;
     expected_pps = last_tx_pps + increment % 16384000ul;]
    followed by the carry loop. *)
Definition expected_timestamp (last_tx_second last_tx_pps incr : Z)
  : option (Z * Z) :=
  carry carry_fuel
        (uint32 (last_tx_second + incr / 16384000))
        (uint32 (last_tx_pps + incr mod 16384000)).

(** Advancing the stamp [(sec, pps)] by [sizeIn] samples at
    [sampleRate], as [handle_frame] does for the frame it holds. *)
Definition advance (sampleRate : Z) (ts : Z * Z) (sizeIn : Z)
  : option (Z * Z) :=
  match increment sampleRate sizeIn with
  | None => None
  | Some incr => expected_timestamp (fst ts) (snd ts) incr
  end.


(** [frame_timestamp::operator+=(double)] is declared in the absent
    [TimestampDecoder.h]: [timestamp_add ts diff] is [ts] after
    [ts += diff], with [diff] in seconds. It is kept abstract, and the
    [double] it is given is taken as the exact quotient. *)
Class TimestampArith : Type := {
  timestamp_add : frame_timestamp -> Q -> frame_timestamp
}.

End Timestamp.

Import Timestamp.

(** ** Exceptions *)

Module Exn.

(** The exceptions the modelled code throws. *)
Inductive exn : Type :=
| runtime_error (what : string)
| logic_error (what : string)
| ParameterError (what : string)
| ios_failure.                 (* [std::ios_base::failure] *)

(** A call either returns or throws. *)
Inductive result (A : Type) : Type :=
| Ok (a : A)
| Throw (e : exn).

Arguments Ok {A} a.
Arguments Throw {A} e.

Definition bind {A B : Type} (r : result A) (k : A -> result B)
  : result B :=
  match r with
  | Ok a => k a
  | Throw e => Throw e
  end.

Definition is_ParameterError (e : option exn) : bool :=
  match e with
  | Some (ParameterError _) => true
  | _ => false
  end.

End Exn.

Import Exn.

(** ** Single-precision arithmetic

    The predistorter computes on [float] and [std::complex<float>]. The
    operations are kept abstract: every statement below holds for any
    implementation of them. *)

Class FloatOps (F : Type) : Type := {
  f_lit : Q -> F;                   (* a literal such as [0.5f] *)
  f_add : F -> F -> F;
  f_sub : F -> F -> F;
  f_mul : F -> F -> F;
  f_hypot : F -> F -> F;            (* [std::abs] of a complex number *)
  f_lrint : F -> Z;                 (* [lrintf], a [long] *)
  f_decode : list byte -> F;        (* the float stored in four bytes *)
  f_encode : F -> list byte
}.

(** ** Double-precision arithmetic

    A [double] is the rational it stands for. An operation on doubles
    is the exact operation followed by the rounding to the nearest
    double, [to_double]. The rounding is kept abstract: every statement
    below holds for any rounding. *)

Class DoubleArith : Type := {
  to_double : Q -> Q
}.

(** The conversion of a [double] to an integer type drops the
    fraction. *)
Definition Qtruncate (q : Q) : Z := Z.quot (Qnum q) (Z.pos (Qden q)).

(** ** MemlessPoly.cpp: the digital predistorter *)

Module MemlessPoly.

Section WithFloat.

Context {F : Type} {FO : FloatOps F}.

(** [std::complex<float>] *)
Definition complexf : Type := (F * F)%type.

Definition c_real (c : complexf) : F := fst c.
Definition c_imag (c : complexf) : F := snd c.

(** complex times float, and complex times complex *)
Definition c_scale (c : complexf) (a : F) : complexf :=
  (f_mul (c_real c) a, f_mul (c_imag c) a).

Definition c_mul (a b : complexf) : complexf :=
  (f_sub (f_mul (c_real a) (c_real b)) (f_mul (c_imag a) (c_imag b)),
   f_add (f_mul (c_real a) (c_imag b)) (f_mul (c_imag a) (c_real b))).

(** [lut[n] = a;] converts a float to a complex number. *)
Definition c_of_float (a : F) : complexf := (a, f_lit 0).

Definition NUM_COEFS : Z := 5.

(** Modelled from the spec: the constant [lut_entries] of the absent
    [MemlessPoly.h]; the data model speaks of a 32-entry lookup table. *)
Definition lut_entries : nat := 32.

Inductive dpd_type_t : Type := odd_only_poly | lookup_table.

(** The members of [MemlessPoly] that hold the coefficients. *)
Record dpd_state : Type := mk_dpd_state {
  m_dpd_type : dpd_type_t;
  m_coefs_am : list F;
  m_coefs_pm : list F;
  m_lut_scalefactor : F;
  m_lut : list complexf;
  m_dpd_settings_valid : bool;
  m_coefs_file : string
}.

(** *** The coefficient file, as a formatted input stream

      A file is the sequence of words its extractions meet, white space
      between them.  A word is given by what [operator>>] makes of it at
      each type the loader uses: the value, or [None] for a word that
      does not parse at that type.  A failed extraction stores a value
      all the same, zero or, for a number out of range, the nearest
      bound ([stored_uint32], [stored_int], [stored_float]); and it
      raises [eofbit] beside [failbit] when it has read through to the
      end of the file, as it does on a lone sign or on a number out of
      range in a last word that nothing follows ([reads_through]).
      [trailing] tells whether anything (white space) follows the last
      word: if not, extracting that word reaches the end of the file. *)
Record word : Type := mk_word {
  as_uint32 : option Z;
  as_int : option Z;
  as_float : option F;
  stored_uint32 : Z;
  stored_int : Z;
  stored_float : F;
  reads_through : bool
}.

Record ifstream : Type := mk_ifstream {
  words : list word;
  trailing : bool;
  failbit : bool;
  eofbit : bool
}.

(** The outcome of [stream >> x]: a value was stored; the word did not
    parse and the value of a failed extraction was stored; or the
    stream was not good (or had no word left) and [x] was not written
    at all. *)
Inductive extraction (A : Type) : Type :=
| Extracted (a : A)
| Unparsed (a : A)
| Untouched.

Arguments Extracted {A} a.
Arguments Unparsed {A} a.
Arguments Untouched {A}.

(** [stream >> x] at the type of [sel]; [unparsed] is what a failed
    extraction at that type stores. *)
Definition extract {A : Type} (sel : word -> option A)
    (unparsed : word -> A) (s : ifstream)
  : extraction A * ifstream :=
  if failbit s || eofbit s then
    (Untouched, mk_ifstream (words s) (trailing s) true (eofbit s))
  else
    match words s with
    | [] => (Untouched, mk_ifstream [] (trailing s) true true)
    | w :: rest =>
        match sel w with
        | Some a =>
            (Extracted a,
             mk_ifstream rest (trailing s) false
               (match rest with [] => negb (trailing s) | _ => false end))
        | None =>
            (Unparsed (unparsed w),
             mk_ifstream (words s) (trailing s) true
               (reads_through w
                && match rest with [] => negb (trailing s) | _ => false end))
        end
    end.

(** The value of a variable after an extraction into it: [before] is
    what it held (indeterminate for an uninitialised local). *)
Definition stored {A : Type} (before : A) (e : extraction A) : A :=
  match e with
  | Extracted a => a
  | Unparsed a => a
  | Untouched => before
  end.

(** What an extraction from a good stream that meets the word [w]
    leaves in the variable. *)
Definition value_read {A : Type} (sel : word -> option A)
    (unparsed : word -> A) (w : word) : A :=
  match sel w with
  | Some a => a
  | None => unparsed w
  end.

(** The values the uninitialised locals of [load_coefficients] hold:
    [file_format_indicator], [n_coefs], the [a] of the polynomial loop
    at each of its turns, [scalefactor], and the [a] of the table loop
    at each of its turns. *)
Record uninitialised : Type := mk_uninitialised {
  junk_uint32 : Z;
  junk_int : Z;
  junk_float : nat -> F;
  junk_scalefactor : F;
  junk_lut : nat -> F
}.

(** [for (int n = 0; n < n_entries; n++)] of the polynomial format:
    reads [count] more floats after the [acc] read so far and throws at
    the first one after which the stream is at its end. *)
Fixpoint read_poly_coefs (u : uninitialised) (count : nat)
    (s : ifstream) (acc : list F) : result (list F) :=
  match count with
  | O => Ok acc
  | S count' =>
      let '(e, s') := extract as_float stored_float s in
      let a := stored (junk_float u (length acc)) e in
      if eofbit s' then
        Throw (runtime_error "MemlessPoly: coefs file invalid !")
      else read_poly_coefs u count' s' (acc ++ [a])
  end.

(** [for (size_t n = 0; n < lut_entries; n++)] of the table format:
    no test of the stream at all. *)
Fixpoint read_lut (u : uninitialised) (count : nat)
    (s : ifstream) (acc : list complexf) : list complexf :=
  match count with
  | O => acc
  | S count' =>
      let '(e, s') := extract as_float stored_float s in
      let a := stored (junk_lut u (length acc)) e in
      read_lut u count' s' (acc ++ [c_of_float a])
  end.

Definition string_of_Z (z : Z) : string :=
  DecimalString.NilZero.string_of_int (Z.to_int z).

(** [MemlessPoly::load_coefficients]: the members afterwards and the
    exception with which the call ends, if it throws. [file] is [None]
    when the file cannot be opened. *)
Definition load_coefficients (u : uninitialised) (st : dpd_state)
    (file : option ifstream) : dpd_state * option exn :=
  match file with
  | None =>
      (st, Some (runtime_error
                   "MemlessPoly: Could not open file with coefs!"))
  | Some coef_fstream =>
      let '(e, s1) := extract as_uint32 stored_uint32 coef_fstream in
      let file_format_indicator := stored (junk_uint32 u) e in
      if file_format_indicator =? 1 then
        let '(e, s2) := extract as_int stored_int s1 in
        let n_coefs := stored (junk_int u) e in
        if n_coefs <=? 0 then
          (st, Some (runtime_error
                       "MemlessPoly: coefs file has invalid format."))
        else if negb (n_coefs =? NUM_COEFS) then
          (st, Some (runtime_error
                       ("MemlessPoly: invalid number of coefs: " ++
                        string_of_Z n_coefs ++ " expected " ++
                        string_of_Z NUM_COEFS)))
        else
          let n_entries := 2 * n_coefs in
          match read_poly_coefs u (Z.to_nat n_entries) s2 [] with
          | Throw e => (st, Some e)
          | Ok coefs =>
              let coefs_am := firstn (Z.to_nat n_coefs) coefs in
              let coefs_pm := skipn (Z.to_nat n_coefs) coefs in
              (mk_dpd_state odd_only_poly coefs_am coefs_pm
                 (m_lut_scalefactor st) (m_lut st) true (m_coefs_file st),
               None)
          end
      else if file_format_indicator =? 2 then
        let '(e, s2) := extract as_float stored_float s1 in
        let scalefactor := stored (junk_scalefactor u) e in
        let lut := read_lut u lut_entries s2 [] in
        (mk_dpd_state lookup_table (m_coefs_am st) (m_coefs_pm st)
           scalefactor lut true (m_coefs_file st),
         None)
      else
        (* logged as an error; nothing is thrown *)
        (mk_dpd_state (m_dpd_type st) (m_coefs_am st) (m_coefs_pm st)
           (m_lut_scalefactor st) (m_lut st) false (m_coefs_file st),
         None)
  end.

(** [MemlessPoly::set_parameter]: the members afterwards and the
    exception the remote-control caller gets, if any. [open] is the file
    system: the stream a file name opens as, if it opens. *)
Definition set_parameter (u : uninitialised)
    (open : string -> option ifstream)
    (st : dpd_state) (parameter value : string)
  : dpd_state * option exn :=
  if String.eqb parameter "ncoefs" then
    (st, Some (ParameterError "Parameter 'ncoefs' is read-only"))
  else if String.eqb parameter "coeffile" then
    match load_coefficients u st (open value) with
    | (st', None) =>
        (mk_dpd_state (m_dpd_type st') (m_coefs_am st') (m_coefs_pm st')
           (m_lut_scalefactor st') (m_lut st')
           (m_dpd_settings_valid st') value,
         None)
    | (st', Some (runtime_error what)) =>
        (st', Some (ParameterError what))
    | (st', Some e) => (st', Some e)
    end
  else
    (st, Some (ParameterError
                 ("Parameter '" ++ parameter ++
                  "' is not exported by controllable memlesspoly"))).

(** Three kinds of load that end with an exception: of a file that
    does not open, of a file of the polynomial format that names a
    number of coefficients other than five, and of a file of the
    polynomial format all of whose words are numbers and that ends
    before the tenth coefficient. [w1] is the format indicator, [w2]
    the count. *)
Inductive rejected_file : option ifstream -> Prop :=
| unopenable : rejected_file None
| wrong_count w1 w2 rest trailing n :
    as_uint32 w1 = Some 1 -> as_int w2 = Some n -> n <> NUM_COEFS ->
    rejected_file (Some (mk_ifstream (w1 :: w2 :: rest) trailing false false))
| premature_eof w1 w2 coefs trailing :
    as_uint32 w1 = Some 1 -> as_int w2 = Some NUM_COEFS ->
    Forall (fun w => as_float w <> None) coefs ->
    (length coefs < 10)%nat ->
    rejected_file (Some (mk_ifstream (w1 :: w2 :: coefs) trailing false false)).

(** The files that open and start with a word that reads as neither of
    the two format indicators. *)
Inductive unknown_format_file : option ifstream -> Prop :=
| unknown_format w rest trailing :
    value_read as_uint32 stored_uint32 w <> 1 ->
    value_read as_uint32 stored_uint32 w <> 2 ->
    unknown_format_file
      (Some (mk_ifstream (w :: rest) trailing false false)).

(** *** The two predistortion kernels *)

(** [out[i] = v;] on an array of [length l] elements. *)
Definition store {A : Type} (l : list A) (i : nat) (v : A)
  : option (list A) :=
  if Nat.ltb i (length l)
  then Some (firstn i l ++ v :: skipn (S i) l)
  else None.

(** [for (size_t i = start; i < stop; i++) out[i] = f(in[i]);] with
    [count] the number of indices from [start] up to [stop].  [None]
    is an access outside an array. *)
Fixpoint for_range (f : complexf -> option complexf)
    (in_ : list complexf) (start count : nat) (out : list complexf)
  : option (list complexf) :=
  match count with
  | O => Some out
  | S count' =>
      match nth_error in_ start with
      | None => None
      | Some x =>
          match f x with
          | None => None
          | Some y =>
              match store out start y with
              | None => None
              | Some out' => for_range f in_ (S start) count' out'
              end
          end
      end
  end.

(** One iteration of the loop of [apply_coeff]. *)
Definition coeff_sample (coefs_am coefs_pm : list F) (x : complexf)
  : option complexf :=
  match coefs_am, coefs_pm with
  | a0 :: a1 :: a2 :: a3 :: a4 :: _, p0 :: p1 :: p2 :: p3 :: p4 :: _ =>
      let in_mag_sq :=
        f_add (f_mul (c_real x) (c_real x)) (f_mul (c_imag x) (c_imag x)) in
      let horner c0 c1 c2 c3 c4 :=
        f_add c0 (f_mul in_mag_sq
          (f_add c1 (f_mul in_mag_sq
            (f_add c2 (f_mul in_mag_sq
              (f_add c3 (f_mul in_mag_sq c4))))))) in
      let amplitude_correction := horner a0 a1 a2 a3 a4 in
      let phase_correction :=
        f_mul (f_lit (-1)) (horner p0 p1 p2 p3 p4) in
      let phase_correction_sq :=
        f_mul phase_correction phase_correction in
      let re :=
        f_sub (f_lit 1) (f_mul phase_correction_sq
          (f_add (f_lit (-5 # 10)) (f_mul phase_correction_sq
            (f_add (f_lit (486666 # 1000000)) (f_mul phase_correction_sq
              (f_lit (-138888 # 100000000))))))) in
      let im :=
        f_mul phase_correction
          (f_add (f_lit 1) (f_mul phase_correction_sq
            (f_add (f_lit (166666 # 1000000)) (f_mul phase_correction_sq
              (f_lit (833333 # 100000000)))))) in
      Some (c_mul (c_scale x amplitude_correction) (re, im))
  | _, _ => None
  end.

(** [const uint32_t scaled_in = lrintf(in_mag * scalefactor);] *)
Definition scaled_in (scalefactor : F) (x : complexf) : Z :=
  uint32 (f_lrint (f_mul (f_hypot (c_real x) (c_imag x)) scalefactor)).

(** [const uint8_t lut_ix = (scaled_in >> 27);] *)
Definition lut_ix (scalefactor : F) (x : complexf) : Z :=
  uint8 (Z.shiftr (scaled_in scalefactor x) 27).

(** One iteration of the loop of [apply_lut]: [None] when [lut_ix]
    is not an index of the table. *)
Definition lut_sample (lut : list complexf) (scalefactor : F)
    (x : complexf) : option complexf :=
  match nth_error lut (Z.to_nat (lut_ix scalefactor x)) with
  | Some c => Some (c_mul x c)
  | None => None
  end.

Definition apply_coeff (coefs_am coefs_pm : list F)
    (in_ : list complexf) (start stop : nat) (out : list complexf)
  : option (list complexf) :=
  for_range (coeff_sample coefs_am coefs_pm) in_ start (stop - start) out.

Definition apply_lut (lut : list complexf) (scalefactor : F)
    (in_ : list complexf) (start stop : nat) (out : list complexf)
  : option (list complexf) :=
  for_range (lut_sample lut scalefactor) in_ start (stop - start) out.

(** *** internal_process *)

(** The first [n] samples a byte buffer holds, and back. *)
Fixpoint decode_samples (n : nat) (data : list byte) : list complexf :=
  match n with
  | O => []
  | S n' =>
      (f_decode (firstn 4 data), f_decode (firstn 4 (skipn 4 data)))
        :: decode_samples n' (skipn 8 data)
  end.

Definition encode_samples (l : list complexf) : list byte :=
  flat_map (fun c => f_encode (c_real c) ++ f_encode (c_imag c)) l.

(** Modelled from the spec: [Buffer::setLength] of the absent
    [Buffer.cpp]. Buffers are contiguous sequences whose length the
    call sets; the bytes already there stay, and [fresh] gives the
    content of the bytes the buffer grows by. *)
Definition setLength (fresh : nat -> byte) (data : list byte) (len : nat)
  : list byte :=
  firstn len data ++ map fresh (seq (length data) (len - length data)).

(** The kernel the coefficient kind selects, on [start, stop). *)
Definition apply_dpd (st : dpd_state) (in_ : list complexf)
    (start stop : nat) (out : list complexf) : option (list complexf) :=
  match m_dpd_type st with
  | odd_only_poly =>
      apply_coeff (m_coefs_am st) (m_coefs_pm st) in_ start stop out
  | lookup_table =>
      apply_lut (m_lut st) (m_lut_scalefactor st) in_ start stop out
  end.

(** [for (auto& worker : m_workers)]: each worker is handed the next
    [step] samples. The workers write disjoint parts of [out], so their
    effect is that of running them one after the other. *)
Fixpoint dispatch (st : dpd_state) (in_ : list complexf)
    (workers step start : nat) (out : list complexf)
  : option (nat * list complexf) :=
  match workers with
  | O => Some (start, out)
  | S workers' =>
      match apply_dpd st in_ start (start + step) out with
      | None => None
      | Some out' => dispatch st in_ workers' step (start + step) out'
      end
  end.

(** [MemlessPoly::internal_process]: the content of [dataOut] when the
    call returns, and the value returned. *)
Definition internal_process (st : dpd_state) (num_threads : nat)
    (fresh : nat -> byte) (dataIn dataOut : list byte)
  : option (list byte * Z) :=
  let dataOut := setLength fresh dataOut (length dataIn) in
  let sizeOut := (length dataOut / 8)%nat in
  (* return dataOut->getLength(); of a function that returns [int] *)
  let ret (data : list byte) :=
    Some (data, int32 (Z.of_nat (length data))) in
  if m_dpd_settings_valid st then
    let in_ := decode_samples sizeOut dataIn in
    let out := decode_samples sizeOut dataOut in
    let finish (out : list complexf) :=
      ret (encode_samples out ++ skipn (8 * sizeOut) dataOut) in
    if Nat.ltb 0 num_threads then
      let step := (sizeOut / num_threads)%nat in
      match dispatch st in_ num_threads step 0 out with
      | None => None
      | Some (start, out) =>
          (* Do the last in this thread *)
          match apply_dpd st in_ start sizeOut out with
          | None => None
          | Some out => finish out
          end
      end
    else
      match apply_dpd st in_ 0 sizeOut out with
      | None => None
      | Some out => finish out
      end
  else
    (* memcpy(dataOut->getData(), dataIn->getData(), sizeOut); *)
    ret (firstn sizeOut dataIn ++ skipn sizeOut dataOut).

(** [MemlessPoly::get_parameter] *)
Definition get_parameter (st : dpd_state) (parameter : string)
  : result string :=
  if String.eqb parameter "ncoefs" then
    Ok (string_of_Z (Z.of_nat (length (m_coefs_am st))))
  else if String.eqb parameter "coeffile" then
    Ok (m_coefs_file st)
  else
    Throw (ParameterError
             ("Parameter '" ++ parameter ++
              "' is not exported by controllable memlesspoly")).

(** The shape of the members the kernels rely on: [m_lut] is a
    [std::array] of [lut_entries] entries, and valid settings of the
    polynomial kind come with [NUM_COEFS] coefficients of each sort. *)
Definition dpd_wellformed (st : dpd_state) : Prop :=
  length (m_lut st) = lut_entries
  /\ (m_dpd_settings_valid st = true ->
      m_dpd_type st = odd_only_poly ->
      length (m_coefs_am st) = Z.to_nat NUM_COEFS
      /\ length (m_coefs_pm st) = Z.to_nat NUM_COEFS).

End WithFloat.

Arguments Extracted {A} a.
Arguments Unparsed {A} a.
Arguments Untouched {A}.
Arguments complexf F : clear implicits.
Arguments dpd_state F : clear implicits.
Arguments word F : clear implicits.
Arguments ifstream F : clear implicits.
Arguments uninitialised F : clear implicits.

End MemlessPoly.

(** ** ThreadsafeQueue *)

Module ThreadsafeQueue.

(** Modelled from the spec: [ThreadsafeQueue::push_wait_if_full] of the
    absent [ThreadsafeQueue.h]. It blocks the producer when the queue
    is full: [None] is the producer waiting, the queue as it was. *)
Definition push_wait_if_full {A : Type} (q : list A) (x : A) (max : Z)
  : option (list A) :=
  if Z.of_nat (length q) <? max then Some (q ++ [x]) else None.

(** Modelled from the spec: [ThreadsafeQueue::wait_and_pop] of the
    absent [ThreadsafeQueue.h]. It blocks the consumer until at least
    [prebuffering] items are present: [None] is the consumer waiting. *)
Definition wait_and_pop {A : Type} (q : list A) (prebuffering : Z)
  : option (A * list A) :=
  if Z.of_nat (length q) <? prebuffering then None
  else match q with
       | [] => None
       | x :: q' => Some (x, q')
       end.

End ThreadsafeQueue.

(** ** OutputUHDFeedback.cpp: the capture of a transmit burst *)

Module BurstRequestState.
Inductive t : Type :=
| None
| SaveTransmitFrame
| SaveReceiveFrame
| Acquired.
End BurstRequestState.

Module OutputUHDFeedback.

Record UHDReceiveBurstRequest : Type := mk_burst {
  state : BurstRequestState.t;
  num_samples : Z;               (* size_t *)
  tx_second : Z;                 (* uint32_t *)
  tx_pps : Z;
  tx_samples : list byte;
  rx_second : Z;
  rx_pps : Z;
  rx_samples : list byte
}.

Record feedback : Type := mk_feedback {
  m_running : bool;
  m_port : Z;
  m_sampleRate : Z;              (* uint32_t *)
  burstRequest : UHDReceiveBurstRequest
}.

(** The constructor: the two threads run only for a non-zero port. *)
Definition make (port sampleRate : Z) : feedback :=
  mk_feedback (negb (port =? 0)) port sampleRate
    (mk_burst BurstRequestState.None 0 0 0 [] 0 0 []).

Section WithTimestampArith.

Context {TA : TimestampArith}.

(** [OutputUHDFeedback::set_tx_frame] *)
Definition set_tx_frame (fb : feedback) (buf : list byte)
    (buf_ts : frame_timestamp) : result feedback :=
  if negb (m_running fb) then
    Throw (runtime_error "OutputUHDFeedback not running")
  else
    let size := Z.of_nat (length buf) in
    if negb (size mod sizeof_complexf =? 0) then
      Throw (logic_error "Buffer for tx frame has incorrect size")
    else
      let br := burstRequest fb in
      match state br with
      | BurstRequestState.SaveTransmitFrame =>
          let n :=
            Z.min (uint64 (num_samples br * sizeof_complexf)) size in
          let start_ix := size - n in
          let ts :=
            timestamp_add buf_ts
              (inject_Z start_ix
               / inject_Z (sizeof_complexf * m_sampleRate fb))%Q in
          Ok (mk_feedback (m_running fb) (m_port fb) (m_sampleRate fb)
                (mk_burst BurstRequestState.SaveReceiveFrame
                   (n / sizeof_complexf)
                   (timestamp_sec ts) (timestamp_pps ts)
                   (skipn (Z.to_nat start_ix) buf)
                   (timestamp_sec ts) (timestamp_pps ts)
                   (rx_samples br)))
      | _ => Ok fb
      end.

End WithTimestampArith.

(** *** The receive thread and the TCP server *)

Section WithDoubleArith.

Context {DA : DoubleArith}.

(** What [rxStream->recv] delivers: the number of samples it reports,
    the bytes it wrote, and the time of the meta data. *)
Record rx_result : Type := mk_rx_result {
  samples_read : Z;
  received : list byte;
  md_full_secs : Z;
  md_frac_secs : Q
}.

(** [std::vector<uint8_t>::resize] *)
Definition resize_bytes (data : list byte) (len : nat) : list byte :=
  firstn len data ++ repeat x00 (len - length data).

(** One turn of the loop of [ReceiveBurstThread] once the request is in
    state [SaveReceiveFrame]: the stream command asks for [num_samples]
    samples, the buffer of that many samples takes what [recv] wrote and
    is then resized to the samples reported. In any other state the
    thread goes on waiting. *)
Definition receive_burst (fb : feedback) (rx : rx_result) : feedback :=
  let br := burstRequest fb in
  match state br with
  | BurstRequestState.SaveReceiveFrame =>
      let num_samps := num_samples br in
      let buf :=
        resize_bytes (received rx)
          (Z.to_nat (uint64 (num_samps * sizeof_complexf))) in
      mk_feedback (m_running fb) (m_port fb) (m_sampleRate fb)
        (mk_burst BurstRequestState.Acquired num_samps
           (tx_second br) (tx_pps br) (tx_samples br)
           (uint32 (md_full_secs rx))
           (* rx_pps = md.time_spec.get_frac_secs() * 16384000.0; *)
           (uint32 (Qtruncate
                      (to_double (md_frac_secs rx * inject_Z 16384000))))
           (resize_bytes buf
              (Z.to_nat (uint64 (samples_read rx * sizeof_complexf)))))
  | _ => fb
  end.

End WithDoubleArith.

(** What [client_sock.recv] returns: the peer closed, an error, or the
    value read. *)
Inductive sock_recv : Type :=
| RecvClosed
| RecvError
| RecvValue (v : Z).

(** A client connection: what the two reads return and which of the
    successive [sendall] calls succeed. *)
Record client : Type := mk_client {
  recv_version : sock_recv;
  recv_num_samples : sock_recv;
  sendall_ok : nat -> bool
}.

(** What [sendall] is given: a 32-bit word or a run of bytes. *)
Inductive message : Type :=
| Word32 (v : Z)
| Payload (data : list byte).

(** The first half of a turn of [ServeFeedback], up to the wait for the
    result: the request afterwards, and whether the server goes on to
    wait ([false]: it leaves the loop). *)
Definition serve_request (fb : feedback) (c : client) : feedback * bool :=
  match recv_version c with
  | RecvValue request_version =>
      if negb (request_version =? 1) then (fb, false)
      else
        match recv_num_samples c with
        | RecvValue num_samples =>
            let br := burstRequest fb in
            (mk_feedback (m_running fb) (m_port fb) (m_sampleRate fb)
               (mk_burst BurstRequestState.SaveTransmitFrame
                  (uint32 num_samples)
                  (tx_second br) (tx_pps br) (tx_samples br)
                  (rx_second br) (rx_pps br) (rx_samples br)),
             true)
        | _ => (fb, false)
        end
  | _ => (fb, false)
  end.

(** The second half of a turn of [ServeFeedback], from the end of the
    wait on: the request afterwards, the messages that went out, the
    exception if one is thrown, and whether the whole reply went out
    ([false] with no exception: a [sendall] failed and the server leaves
    the loop). *)
Definition serve_reply (fb : feedback) (c : client)
  : feedback * list message * option exn * bool :=
  let br := burstRequest fb in
  let num :=
    Z.min (num_samples br)
      (Z.min (Z.of_nat (length (tx_samples br)) / sizeof_complexf)
             (Z.of_nat (length (rx_samples br)) / sizeof_complexf)) in
  let fb' :=
    mk_feedback (m_running fb) (m_port fb) (m_sampleRate fb)
      (mk_burst BurstRequestState.None num
         (tx_second br) (tx_pps br) (tx_samples br)
         (rx_second br) (rx_pps br) (rx_samples br)) in
  let num_samples_32 := uint32 num in
  if negb (sendall_ok c 0) then (fb', [], None, false) else
  let sent := [Word32 num_samples_32] in
  if negb (sendall_ok c 1) then (fb', sent, None, false) else
  let sent := sent ++ [Word32 (tx_second br)] in
  if negb (sendall_ok c 2) then (fb', sent, None, false) else
  let sent := sent ++ [Word32 (tx_pps br)] in
  let frame_bytes := uint64 (num * sizeof_complexf) in
  if Z.of_nat (length (tx_samples br)) <? frame_bytes then
    (fb', sent,
     Some (logic_error
             "DPD Feedback burstRequest invalid: not enough TX samples"),
     false)
  else
  if negb (sendall_ok c 3) then (fb', sent, None, false) else
  let sent :=
    sent ++ [Payload (firstn (Z.to_nat frame_bytes) (tx_samples br))] in
  if negb (sendall_ok c 4) then (fb', sent, None, false) else
  let sent := sent ++ [Word32 (rx_second br)] in
  if negb (sendall_ok c 5) then (fb', sent, None, false) else
  let sent := sent ++ [Word32 (rx_pps br)] in
  if Z.of_nat (length (rx_samples br)) <? frame_bytes then
    (fb', sent,
     Some (logic_error
             "DPD Feedback burstRequest invalid: not enough RX samples"),
     false)
  else
  if negb (sendall_ok c 6) then (fb', sent, None, false) else
  (fb',
   sent ++ [Payload (firstn (Z.to_nat frame_bytes) (rx_samples br))],
   None, true).

End OutputUHDFeedback.

(** ** OutputUHD.cpp: the transmitter *)

Module OutputUHD.

(** Maximum number of frames that can wait in [frames]. *)
Definition FRAMES_MAX_SIZE : Z := 8.

Inductive refclk_lock_loss_behaviour_t : Type := CRASH | IGNORE.

(** The fields of [OutputUHDConfig] the modelled code reads. [double]
    values are rationals. *)
Record OutputUHDConfig : Type := mk_config {
  sampleRate : Z;                (* long *)
  dabMode : Z;
  enableSync : bool;
  muteNoTimestamps : bool;
  muting : bool;
  staticDelayUs : Z;             (* int *)
  refclk_src : string;
  refclk_lock_loss_behaviour : refclk_lock_loss_behaviour_t;
  maxGPSHoldoverTime : Z;
  dpdFeedbackServerPort : Z;
  txgain : Q;
  rxgain : Q;
  frequency : Q
}.

Definition set_muting (c : OutputUHDConfig) (v : bool) : OutputUHDConfig :=
  mk_config (sampleRate c) (dabMode c) (enableSync c) (muteNoTimestamps c)
    v (staticDelayUs c) (refclk_src c) (refclk_lock_loss_behaviour c)
    (maxGPSHoldoverTime c) (dpdFeedbackServerPort c)
    (txgain c) (rxgain c) (frequency c).

Definition set_staticDelayUs (c : OutputUHDConfig) (v : Z)
  : OutputUHDConfig :=
  mk_config (sampleRate c) (dabMode c) (enableSync c) (muteNoTimestamps c)
    (muting c) v (refclk_src c) (refclk_lock_loss_behaviour c)
    (maxGPSHoldoverTime c) (dpdFeedbackServerPort c)
    (txgain c) (rxgain c) (frequency c).

Definition set_gains (c : OutputUHDConfig) (tx rx freq : Q)
  : OutputUHDConfig :=
  mk_config (sampleRate c) (dabMode c) (enableSync c) (muteNoTimestamps c)
    (muting c) (staticDelayUs c) (refclk_src c)
    (refclk_lock_loss_behaviour c)
    (maxGPSHoldoverTime c) (dpdFeedbackServerPort c) tx rx freq.

(** [struct UHDWorkerFrameData] *)
Record UHDWorkerFrameData : Type := mk_frame {
  buf : list byte;
  ts : frame_timestamp
}.

(** [transmission_frame_duration_ms] *)
Definition transmission_frame_duration_ms (dabMode : Z) : result Z :=
  match dabMode with
  | 0 => Ok 0
  | 1 => Ok 96
  | 2 => Ok 24
  | 3 => Ok 24
  | 4 => Ok 48
  | _ => Throw (runtime_error "OutputUHD: invalid DAB mode")
  end.

(** *** Remote control *)

(** The value string of a remote-control command, by what the
    [stringstream] extracts from it at each type. An extraction from an
    empty string fails and writes nothing; one from a word that does
    not parse ([None]) fails too but writes a value all the same: zero,
    or the nearest bound for a number out of range ([stored_double]);
    as a [bool], [false] for a word without digits and [true] for a
    number other than 0 and 1 ([stored_bool]). The stream turns both
    failures into an exception, thrown after the value is written. *)
Record rc_value : Type := mk_rc_value {
  empty : bool;
  as_double : option Q;
  as_bool : option bool;
  as_int64 : option Z;
  stored_double : Q;
  stored_bool : bool
}.

(** The [staticdelay] branch of [OutputUHD::set_parameter]: the new
    value of [myConf.staticDelayUs]. *)
Definition set_staticdelay (myTFDurationMs staticDelayUs adjust : Z) : Z :=
  if adjust >? myTFDurationMs * 1000 then
    (* reset static delay for values outside range *)
    0
  else
    (* the new adjust value is added to the existing delay and the
       result is wrapped around at TF duration *)
    let newStaticDelayUs := int32 (staticDelayUs + adjust) in
    if newStaticDelayUs >? myTFDurationMs * 1000 then
      int32 (newStaticDelayUs - myTFDurationMs * 1000)
    else if newStaticDelayUs <? 0 then
      int32 (newStaticDelayUs + myTFDurationMs * 1000)
    else newStaticDelayUs.

(** [OutputUHD::set_parameter], on the configuration: the
    configuration afterwards and the exception, if the call throws.
    [tuned] is the frequency the device reports after tuning. *)
Definition set_parameter (tuned : Q) (myTFDurationMs : Z)
    (c : OutputUHDConfig) (parameter : string) (value : rc_value)
  : OutputUHDConfig * option exn :=
  if String.eqb parameter "txgain" then
    if empty value then (c, Some ios_failure)
    else match as_double value with
         | Some g => (set_gains c g (rxgain c) (frequency c), None)
         | None =>
             (set_gains c (stored_double value) (rxgain c) (frequency c),
              Some ios_failure)
         end
  else if String.eqb parameter "rxgain" then
    if empty value then (c, Some ios_failure)
    else match as_double value with
         | Some g => (set_gains c (txgain c) g (frequency c), None)
         | None =>
             (set_gains c (txgain c) (stored_double value) (frequency c),
              Some ios_failure)
         end
  else if String.eqb parameter "freq" then
    if empty value then (c, Some ios_failure)
    else match as_double value with
         | Some _ => (set_gains c (txgain c) (rxgain c) tuned, None)
         | None =>
             (set_gains c (txgain c) (rxgain c) (stored_double value),
              Some ios_failure)
         end
  else if String.eqb parameter "muting" then
    if empty value then (c, Some ios_failure)
    else match as_bool value with
         | Some b => (set_muting c b, None)
         | None => (set_muting c (stored_bool value), Some ios_failure)
         end
  else if String.eqb parameter "staticdelay" then
    if empty value then (c, Some ios_failure)
    else match as_int64 value with
         | Some adjust =>
             (set_staticDelayUs c
                (set_staticdelay myTFDurationMs (staticDelayUs c) adjust),
              None)
         | None => (c, Some ios_failure)
         end
  else if String.eqb parameter "underruns"
          || String.eqb parameter "latepackets"
          || String.eqb parameter "frames" then
    (c, Some (ParameterError
                ("Parameter " ++ parameter ++ " is read-only.")))
  else
    (c, Some (ParameterError
                ("Parameter '" ++ parameter ++
                 "' is not exported by controllable uhd"))).

(** *** The asynchronous-event thread *)

Inductive event_code_t : Type :=
| EVENT_CODE_BURST_ACK
| EVENT_CODE_UNDERFLOW
| EVENT_CODE_SEQ_ERROR
| EVENT_CODE_TIME_ERROR
| EVENT_CODE_UNDERFLOW_IN_PACKET
| EVENT_CODE_SEQ_ERROR_IN_BURST
| EVENT_CODE_USER_PAYLOAD.

(** The counters the thread writes ([size_t]). *)
Record counters : Type := mk_counters {
  num_underflows : Z;
  num_late_packets : Z
}.

(** The [switch] of [print_async_thread] on one received event: the
    counters afterwards, the message and whether it is a failure. *)
Definition handle_async_event (c : counters) (code : event_code_t)
  : counters * string * bool :=
  match code with
  | EVENT_CODE_BURST_ACK => (c, "", false)
  | EVENT_CODE_UNDERFLOW =>
      (mk_counters (uint64 (num_underflows c + 1)) (num_late_packets c),
       "Underflow", false)
  | EVENT_CODE_SEQ_ERROR =>
      (c, "Packet loss between host and device.", true)
  | EVENT_CODE_TIME_ERROR =>
      (mk_counters (num_underflows c) (uint64 (num_late_packets c + 1)),
       "Packet had time that was late.", false)
  | EVENT_CODE_UNDERFLOW_IN_PACKET =>
      (c, "Underflow occurred inside a packet.", true)
  | EVENT_CODE_SEQ_ERROR_IN_BURST =>
      (c, "Packet loss within a burst.", true)
  | EVENT_CODE_USER_PAYLOAD =>
      (c, "unknown event code", true)
  end%string.

(** One turn of the loop of [print_async_thread]: [received] is the
    event [recv_async_msg] delivered within its timeout, if any. The
    result is the counters and whether an alert was logged. *)
Definition print_async_step (c : counters) (received : option event_code_t)
  : counters * bool :=
  match received with
  | Some code =>
      let '(c', _, failure) := handle_async_event c code in (c', failure)
  | None => (c, false)
  end.

(** *** The transmit thread *)

(** What the transmit thread does to the outside world. *)
Inductive event : Type :=
| Usleep (us : Z)
| Send (offset samps_to_send : Z)          (* [&in_data[offset]] *)
       (has_time_spec : bool) (time_spec : Q)
       (end_of_burst : bool)
       (num_tx_samps : Z).                 (* what [send] returned *)

(** [uhd::tx_metadata_t md], the fields the code sets. *)
Record tx_metadata_t : Type := mk_md {
  md_has_time_spec : bool;
  md_time_spec : Q;
  md_end_of_burst : bool
}.

(** The members of [OutputUHD] owned by the transmit thread, and the
    locals of [workerthread] that live across frames. *)
Record worker_state : Type := mk_worker {
  md : tx_metadata_t;
  last_tx_time_initialised : bool;
  last_tx_second : Z;            (* uint32_t *)
  last_tx_pps : Z;               (* uint32_t *)
  suppress_refclk_loss_check : bool;
  num_frames_modulated : Z;      (* size_t *)
  last_num_underflows : Z;
  pop_prebuffering : Z
}.

(** What the thread observes of the device and of the other threads
    while it handles one frame. *)
Record tx_env : Type := mk_tx_env {
  ref_locked : option bool;      (* the sensor; [None]: lookup_error *)
  usrp_time : Q;                 (* [get_real_secs()], a double *)
  muting_now : bool;             (* [myConf.muting] in [handle_frame] *)
  max_num_samps : Z;             (* [get_max_num_samps()] *)
  running_at : nat -> bool;      (* [running.load()], i-th loop test *)
  muting_at : nat -> bool;       (* [myConf.muting], i-th loop test *)
  send_at : nat -> Z -> Z        (* samples the i-th [send] accepts *)
}.

(** How a call of [handle_frame] ends. *)
Inductive outcome : Type :=
| Returned
| Thrown (e : exn)
| DivisionByZero
| OutOfFuel.                   (* the bound of [tx_frame] was too small *)

Section Worker.

Context {DA : DoubleArith}.

(** [TIMESTAMP_ABORT_FUTURE] is defined in the absent [OutputUHD.h]. *)
Variable TIMESTAMP_ABORT_FUTURE : Q.

Variable myConf : OutputUHDConfig.
Variable sourceContainsTimestamp : bool.

(** [OutputUHD::refclk_loss_needs_check] *)
Definition refclk_loss_needs_check (st : worker_state) : bool :=
  if suppress_refclk_loss_check st then false
  else negb (String.eqb (refclk_src myConf) "internal").

(** [frame->buf.size() / sizeof(complexf)], a [size_t]. *)
Definition sizeIn_of (frame : UHDWorkerFrameData) : Z :=
  uint64 (Z.of_nat (length (buf frame))) / sizeof_complexf.

(** The [while] loop of [OutputUHD::tx_frame], from its [i]-th test
    on. [fuel] bounds the number of iterations. *)
Fixpoint tx_loop (env : tx_env) (md : tx_metadata_t)
    (frame : UHDWorkerFrameData) (ts_update : bool)
    (fuel i : nat) (num_acc_samps : Z) : option (list event) :=
  let sizeIn := sizeIn_of frame in
  let usrp_max_num_samps := uint64 (max_num_samps env) in
  if running_at env i && negb (muting_at env i)
     && (num_acc_samps <? sizeIn) then
    match fuel with
    | O => None
    | S fuel' =>
        let samps_to_send :=
          Z.min (sizeIn - num_acc_samps) usrp_max_num_samps in
        (* uhd::tx_metadata_t md_tx = md; *)
        let md_tx :=
          mk_md (md_has_time_spec md) (md_time_spec md)
            (sourceContainsTimestamp
             && (timestamp_refresh (ts frame) || ts_update)
             && (samps_to_send <=? usrp_max_num_samps)) in
        let num_tx_samps := uint64 (send_at env i samps_to_send) in
        let sent :=
          Send num_acc_samps samps_to_send
            (md_has_time_spec md_tx) (md_time_spec md_tx)
            (md_end_of_burst md_tx) num_tx_samps in
        (* num_acc_samps += num_tx_samps; both are [size_t] *)
        let num_acc_samps := uint64 (num_acc_samps + num_tx_samps) in
        (* md_tx.time_spec = md.time_spec + ...: [md_tx] is local to
           the iteration, the next one starts from [md] again *)
        let md_tx :=
          mk_md (md_has_time_spec md_tx)
            (md_time_spec md
             + inject_Z (num_tx_samps / sampleRate myConf))%Q
            (md_end_of_burst md_tx) in
        if num_tx_samps =? 0 then Some [sent]
        else
          match tx_loop env md frame ts_update fuel' (S i) num_acc_samps
          with
          | Some rest => Some (sent :: rest)
          | None => None
          end
    end
  else Some [].

(** [OutputUHD::tx_frame]. With a driver that reports no more samples
    than it was given, every iteration that goes on accepts at least
    one sample, so the frame's sample count bounds them; the result is
    [None] when that bound does not suffice. *)
Definition tx_frame (env : tx_env) (md : tx_metadata_t)
    (frame : UHDWorkerFrameData) (ts_update : bool)
  : option (list event) :=
  tx_loop env md frame ts_update
    (S (Z.to_nat (sizeIn_of frame))) 0 0.


(** [double pps_offset = tx_pps / 16384000.0;
     md.time_spec = uhd::time_spec_t(tx_second, pps_offset);]
    the time the two parts of the [time_spec_t], whole seconds and a
    fraction that is a double, stand for. *)
Definition time_spec (tx_second tx_pps : Z) : Q :=
  (inject_Z tx_second
   + to_double (inject_Z tx_pps / inject_Z 16384000))%Q.

(** [md.time_spec.get_real_secs()]: the sum of the two parts, as a
    double. *)
Definition real_secs (tx_second tx_pps : Z) : Q :=
  to_double (time_spec tx_second tx_pps).

Definition set_suppress (st : worker_state) : worker_state :=
  mk_worker (md st) (last_tx_time_initialised st) (last_tx_second st)
    (last_tx_pps st) true (num_frames_modulated st)
    (last_num_underflows st) (pop_prebuffering st).

(** The frame's time stamp becomes the burst's and is remembered. *)
Definition set_last_tx (st : worker_state) (tx_second tx_pps : Z)
  : worker_state :=
  mk_worker (mk_md true (time_spec tx_second tx_pps)
               (md_end_of_burst (md st)))
    true tx_second tx_pps (suppress_refclk_loss_check st)
    (num_frames_modulated st) (last_num_underflows st)
    (pop_prebuffering st).

(** The [if (last_tx_time_initialised)] block of [handle_frame]: the
    value of [timestamp_discontinuity] after it, [None] when the
    division by the sample rate is undefined. *)
Definition timestamp_discontinuity (st : worker_state)
    (frame : UHDWorkerFrameData) : option bool :=
  let tx_second := uint32 (timestamp_sec (ts frame)) in
  let tx_pps := uint32 (timestamp_pps (ts frame)) in
  if last_tx_time_initialised st then
    match advance (sampleRate myConf)
            (last_tx_second st, last_tx_pps st)
            (sizeIn_of frame) with
    | Some (expected_sec, expected_pps) =>
        Some (negb (expected_sec =? tx_second)
              || negb (expected_pps =? tx_pps))
    | None => None
    end
  else Some false.

(** [OutputUHD::handle_frame], after the reference-clock check. *)
Definition handle_frame_body (st : worker_state)
    (frame : UHDWorkerFrameData) (env : tx_env)
  : worker_state * list event * outcome :=
  let transmit (st : worker_state) (timestamp_discontinuity : bool) :=
    match tx_frame env (md st) frame timestamp_discontinuity with
    | Some evs => (st, evs, Returned)
    | None => (st, [], OutOfFuel)
    end in
  if sourceContainsTimestamp then
    let tx_second := uint32 (timestamp_sec (ts frame)) in
    let tx_pps := uint32 (timestamp_pps (ts frame)) in
    if negb (timestamp_valid (ts frame)) then
      (* usleep(20000); //TODO should this be TM-dependant ? *)
      (st, [Usleep 20000], Returned)
    else
      match timestamp_discontinuity st frame with
      | None => (st, [], DivisionByZero)
      | Some timestamp_discontinuity =>
          let st := set_last_tx st tx_second tx_pps in
          (* md.time_spec.get_real_secs() + tx_timeout < usrp_time *)
          if Qlt_le_dec (to_double (real_secs tx_second tx_pps + 20))
               (usrp_time env) then
            (* Timestamp in the past *)
            (st, [], Returned)
          (* md.time_spec.get_real_secs()
               > usrp_time + TIMESTAMP_ABORT_FUTURE *)
          else if Qlt_le_dec
                    (to_double (usrp_time env + TIMESTAMP_ABORT_FUTURE))
                    (real_secs tx_second tx_pps) then
            (st, [], Thrown (runtime_error "Timestamp error. Aborted."))
          else transmit st timestamp_discontinuity
      end
  else
    if muting_now env || muteNoTimestamps myConf then
      (st, [Usleep 20000], Returned)
    else transmit st false.

(** [OutputUHD::handle_frame] *)
Definition handle_frame (st : worker_state)
    (frame : UHDWorkerFrameData) (env : tx_env)
  : worker_state * list event * outcome :=
  if refclk_loss_needs_check st then
    match ref_locked env with
    | Some false =>
        match refclk_lock_loss_behaviour myConf with
        | CRASH =>
            (st, [],
             Thrown (runtime_error
                       "OutputUHD: External reference clock lock lost."))
        | IGNORE => handle_frame_body st frame env
        end
    | Some true => handle_frame_body st frame env
    | None => handle_frame_body (set_suppress st) frame env
    end
  else handle_frame_body st frame env.

(** The state with which [workerthread] enters its loop. *)
Definition worker_init : worker_state :=
  mk_worker (mk_md false 0 false) false 0 0 false 0 0 FRAMES_MAX_SIZE.

(** The body of the [while (running.load())] loop of [workerthread],
    once [wait_and_pop] has delivered [frame]. [underflows_test] and
    [underflows_save] are the values of [num_underflows] the two
    reads after [handle_frame] see. The state is [None] when
    [handle_frame] does not return and the thread ends. *)
Definition worker_turn (st : worker_state) (frame : UHDWorkerFrameData)
    (env : tx_env) (underflows_test underflows_save : Z)
  : option worker_state * list event * outcome :=
  (* md.has_time_spec = false; md.time_spec = uhd::time_spec_t(0.0); *)
  let st :=
    mk_worker (mk_md false 0 (md_end_of_burst (md st)))
      (last_tx_time_initialised st) (last_tx_second st) (last_tx_pps st)
      (suppress_refclk_loss_check st) (num_frames_modulated st)
      (last_num_underflows st) (pop_prebuffering st) in
  match handle_frame st frame env with
  | (st, evs, Returned) =>
      (Some (mk_worker (md st) (last_tx_time_initialised st)
               (last_tx_second st) (last_tx_pps st)
               (suppress_refclk_loss_check st)
               (uint64 (num_frames_modulated st + 1))
               underflows_save
               (if last_num_underflows st <? underflows_test
                then FRAMES_MAX_SIZE else 1)),
       evs, Returned)
  | (_, evs, o) => (None, evs, o)
  end.

(** One turn of the loop, with the pop: [None] while
    [frames.wait_and_pop(frame, pop_prebuffering)] is waiting. *)
Definition worker_iteration (st : worker_state)
    (frames : list UHDWorkerFrameData) (env : tx_env)
    (underflows_test underflows_save : Z)
  : option (option worker_state * list UHDWorkerFrameData
            * list event * outcome) :=
  match ThreadsafeQueue.wait_and_pop frames (pop_prebuffering st) with
  | None => None
  | Some (frame, frames') =>
      let '(st', evs, o) :=
        worker_turn st frame env underflows_test underflows_save in
      Some (st', frames', evs, o)
  end.

End Worker.

(** *** The modulator side: [process] *)

Record uhd : Type := mk_uhd {
  myConf : OutputUHDConfig;
  myTFDurationMs : Z;            (* int *)
  myDelayBuf : list byte;        (* the bytes of the vector of samples *)
  gps_fix_verified : bool;
  first_run : bool;
  running : bool;
  lastLen : Z;
  sourceContainsTimestamp : bool;
  frames : list UHDWorkerFrameData;
  uhdFeedback : OutputUHDFeedback.feedback
}.

(** What [process] observes of the clock supervisor, of the ETI source
    and of the transmit thread during one call. *)
Record process_env : Type := mk_process_env {
  initial_gps_check_result : result Z; (* [num_checks_without_gps_fix] *)
  set_usrp_time_result : result unit;
  check_gps_result : result unit;
  eti_mode : Z;                        (* [myEtiSource->getMode()] *)
  eti_sourceContainsTimestamp : bool;
  eti_timestamp : frame_timestamp;     (* [calculateTimestamp] *)
  worker_running : bool          (* the worker has not cleared [running] *)
}.

Inductive process_outcome : Type :=
| ProcessReturned (st : uhd) (ret : Z)
| ProcessThrown (st : uhd) (e : exn)
| ProcessWaiting (st : uhd) (frame : UHDWorkerFrameData)
    (* blocked in [push_wait_if_full], [frame] not yet in the queue *)
| ProcessUndefined.              (* a [memcpy] outside a buffer *)

(** [OutputUHD::gpsfix_needs_check] *)
Definition gpsfix_needs_check (c : OutputUHDConfig) : bool :=
  if String.eqb (refclk_src c) "internal" then false
  else if String.eqb (refclk_src c) "gpsdo" then
    negb (maxGPSHoldoverTime c =? 0)
  else if String.eqb (refclk_src c) "gpsdo-ettus" then
    negb (maxGPSHoldoverTime c =? 0)
  else false.

(** [std::vector::resize] on the bytes of the delay buffer. *)
Definition resize (data : list byte) (len : nat) : list byte :=
  firstn len data ++ repeat x00 (len - length data).

(** [OutputUHD::SetDelayBuffer] *)
Definition SetDelayBuffer (st : uhd) (dabMode : Z) : result uhd :=
  match transmission_frame_duration_ms dabMode with
  | Throw e => Throw e
  | Ok duration =>
      Ok (mk_uhd (myConf st) duration
            (resize (myDelayBuf st)
               (Z.to_nat (sizeof_complexf
                          * uint64 (Z.quot (duration
                                            * sampleRate (myConf st))
                                           1000))))
            (gps_fix_verified st) (first_run st) (running st) (lastLen st)
            (sourceContainsTimestamp st) (frames st) (uhdFeedback st))
  end.

(** [set_usrp_time(); gps_fix_verified = true; myConf.muting = false;] *)
Definition verify_gps_fix (env : process_env) (st : uhd) (ret : Z)
  : process_outcome :=
  match set_usrp_time_result env with
  | Throw e => ProcessThrown st e
  | Ok _ =>
      ProcessReturned
        (mk_uhd (set_muting (myConf st) false) (myTFDurationMs st)
           (myDelayBuf st) true (first_run st) (running st) (lastLen st)
           (sourceContainsTimestamp st) (frames st) (uhdFeedback st))
        ret
  end.

(** The [if (first_run)] block. *)
Definition initialise (env : process_env) (st : uhd) (len : Z)
  : result uhd :=
  if first_run st then
    bind (if myTFDurationMs st =? 0
          then SetDelayBuffer st (eti_mode env) else Ok st)
      (fun st =>
         Ok (mk_uhd (myConf st) (myTFDurationMs st) (myDelayBuf st)
               (gps_fix_verified st) false true len
               (sourceContainsTimestamp st) (frames st) (uhdFeedback st)))
  else Ok st.

(** [noByteDelay]: the static delay in bytes. *)
Definition noByteDelay (c : OutputUHDConfig) : Z :=
  let noSampleDelay :=
    uint32 (Z.quot (staticDelayUs c * Z.quot (sampleRate c) 1000) 1000) in
  uint32 (noSampleDelay * sizeof_complexf).

(** The frame handed to the worker and the delay buffer afterwards;
    [None] when a copy would leave one of the buffers. *)
Definition delay_frame (c : OutputUHDConfig) (myDelayBuf dataIn : list byte)
  : option (list byte * list byte) :=
  let d := Z.to_nat (noByteDelay c) in
  if negb (noByteDelay c =? 0) then
    if Nat.leb d (length dataIn) && Nat.leb d (length myDelayBuf) then
      Some (firstn d myDelayBuf ++ firstn (length dataIn - d) dataIn,
            skipn (length dataIn - d) dataIn ++ skipn d myDelayBuf)
    else None
  else Some (dataIn, myDelayBuf).

Section Process.

Context {TA : TimestampArith}.

(** The steady-state branch of [process], from the length test on; it
    returns [dataIn->getLength()] as an [int]. *)
Definition process_frame (env : process_env) (st : uhd)
    (dataIn : list byte) : process_outcome :=
  let len := Z.of_nat (length dataIn) in
  if negb (lastLen st =? len) then
    ProcessThrown st (runtime_error "Non-constant input length!")
  else
    let contains :=
      enableSync (myConf st) && eti_sourceContainsTimestamp env in
    let still_running :=
      if gpsfix_needs_check (myConf st) then
        match check_gps_result env with
        | Throw _ => false
        | Ok _ => running st
        end
      else running st in
    match delay_frame (myConf st) (myDelayBuf st) dataIn with
    | None => ProcessUndefined
    | Some (frame_buf, delayBuf) =>
        let frame := mk_frame frame_buf (eti_timestamp env) in
        let st1 (r fr : bool) (q : list UHDWorkerFrameData)
            (fb : OutputUHDFeedback.feedback) :=
          mk_uhd (myConf st) (myTFDurationMs st) delayBuf
            (gps_fix_verified st) fr r (lastLen st) contains q fb in
        if negb (still_running && worker_running env) then
          ProcessThrown (st1 false true (frames st) (uhdFeedback st))
            (runtime_error "UHD worker failed")
        else if fct (ts frame) =? -1 then
          (* dropping one frame with invalid FCT *)
          ProcessReturned
            (st1 true (first_run st) (frames st) (uhdFeedback st))
            (int32 len)
        else
          let pushed (fb : OutputUHDFeedback.feedback) :=
            match ThreadsafeQueue.push_wait_if_full (frames st) frame
                    FRAMES_MAX_SIZE with
            | Some q =>
                ProcessReturned (st1 true (first_run st) q fb) (int32 len)
            | None =>
                ProcessWaiting
                  (st1 true (first_run st) (frames st) fb) frame
            end in
          match OutputUHDFeedback.set_tx_frame (uhdFeedback st)
                  (buf frame) (ts frame) with
          | Ok fb => pushed fb
          | Throw (runtime_error _) =>
              (* Feedback server failed, restarting... *)
              pushed (OutputUHDFeedback.make
                        (dpdFeedbackServerPort (myConf st))
                        (sampleRate (myConf st)))
          | Throw e =>
              ProcessThrown
                (st1 true (first_run st) (frames st) (uhdFeedback st)) e
          end
    end.

(** [OutputUHD::process]; it returns [dataIn->getLength()] as an
    [int]. *)
Definition process (env : process_env) (st : uhd) (dataIn : list byte)
  : process_outcome :=
  let len := Z.of_nat (length dataIn) in
  if negb (gps_fix_verified st) then
    if gpsfix_needs_check (myConf st) then
      match initial_gps_check_result env with
      | Throw e => ProcessThrown st e
      | Ok num_checks_without_gps_fix =>
          if num_checks_without_gps_fix =? 0
          then verify_gps_fix env st (int32 len)
          else ProcessReturned st (int32 len)
      end
    else verify_gps_fix env st (int32 len)
  else
    match initialise env st len with
    | Throw e => ProcessThrown st e
    | Ok st => process_frame env st dataIn
    end.

(** The queue after a call, whatever its outcome; a call that does
    not leave a state leaves the queue alone. *)
Definition frames_after (st : uhd) (o : process_outcome)
  : list UHDWorkerFrameData :=
  match o with
  | ProcessReturned st' _ => frames st'
  | ProcessThrown st' _ => frames st'
  | ProcessWaiting st' _ => frames st'
  | ProcessUndefined => frames st
  end.

End Process.

(** *** Messages of the driver *)

(** [std::isspace] in the "C" locale: the space and the characters
    from horizontal tab (9) to carriage return (13). *)
Definition isspace (c : Ascii.ascii) : bool :=
  let n := Ascii.N_of_ascii c in
  (N.eqb n 32 || (N.leb 9 n && N.leb n 13))%bool.

(** [std::find_if_not(first, last, isspace)]: the range from the first
    character on that is not a space. *)
Fixpoint find_if_not_space (l : list Ascii.ascii) : list Ascii.ascii :=
  match l with
  | [] => []
  | c :: l' => if isspace c then find_if_not_space l' else l
  end.

(** [stringtrim], on the characters: [wsfront] is where the first search
    stops; the second search runs backwards from the end down to
    [wsfront]. *)
Definition trim (l : list Ascii.ascii) : list Ascii.ascii :=
  let wsfront := find_if_not_space l in
  rev (find_if_not_space (rev wsfront)).

Definition stringtrim (s : string) : string :=
  string_of_list_ascii (trim (list_ascii_of_string s)).

(** [uhd::msg::type_t] and the levels of the log. *)
Inductive msg_type_t : Type := msg_status | msg_warning | msg_error | msg_fastpath.

Inductive log_level_t : Type := log_debug | log_warn | log_error.

(** [uhd_msg_handler]: the line logged, if any. *)
Definition uhd_msg_handler (type : msg_type_t) (msg : string)
  : option (log_level_t * string) :=
  match type with
  | msg_warning => Some (log_warn, "UHD Warning: " ++ msg)
  | msg_error => Some (log_error, "UHD Error: " ++ msg)
  | _ =>
      (* do not print very short U messages and such *)
      if negb (Nat.eqb (String.length (stringtrim msg)) 1)
      then Some (log_debug, "UHD Message: " ++ msg)
      else None
  end%string.

(** *** The samples a frame's chunks carry *)

Definition num_tx_samps_of (e : event) : Z :=
  match e with
  | Send _ _ _ _ _ num_tx_samps => num_tx_samps
  | Usleep _ => 0
  end.

(** The samples the driver took over a whole trace. *)
Definition total_sent (evs : list event) : Z :=
  fold_right (fun e acc => num_tx_samps_of e + acc) 0 evs.

(** The chunks of a trace follow one another in the frame from
    [offset] on, each starting where the samples taken so far end, and
    none reaches beyond [sizeIn] samples. *)
Fixpoint chunks_within (sizeIn offset : Z) (evs : list event) : Prop :=
  match evs with
  | [] => True
  | Send off samps_to_send _ _ _ num_tx_samps :: rest =>
      off = offset /\ 0 <= samps_to_send /\ off + samps_to_send <= sizeIn
      /\ chunks_within sizeIn (offset + num_tx_samps) rest
  | Usleep _ :: _ => False
  end.

(** *** Reading the remote-control parameters *)

(** What [get_parameter] puts on its [stringstream], by type. *)
Inductive shown : Type :=
| ShownDouble (x : Q)
| ShownBool (b : bool)
| ShownNumber (n : Z).

(** [OutputUHD::get_parameter]: [ctr] and [frames] are the counters of
    the other threads as the call reads them. *)
Definition get_parameter (c : OutputUHDConfig) (ctr : counters)
    (frames : Z) (parameter : string) : result shown :=
  if String.eqb parameter "txgain" then Ok (ShownDouble (txgain c))
  else if String.eqb parameter "rxgain" then Ok (ShownDouble (rxgain c))
  else if String.eqb parameter "freq" then Ok (ShownDouble (frequency c))
  else if String.eqb parameter "muting" then Ok (ShownBool (muting c))
  else if String.eqb parameter "staticdelay" then
    Ok (ShownNumber (staticDelayUs c))
  else if String.eqb parameter "underruns" then
    Ok (ShownNumber (num_underflows ctr))
  else if String.eqb parameter "latepackets" then
    Ok (ShownNumber (num_late_packets ctr))
  else if String.eqb parameter "frames" then Ok (ShownNumber frames)
  else
    Throw (ParameterError
             ("Parameter '" ++ parameter ++
              "' is not exported by controllable uhd")).

(** *** The clock supervisor *)

(** [ss << n] for an [int]. *)
Definition string_of_seconds (n : Z) : string :=
  DecimalString.NilZero.string_of_int (Z.to_int n).

(** The members [check_gps] works on: the second of the last check,
    whether the task that reads the sensor is joinable, and the number
    of checks without a fix. *)
Record gps_state : Type := mk_gps_state {
  last_gps_fix_check : Z;          (* tv_sec *)
  gps_fix_task_joinable : bool;
  num_checks_without_gps_fix : Z
}.

(** What one call of [check_gps] observes: the monotonic clock ([None]:
    [clock_gettime] fails), the text of [strerror(errno)] and the future
    of the sensor task ([None]: no value yet). *)
Record gps_env : Type := mk_gps_env {
  clock_monotonic : option Z;
  strerror_errno : string;
  gps_fix_future : option bool
}.

Section ClockSupervisor.

(** [gps_fix_check_interval] is defined in the absent [OutputUHD.h]. *)
Variable gps_fix_check_interval : Z.

(** [OutputUHD::check_gps]: the members afterwards and the exception,
    if the call throws. *)
Definition check_gps (c : OutputUHDConfig) (st : gps_state) (env : gps_env)
  : gps_state * option exn :=
  match clock_monotonic env with
  | None =>
      (st, Some (runtime_error
                   ("clock_gettime failure: " ++ strerror_errno env)))
  | Some time_now =>
      if gpsfix_needs_check c
         && (if Qlt_le_dec (inject_Z (last_gps_fix_check st)
                            + inject_Z gps_fix_check_interval / 2)
                           (inject_Z time_now)
             then true else false)
      then
        if gps_fix_task_joinable st then
          match gps_fix_future env with
          | Some has_fix =>
              let n :=
                if has_fix then 0
                else int32 (num_checks_without_gps_fix st + 1) in
              (mk_gps_state time_now false n,
               if int32 (gps_fix_check_interval * n)
                  >? maxGPSHoldoverTime c
               then Some (runtime_error
                            ("Lost GPS Time Lock for " ++
                             string_of_seconds
                               (int32 (gps_fix_check_interval * n))
                             ++ " seconds"))
               else None)
          | None => (mk_gps_state time_now true
                       (num_checks_without_gps_fix st), None)
          end
        else
          (* the sensor is read in a thread of its own *)
          (mk_gps_state time_now true (num_checks_without_gps_fix st), None)
      else (st, None)
  end.

End ClockSupervisor.

End OutputUHD.

(** ** Instances on which the model runs *)

Module Standin.

(** Rationals in the place of single precision: exact sums and products,
    a square root rounded down, rounding to the nearest integer, and
    four-byte little-endian integers as the stored form. *)
Definition q_hypot (a b : Q) : Q :=
  let s := (a * a + b * b)%Q in
  Qmake (Z.sqrt (Qnum s * Zpos (Qden s))) (Qden s).

Definition q_lrint (q : Q) : Z :=
  (2 * Qnum q + Zpos (Qden q)) / (2 * Zpos (Qden q)).

Definition q_decode (data : list byte) : Q :=
  inject_Z (fold_right (fun b acc => Z.of_N (Byte.to_N b) + 256 * acc) 0 data).

Definition byte_of_Z (z : Z) : byte :=
  match Byte.of_N (Z.to_N (z mod 256)) with
  | Some b => b
  | None => x00
  end.

Definition q_encode (q : Q) : list byte :=
  let z := uint32 (q_lrint q) in
  map (fun i => byte_of_Z (z / 256 ^ i)) [0; 1; 2; 3].

Definition rationals : FloatOps Q :=
  Build_FloatOps Q (fun q => q) Qplus Qminus Qmult q_hypot q_lrint
    q_decode q_encode.

(** Modelled from the spec: [frame_timestamp::operator+=] of the absent
    [TimestampDecoder.h]. Adding a duration advances the stamp by its
    number of ticks of 1/16 384 000 s, carrying into seconds. *)
Definition add_seconds (t : frame_timestamp) (diff : Q) : frame_timestamp :=
  let ticks := Qfloor (diff * inject_Z 16384000) in
  let total := timestamp_sec t * 16384000 + timestamp_pps t + ticks in
  mk_frame_timestamp (fct t) (uint32 (total / 16384000))
    (total mod 16384000) (timestamp_valid t) (timestamp_refresh t).

Definition ticks_arith : TimestampArith := Build_TimestampArith add_seconds.

(** Rounding to the nearest number with a significand of 53 bits, ties
    to even: the rounding of IEEE 754 double precision for the numbers
    whose magnitude is that of a normal double. [e] is the exponent of
    [q], that is [2 ^ e <= |q| < 2 ^ (e + 1)], and [m] the significand
    of the result, an integer of [2 ^ 52, 2 ^ 53]. *)
Definition round_binary64 (q : Q) : Q :=
  let n := Z.abs (Qnum q) in
  let d := Z.pos (Qden q) in
  if n =? 0 then 0%Q
  else
    let e0 := Z.log2 n - Z.log2 d in
    let reaches (e : Z) :=
      if 0 <=? e then d * 2 ^ e <=? n else d <=? n * 2 ^ (- e) in
    let e := if reaches e0 then e0 else e0 - 1 in
    let num := if 0 <=? 52 - e then n * 2 ^ (52 - e) else n in
    let den := if 0 <=? 52 - e then d else d * 2 ^ (e - 52) in
    let f := num / den in
    let r := num mod den in
    let m :=
      if 2 * r <? den then f
      else if den <? 2 * r then f + 1
      else if Z.even f then f else f + 1 in
    let magnitude :=
      if 0 <=? e - 52 then inject_Z (m * 2 ^ (e - 52))
      else Qred (Qmake m (Z.to_pos (2 ^ (52 - e)))) in
    if Qnum q <? 0 then Qopp magnitude else magnitude.

Definition binary64 : DoubleArith := Build_DoubleArith round_binary64.

End Standin.

(** * Proofs *)

Lemma uint32_range z : 0 <= uint32 z < 2 ^ 32.
Proof. unfold uint32. apply Z.mod_pos_bound. lia. Qed.

Lemma uint64_range z : 0 <= uint64 z < 2 ^ 64.
Proof. unfold uint64. apply Z.mod_pos_bound. lia. Qed.

Lemma uint32_small z : 0 <= z < 2 ^ 32 -> uint32 z = z.
Proof. intros H. unfold uint32. now apply Z.mod_small. Qed.

Lemma uint64_small z : 0 <= z < 2 ^ 64 -> uint64 z = z.
Proof. intros H. unfold uint64. now apply Z.mod_small. Qed.


(** ** Timestamp arithmetic *)











(** ** The lookup-table predistorter *)

Section LookupTable.

Context {F : Type} {FO : FloatOps F}.

Lemma store_length {A : Type} (l l' : list A) i v :
  MemlessPoly.store l i v = Some l' -> length l' = length l.
Proof.
  unfold MemlessPoly.store. destruct (Nat.ltb i (length l)) eqn:E; [|discriminate].
  apply Nat.ltb_lt in E. intros H.
  assert (Hl : l' = firstn i l ++ v :: skipn (S i) l) by congruence.
  rewrite Hl, length_app, length_firstn.
  change (length (v :: skipn (S i) l)) with (S (length (skipn (S i) l))).
  rewrite length_skipn. lia.
Qed.

(** A loop over indices inside both arrays, with a body that never
    fails, runs to its end. *)
Lemma for_range_total (f : (MemlessPoly.complexf F) -> option (MemlessPoly.complexf F))
    (in_ : list (MemlessPoly.complexf F)) count :
  (forall x, exists y, f x = Some y) ->
  forall start out,
    (start + count <= length in_)%nat -> (start + count <= length out)%nat ->
    exists out',
      MemlessPoly.for_range f in_ start count out = Some out'
      /\ length out' = length out.
Proof.
  intros Hf. induction count as [|count IH]; intros start out Hin Hout.
  - exists out. split; reflexivity.
  - cbn [MemlessPoly.for_range].
    destruct (nth_error in_ start) as [x|] eqn:Ex.
    2:{ apply nth_error_None in Ex. lia. }
    destruct (Hf x) as [y Hy]. rewrite Hy.
    destruct (MemlessPoly.store out start y) as [out1|] eqn:Es.
    2:{ unfold MemlessPoly.store in Es.
        destruct (Nat.ltb start (length out)) eqn:E; [discriminate|].
        apply Nat.ltb_ge in E. lia. }
    pose proof (store_length _ _ _ _ Es) as Hlen.
    destruct (IH (S start) out1) as [out' [H1 H2]]; try lia.
    exists out'. split; [exact H1 | lia].
Qed.

Lemma lut_ix_bound (scalefactor : F) (x : (MemlessPoly.complexf F)) :
  MemlessPoly.lut_ix scalefactor x
  = Z.shiftr (MemlessPoly.scaled_in scalefactor x) 27
  /\ 0 <= MemlessPoly.lut_ix scalefactor x <= 31.
Proof.
  unfold MemlessPoly.lut_ix, MemlessPoly.scaled_in.
  set (v := f_lrint _).
  pose proof (uint32_range v) as Hv.
  assert (Hs : 0 <= Z.shiftr (uint32 v) 27 <= 31).
  { rewrite Z.shiftr_div_pow2 by lia. split.
    - apply Z.div_pos; lia.
    - apply Z.lt_succ_r. apply Z.div_lt_upper_bound; lia. }
  unfold uint8. rewrite Z.mod_small by lia. split; [reflexivity | exact Hs].
Qed.

(** C10. Whatever the sample and the scale factor, the bin index, the
    32-bit scaled magnitude shifted right by 27 bits, is at most 31; so
    the read of a table of 32 entries is inside the table, and
    [apply_lut] over a range inside its buffers runs to its end without
    an access outside the table. *)
Theorem lut_index_within_table (lut : list (MemlessPoly.complexf F))
    (scalefactor : F) :
  length lut = MemlessPoly.lut_entries ->
  (forall x,
      MemlessPoly.lut_ix scalefactor x
      = Z.shiftr (MemlessPoly.scaled_in scalefactor x) 27
      /\ 0 <= MemlessPoly.lut_ix scalefactor x <= 31
      /\ exists c,
           nth_error lut (Z.to_nat (MemlessPoly.lut_ix scalefactor x)) = Some c
           /\ MemlessPoly.lut_sample lut scalefactor x
              = Some (MemlessPoly.c_mul x c))
  /\ (forall in_ start stop out,
         (stop <= length in_)%nat -> (stop <= length out)%nat ->
         exists out',
           MemlessPoly.apply_lut lut scalefactor in_ start stop out = Some out').
Proof.
  intros Hlen.
  assert (Hsample : forall x,
             exists c,
               nth_error lut (Z.to_nat (MemlessPoly.lut_ix scalefactor x))
               = Some c
               /\ MemlessPoly.lut_sample lut scalefactor x
                  = Some (MemlessPoly.c_mul x c)).
  { intros x. destruct (lut_ix_bound scalefactor x) as [_ Hb].
    unfold MemlessPoly.lut_sample.
    destruct (nth_error lut (Z.to_nat (MemlessPoly.lut_ix scalefactor x)))
      as [c|] eqn:E.
    - exists c. split; reflexivity.
    - apply nth_error_None in E. rewrite Hlen in E.
      unfold MemlessPoly.lut_entries in E. lia. }
  split.
  - intros x. destruct (lut_ix_bound scalefactor x) as [He Hb].
    split; [exact He|]. split; [exact Hb|]. apply Hsample.
  - intros in_ start stop out Hin Hout. unfold MemlessPoly.apply_lut.
    assert (Hf : forall x, exists y,
                 MemlessPoly.lut_sample lut scalefactor x = Some y).
    { intros x. destruct (Hsample x) as [c [_ Hc]]. eauto. }
    destruct (Nat.le_gt_cases start stop) as [Hle|Hgt].
    + destruct (for_range_total _ in_ (stop - start) Hf start out)
        as [out' [H _]]; try lia.
      exists out'. exact H.
    + replace (stop - start)%nat with 0%nat by lia.
      exists out. reflexivity.
Qed.

End LookupTable.

(** A table of 32 ones and the largest 32-bit magnitude. *)
Lemma lut_index_within_table_witness :
  0 <= MemlessPoly.lut_ix (FO := Standin.rationals) (4294967295 # 1) (1, 0)%Q
    <= 31.
Proof.
  exact (proj1 (proj2 (proj1
           (lut_index_within_table (FO := Standin.rationals)
              (repeat (1, 0)%Q 32) (4294967295 # 1) eq_refl)
           (1, 0)%Q))).
Defined.

(** ** The pass-through of the predistorter *)

(** Without valid settings, [internal_process] gives the output buffer
    the length of the input and copies as many bytes as the buffer has
    samples: [sizeOut] counts samples, [memcpy] counts bytes. *)
Lemma internal_process_invalid {F : Type} {FO : FloatOps F}
    (st : MemlessPoly.dpd_state F) num_threads fresh dataIn dataOut :
  MemlessPoly.m_dpd_settings_valid st = false ->
  MemlessPoly.internal_process st num_threads fresh dataIn dataOut
  = Some (firstn (length dataIn / 8) dataIn
          ++ skipn (length dataIn / 8)
               (MemlessPoly.setLength fresh dataOut (length dataIn)),
          int32 (Z.of_nat (length dataIn))).
Proof.
  intros Hv. unfold MemlessPoly.internal_process. rewrite Hv.
  assert (Hlen : length (MemlessPoly.setLength fresh dataOut (length dataIn))
                 = length dataIn).
  { unfold MemlessPoly.setLength.
    rewrite length_app, length_firstn, length_map, length_seq. lia. }
  rewrite Hlen. f_equal. f_equal. f_equal. f_equal.
  rewrite length_app, length_firstn, length_skipn, Hlen.
  assert (length dataIn / 8 <= length dataIn)%nat
    by (apply Nat.Div0.div_le_upper_bound; lia).
  lia.
Qed.

(** C2 fails on the code. A predistorter that never loaded coefficients
    is handed a frame of two samples (sixteen bytes) and an output
    buffer of sixteen zero bytes: the output has the length of the
    input, but only its first two bytes are the input's. *)
Theorem passthrough_copies_one_byte_per_sample :
  let st :=
    MemlessPoly.mk_dpd_state MemlessPoly.odd_only_poly [] [] 0%Q
      (repeat (0, 0)%Q 32) false "" in
  let dataIn :=
    [x01; x02; x03; x04; x05; x06; x07; x08;
     x09; x0a; x0b; x0c; x0d; x0e; x0f; x10] in
  let r :=
    MemlessPoly.internal_process (FO := Standin.rationals) st 0
      (fun _ => x00) dataIn (repeat x00 16) in
  r = Some ([x01; x02; x00; x00; x00; x00; x00; x00;
             x00; x00; x00; x00; x00; x00; x00; x00], 16)
  /\ r <> Some (dataIn, 16).
Proof.
  cbv zeta. split; [vm_compute; reflexivity|].
  vm_compute. discriminate.
Qed.

(** ** Loading coefficients *)

Section CoefficientFile.

Context {F : Type} {FO : FloatOps F}.

(** A polynomial file whose coefficients parse but are fewer than the
    loop wants ends the loop with an exception. *)
Lemma read_poly_coefs_premature_eof (u : MemlessPoly.uninitialised F) count :
  forall (ws : list (MemlessPoly.word F)) trailing e acc,
    Forall (fun w => MemlessPoly.as_float w <> None) ws ->
    (length ws < count)%nat ->
    MemlessPoly.read_poly_coefs u count
      (MemlessPoly.mk_ifstream ws trailing false e) acc
    = Throw (runtime_error "MemlessPoly: coefs file invalid !").
Proof.
  induction count as [|count IH]; intros ws trailing e acc Hall Hlen;
    [inversion Hlen|].
  cbn [MemlessPoly.read_poly_coefs]. unfold MemlessPoly.extract.
  cbn [MemlessPoly.failbit MemlessPoly.eofbit MemlessPoly.words
       MemlessPoly.trailing orb].
  destruct e; [reflexivity|].
  destruct ws as [|w rest]; [reflexivity|].
  inversion Hall as [|? ? Hw Hrest]; subst.
  destruct (MemlessPoly.as_float w) as [a|]; [|congruence].
  cbn [MemlessPoly.eofbit].
  destruct rest as [|w' rest'].
  - destruct trailing; cbn [negb]; [|reflexivity].
    apply IH; [constructor | cbn in *; lia].
  - apply IH; [assumption | cbn in *; lia].
Qed.

(** The loop of the polynomial format throws nothing but its own
    runtime error. *)
Lemma read_poly_coefs_throws (u : MemlessPoly.uninitialised F) count :
  forall s acc e,
    MemlessPoly.read_poly_coefs u count s acc = Throw e ->
    e = runtime_error "MemlessPoly: coefs file invalid !".
Proof.
  induction count as [|count IH]; intros s acc e H; [discriminate|].
  cbn [MemlessPoly.read_poly_coefs] in H.
  destruct (MemlessPoly.extract MemlessPoly.as_float
              MemlessPoly.stored_float s) as [x s'].
  destruct (MemlessPoly.eofbit s'); [congruence|].
  exact (IH _ _ _ H).
Qed.

(** A load that ends with an exception has changed no member, and the
    exception is a runtime error. *)
Lemma load_coefficients_throws (u : MemlessPoly.uninitialised F)
    (st st' : MemlessPoly.dpd_state F) file e :
  MemlessPoly.load_coefficients u st file = (st', Some e) ->
  st' = st /\ exists what, e = runtime_error what.
Proof.
  unfold MemlessPoly.load_coefficients.
  destruct file as [s|].
  2:{ intros H. injection H as <- <-. split; [reflexivity | eexists; reflexivity]. }
  destruct (MemlessPoly.extract MemlessPoly.as_uint32
              MemlessPoly.stored_uint32 s) as [x1 s1].
  destruct (_ =? 1).
  - destruct (MemlessPoly.extract MemlessPoly.as_int
                MemlessPoly.stored_int s1) as [x2 s2].
    destruct (_ <=? 0).
    { intros H. injection H as <- <-.
      split; [reflexivity | eexists; reflexivity]. }
    destruct (negb _).
    { intros H. injection H as <- <-.
      split; [reflexivity | eexists; reflexivity]. }
    destruct (MemlessPoly.read_poly_coefs u _ s2 []) as [l|e'] eqn:Hr.
    + discriminate.
    + intros H. injection H as <- <-.
      apply read_poly_coefs_throws in Hr.
      split; [reflexivity | eexists; exact Hr].
  - destruct (_ =? 2).
    + destruct (MemlessPoly.extract MemlessPoly.as_float
                  MemlessPoly.stored_float s1) as [x2 s2].
      discriminate.
    + discriminate.
Qed.

(** C5 (amended). A load through the [coeffile] parameter that ends
    with an exception leaves every member of the predistorter as it
    was, and the exception is a parameter error. The loads that end so
    include those of a file that cannot be opened, of a polynomial file
    that names a number of coefficients other than five, and of a
    polynomial file, all of whose words are numbers, that ends before
    its tenth coefficient. A load of a file that starts with an unknown
    format indicator does not end so: it keeps the coefficients but
    switches the predistorter off, records the file name and reports no
    error. *)
Theorem coeffile_load_failure (u : MemlessPoly.uninitialised F)
    (open : string -> option (MemlessPoly.ifstream F))
    (st : MemlessPoly.dpd_state F) (value : string) :
  (forall e,
      snd (MemlessPoly.set_parameter u open st "coeffile" value) = Some e ->
      fst (MemlessPoly.set_parameter u open st "coeffile" value) = st
      /\ exists what, e = ParameterError what)
  /\ (MemlessPoly.rejected_file (open value) ->
      exists what,
        MemlessPoly.set_parameter u open st "coeffile" value
        = (st, Some (ParameterError what)))
  /\ (MemlessPoly.unknown_format_file (open value) ->
      MemlessPoly.set_parameter u open st "coeffile" value
      = (MemlessPoly.mk_dpd_state
           (MemlessPoly.m_dpd_type st)
           (MemlessPoly.m_coefs_am st) (MemlessPoly.m_coefs_pm st)
           (MemlessPoly.m_lut_scalefactor st) (MemlessPoly.m_lut st)
           false value,
         None)).
Proof.
  split; [|split]; unfold MemlessPoly.set_parameter;
    change (String.eqb "coeffile" "ncoefs") with false;
    change (String.eqb "coeffile" "coeffile") with true; cbv iota.
  - intros e.
    destruct (MemlessPoly.load_coefficients u st (open value))
      as [st' [e'|]] eqn:Hl; [|discriminate].
    destruct (load_coefficients_throws _ _ _ _ _ Hl) as [-> [what ->]].
    cbn [fst snd]. intros H. injection H as <-.
    split; [reflexivity | eexists; reflexivity].
  - intros H.
    inversion H as [Ho | w1 w2 rest trailing n H1 H2 Hn Ho
                       | w1 w2 coefs trailing H1 H2 Hall Hlen Ho].
    + eexists. reflexivity.
    + unfold MemlessPoly.load_coefficients, MemlessPoly.extract.
      cbn [MemlessPoly.failbit MemlessPoly.eofbit MemlessPoly.words
           MemlessPoly.trailing orb MemlessPoly.stored].
      rewrite H1.
      cbn [MemlessPoly.failbit MemlessPoly.eofbit MemlessPoly.words
           MemlessPoly.trailing orb MemlessPoly.stored Z.eqb Pos.eqb].
      rewrite H2. cbn [MemlessPoly.stored].
      destruct (n <=? 0); [eexists; reflexivity|].
      destruct (n =? MemlessPoly.NUM_COEFS) eqn:E; [lia|].
      cbn [negb]. eexists. reflexivity.
    + unfold MemlessPoly.load_coefficients, MemlessPoly.extract.
      cbn [MemlessPoly.failbit MemlessPoly.eofbit MemlessPoly.words
           MemlessPoly.trailing orb MemlessPoly.stored].
      rewrite H1.
      cbn [MemlessPoly.failbit MemlessPoly.eofbit MemlessPoly.words
           MemlessPoly.trailing orb MemlessPoly.stored Z.eqb Pos.eqb].
      rewrite H2. cbn [MemlessPoly.stored].
      change (MemlessPoly.NUM_COEFS <=? 0) with false.
      change (MemlessPoly.NUM_COEFS =? MemlessPoly.NUM_COEFS) with true.
      cbn [negb].
      change (Z.to_nat (2 * MemlessPoly.NUM_COEFS)) with 10%nat.
      rewrite read_poly_coefs_premature_eof by assumption.
      eexists. reflexivity.
  - intros H. inversion H as [w rest trailing H1 H2 Ho].
    unfold MemlessPoly.value_read in H1, H2.
    unfold MemlessPoly.load_coefficients, MemlessPoly.extract.
    cbn [MemlessPoly.failbit MemlessPoly.eofbit MemlessPoly.words
         MemlessPoly.trailing orb MemlessPoly.stored].
    destruct (MemlessPoly.as_uint32 w) as [k|] eqn:Ek;
      cbn [MemlessPoly.stored].
    + destruct (k =? 1) eqn:E1; [apply Z.eqb_eq in E1; congruence|].
      destruct (k =? 2) eqn:E2; [apply Z.eqb_eq in E2; congruence|].
      reflexivity.
    + destruct (MemlessPoly.stored_uint32 w =? 1) eqn:E1;
        [apply Z.eqb_eq in E1; congruence|].
      destruct (MemlessPoly.stored_uint32 w =? 2) eqn:E2;
        [apply Z.eqb_eq in E2; congruence|].
      reflexivity.
Qed.

End CoefficientFile.

(** C5, as stated, fails: with polynomial coefficients active, the load
    of a file that starts with the word 3 returns without an error and
    leaves the predistorter switched off. *)
Lemma coeffile_unknown_format_switches_dpd_off :
  let st :=
    MemlessPoly.mk_dpd_state MemlessPoly.odd_only_poly
      [1; 0; 0; 0; 0]%Q [0; 0; 0; 0; 0]%Q 0%Q (repeat (0, 0)%Q 32)
      true "poly.coef" in
  let file :=
    MemlessPoly.mk_ifstream
      [MemlessPoly.mk_word (Some 3) (Some 3) (Some 3%Q) 0 0 0%Q false]
      true false false in
  let r :=
    MemlessPoly.set_parameter (FO := Standin.rationals)
      (MemlessPoly.mk_uninitialised 0 0 (fun _ => 0%Q) 0%Q (fun _ => 0%Q))
      (fun _ => Some file) st "coeffile" "other.coef" in
  MemlessPoly.m_dpd_settings_valid st = true
  /\ MemlessPoly.m_dpd_settings_valid (fst r) = false
  /\ is_ParameterError (snd r) = false.
Proof. cbv zeta. repeat split. Qed.

(** Nor does every polynomial file that ends early end the load with
    an exception: the file [1 5 1 2 x], where [x] is not a number, is
    loaded. The extraction of [x] fails without reaching the end of the
    file, so the test for the end never holds; the third coefficient is
    what the failed extraction stored and the seven after it are what
    the uninitialised local held at each turn. *)
Lemma polynomial_file_cut_short_after_a_bad_word_is_loaded :
  let st :=
    MemlessPoly.mk_dpd_state MemlessPoly.lookup_table
      [] [] 0%Q (repeat (0, 0)%Q 32) false "" in
  let num (z : Z) :=
    MemlessPoly.mk_word (Some z) (Some z) (Some (inject_Z z)) 0 0 0%Q false in
  let x := MemlessPoly.mk_word None None None 0 0 0%Q false in
  let file :=
    MemlessPoly.mk_ifstream [num 1; num 5; num 1; num 2; x]
      true false false in
  let u :=
    MemlessPoly.mk_uninitialised 7 7 (fun n => inject_Z (Z.of_nat n)) 7%Q
      (fun _ => 7%Q) in
  MemlessPoly.load_coefficients (FO := Standin.rationals) u st (Some file)
  = (MemlessPoly.mk_dpd_state MemlessPoly.odd_only_poly
       (map inject_Z [1; 2; 0; 3; 4]) (map inject_Z [5; 6; 7; 8; 9])
       0%Q (repeat (0, 0)%Q 32) true "",
     None).
Proof. cbv zeta. vm_compute. reflexivity. Qed.

(** A polynomial file with three of its ten coefficients, and a file
    that starts with the word 3. *)
Lemma coeffile_load_failure_witness :
  let st :=
    MemlessPoly.mk_dpd_state MemlessPoly.odd_only_poly
      [1; 0; 0; 0; 0]%Q [0; 0; 0; 0; 0]%Q 0%Q (repeat (0, 0)%Q 32)
      true "poly.coef" in
  let num (z : Z) :=
    MemlessPoly.mk_word (Some z) (Some z) (Some (inject_Z z)) 0 0 0%Q false in
  let short :=
    MemlessPoly.mk_ifstream [num 1; num 5; num 1; num 0; num 0]
      true false false in
  let unknown := MemlessPoly.mk_ifstream [num 3] true false false in
  let u :=
    MemlessPoly.mk_uninitialised 0 0 (fun _ => 0%Q) 0%Q (fun _ => 0%Q) in
  (exists what,
      MemlessPoly.set_parameter (FO := Standin.rationals) u
        (fun _ => Some short) st "coeffile" "short.coef"
      = (st, Some (ParameterError what)))
  /\ MemlessPoly.m_dpd_settings_valid
       (fst (MemlessPoly.set_parameter (FO := Standin.rationals) u
               (fun _ => Some unknown) st "coeffile" "other.coef"))
     = false.
Proof.
  cbv zeta. split.
  - apply (proj1 (proj2 (coeffile_load_failure (FO := Standin.rationals)
                           _ (fun _ => Some _) _ "short.coef"))).
    apply MemlessPoly.premature_eof;
      [reflexivity | reflexivity | repeat constructor; discriminate
      | cbn; lia].
  - rewrite (proj2 (proj2 (coeffile_load_failure (FO := Standin.rationals)
                             _ (fun _ => Some _) _ "other.coef"))).
    + reflexivity.
    + constructor; discriminate.
Defined.

(** ** The static delay *)

Lemma transmission_frame_duration_range dabMode duration :
  OutputUHD.transmission_frame_duration_ms dabMode = Ok duration ->
  0 <= duration <= 96.
Proof.
  unfold OutputUHD.transmission_frame_duration_ms. intros H.
  repeat match type of H with
         | context [match ?x with _ => _ end] => destruct x
         end;
    try discriminate; injection H as <-; lia.
Qed.

Lemma int32_small z : - 2 ^ 31 <= z < 2 ^ 31 -> int32 z = z.
Proof. intros H. unfold int32. rewrite Z.mod_small; lia. Qed.

(** C4, as stated, fails in transmission mode 1 (96 000 microseconds):
    with a delay of 500 stored, setting 100 stores 600; setting 96 000
    on a delay of 0 stores 96 000, outside [0, 96000); setting 200 000
    stores 0 and not 200 000 mod 96 000; and setting -100 000 on a
    delay of 0 stores -4 000. *)
Lemma staticdelay_is_not_the_value_wrapped :
  let c (d : Z) :=
    OutputUHD.mk_config 2048000 1 true false false d "internal"
      OutputUHD.IGNORE 0 0 0 0 0 in
  let set (d v : Z) :=
    OutputUHD.staticDelayUs
      (fst (OutputUHD.set_parameter 0 96 (c d) "staticdelay"
              (OutputUHD.mk_rc_value false None None (Some v) 0 false))) in
  (set 500 100 = 600 /\ 600 <> 100 mod 96000)
  /\ (set 0 96000 = 96000 /\ ~ (0 <= 96000 < 96000))
  /\ (set 0 200000 = 0 /\ 0 <> 200000 mod 96000)
  /\ (set 0 (-100000) = -4000 /\ ~ (0 <= -4000 < 96000)).
Proof.
  cbv zeta. repeat split; try (vm_compute; congruence).
  - intros [_ H]. vm_compute in H. discriminate.
  - intros [H _]. vm_compute in H. apply H. reflexivity.
Qed.

(** C4 (amended). A set of [staticdelay] with value [v] does not store
    [v]. With [D] the frame duration in microseconds and [old] the
    stored delay: a [v] above [D] resets the delay to 0; any other [v]
    is added to the stored delay, the sum [n] is cut to an [int] (it is
    [old + v] whenever that fits an [int]), and [n] is brought back by
    one frame duration if it is above [D] or below 0. The delay
    afterwards is in [0, D], both ends included, exactly when [v] is
    above [D] or [n] is in [-D, 2 D]: it is whenever the stored delay
    was in [0, D] and [v] is at least [-D]. *)
Theorem staticdelay_adds_and_wraps tuned dabMode duration c value v :
  OutputUHD.transmission_frame_duration_ms dabMode = Ok duration ->
  OutputUHD.empty value = false ->
  OutputUHD.as_int64 value = Some v ->
  let D := duration * 1000 in
  let old := OutputUHD.staticDelayUs c in
  let n := int32 (old + v) in
  let new :=
    if v >? D then 0
    else if n >? D then n - D
    else if n <? 0 then n + D
    else n in
  OutputUHD.set_parameter tuned duration c "staticdelay" value
  = (OutputUHD.set_staticDelayUs c new, None)
  /\ (- 2 ^ 31 <= old + v < 2 ^ 31 -> n = old + v)
  /\ (0 <= new <= D <-> v > D \/ - D <= n <= 2 * D)
  /\ (0 <= old <= D -> - D <= v -> 0 <= new <= D).
Proof.
  intros Hd He Hv D old n new.
  apply transmission_frame_duration_range in Hd.
  assert (Hn : - 2 ^ 31 <= n < 2 ^ 31).
  { unfold n, int32.
    pose proof (Z.mod_pos_bound (old + v + 2 ^ 31) (2 ^ 32) ltac:(lia)).
    lia. }
  assert (Hrange : 0 <= new <= D <-> v > D \/ - D <= n <= 2 * D).
  { unfold new.
    destruct (v >? D) eqn:E1; [unfold D; lia|].
    destruct (n >? D) eqn:E2; [unfold D in *; lia|].
    destruct (n <? 0) eqn:E3; unfold D in *; lia. }
  split; [|split; [apply int32_small | split; [exact Hrange|]]].
  - unfold OutputUHD.set_parameter.
    change (String.eqb "staticdelay" "txgain") with false.
    change (String.eqb "staticdelay" "rxgain") with false.
    change (String.eqb "staticdelay" "freq") with false.
    change (String.eqb "staticdelay" "muting") with false.
    change (String.eqb "staticdelay" "staticdelay") with true.
    cbv iota. rewrite He, Hv.
    assert (Hnew : OutputUHD.set_staticdelay duration old v = new).
    { unfold OutputUHD.set_staticdelay, new. fold D. fold n.
      destruct (v >? D) eqn:E1; [reflexivity|].
      destruct (n >? D) eqn:E2;
        [apply int32_small; unfold D in *; lia|].
      destruct (n <? 0) eqn:E3;
        [apply int32_small; unfold D in *; lia|].
      reflexivity. }
    fold old. rewrite Hnew. reflexivity.
  - intros Hold Hlow. apply Hrange.
    destruct (Z_gt_le_dec v D) as [Hgt|Hle]; [left; exact Hgt|].
    right. unfold n. rewrite int32_small; unfold D in *; lia.
Qed.

(** Transmission mode 2 (24 000 microseconds), 23 000 stored, 2 000
    more: 1 000. *)
Lemma staticdelay_adds_and_wraps_witness :
  let c :=
    OutputUHD.mk_config 2048000 2 true false false 23000 "internal"
      OutputUHD.IGNORE 0 0 0 0 0 in
  OutputUHD.set_parameter 0 24 c "staticdelay"
    (OutputUHD.mk_rc_value false None None (Some 2000) 0 false)
  = (OutputUHD.set_staticDelayUs c 1000, None).
Proof.
  cbv zeta.
  exact (proj1 (staticdelay_adds_and_wraps 0 2 24 _
                  (OutputUHD.mk_rc_value false None None (Some 2000) 0 false)
                  2000 eq_refl eq_refl eq_refl)).
Defined.

(** ** Sending a frame *)

Lemma sizeIn_of_range frame :
  0 <= OutputUHD.sizeIn_of frame < 2 ^ 64.
Proof.
  unfold OutputUHD.sizeIn_of, sizeof_complexf.
  pose proof (uint64_range (Z.of_nat (length (OutputUHD.buf frame)))) as H.
  split; [apply Z.div_pos; lia|].
  apply Z.div_lt_upper_bound; lia.
Qed.

Section TxFrame.

Variable conf : OutputUHD.OutputUHDConfig.
Variable sct : bool.                  (* sourceContainsTimestamp *)
Variable env : OutputUHD.tx_env.
Variable md : OutputUHD.tx_metadata_t.
Variable frame : OutputUHD.UHDWorkerFrameData.
Variable ts_update : bool.


(** With a driver that reports no more samples than it was given, the
    loop ends within its fuel; the chunks follow one another inside the
    frame; and the loop goes on until the frame is exhausted, the driver
    takes nothing, or the thread is stopped or muted. *)
Lemma tx_loop_honest fuel :
  (forall i n, 0 <= n -> uint64 (OutputUHD.send_at env i n) <= n) ->
  forall i num_acc_samps,
    0 <= num_acc_samps ->
    (Z.to_nat (OutputUHD.sizeIn_of frame - num_acc_samps) < fuel)%nat ->
    exists evs,
      OutputUHD.tx_loop conf sct env md frame ts_update fuel i num_acc_samps
      = Some evs
      /\ OutputUHD.chunks_within (OutputUHD.sizeIn_of frame)
           num_acc_samps evs
      /\ 0 <= OutputUHD.total_sent evs
      /\ (num_acc_samps <= OutputUHD.sizeIn_of frame ->
          num_acc_samps + OutputUHD.total_sent evs
          <= OutputUHD.sizeIn_of frame)
      /\ (OutputUHD.sizeIn_of frame
          <= num_acc_samps + OutputUHD.total_sent evs
          \/ (exists evs' offset n has_ts time_spec eob,
                 evs = evs' ++ [OutputUHD.Send offset n has_ts time_spec
                                  eob 0])
          \/ OutputUHD.running_at env (i + length evs) = false
          \/ OutputUHD.muting_at env (i + length evs) = true).
Proof.
  intros Hhonest.
  pose proof (sizeIn_of_range frame) as Hsize.
  induction fuel as [|fuel IH]; intros i acc Hacc Hfuel; [lia|].
  cbn [OutputUHD.tx_loop]. cbv zeta.
  destruct (OutputUHD.running_at env i && negb (OutputUHD.muting_at env i)
            && (acc <? OutputUHD.sizeIn_of frame)) eqn:Hc.
  2:{ exists []. split; [reflexivity|].
      cbn [OutputUHD.chunks_within OutputUHD.total_sent fold_right length].
      rewrite Nat.add_0_r.
      repeat split; try lia.
      destruct (OutputUHD.running_at env i);
        [|right; right; left; reflexivity].
      destruct (OutputUHD.muting_at env i);
        [right; right; right; reflexivity|].
      cbn [negb andb] in Hc. apply Z.ltb_ge in Hc. left. lia. }
  apply andb_prop in Hc. destruct Hc as [_ Hlt]. apply Z.ltb_lt in Hlt.
  pose proof (uint64_range (OutputUHD.max_num_samps env)) as Hmax.
  set (n := Z.min (OutputUHD.sizeIn_of frame - acc)
                  (uint64 (OutputUHD.max_num_samps env))).
  assert (Hn : 0 <= n <= OutputUHD.sizeIn_of frame - acc)
    by (unfold n; lia).
  pose proof (Hhonest i n (proj1 Hn)) as Hsent.
  pose proof (uint64_range (OutputUHD.send_at env i n)) as Hsent0.
  rewrite (uint64_small (acc + uint64 (OutputUHD.send_at env i n)))
    by lia.
  destruct (uint64 (OutputUHD.send_at env i n) =? 0) eqn:Hz.
  - apply Z.eqb_eq in Hz. eexists. split; [reflexivity|].
    cbn [OutputUHD.chunks_within OutputUHD.total_sent fold_right
         OutputUHD.num_tx_samps_of].
    rewrite Hz.
    repeat split; try lia.
    right. left. exists []. repeat eexists.
  - apply Z.eqb_neq in Hz.
    destruct (IH (S i) (acc + uint64 (OutputUHD.send_at env i n)))
      as [rest (Hrest & Hw & Ht & Hs & Hstop)]; [lia | lia |].
    rewrite Hrest. eexists. split; [reflexivity|].
    cbn [OutputUHD.chunks_within OutputUHD.total_sent fold_right
         OutputUHD.num_tx_samps_of length].
    fold (OutputUHD.total_sent rest).
    repeat split; try lia; try assumption.
    destruct Hstop as [Hfull | [Hzero | Hstop]].
    + left. lia.
    + right. left.
      destruct Hzero as (evs' & offset & n' & has_ts & time_spec & eob & ->).
      eexists (_ :: evs'). repeat eexists.
    + right. right. rewrite <- Nat.add_succ_comm. exact Hstop.
Qed.


End TxFrame.



(** ** Muting and the frame counter *)

Section Mute.

Context {DA : DoubleArith}.

Variable TIMESTAMP_ABORT_FUTURE : Q.
Variable conf : OutputUHD.OutputUHDConfig.
Variable sct : bool.                  (* sourceContainsTimestamp *)

(** A frame without a valid time stamp, with [muteNoTimestamps] set, is
    slept through for 20 000 microseconds. *)
Lemma handle_frame_body_mute st frame env :
  timestamp_valid (OutputUHD.ts frame) = false ->
  OutputUHD.muteNoTimestamps conf = true ->
  OutputUHD.handle_frame_body TIMESTAMP_ABORT_FUTURE conf sct st frame env
  = (st, [OutputUHD.Usleep 20000], OutputUHD.Returned).
Proof.
  intros Hv Hm. unfold OutputUHD.handle_frame_body.
  destruct sct.
  - rewrite Hv. reflexivity.
  - rewrite Hm, orb_true_r. reflexivity.
Qed.

(** [handle_frame] leaves alone what belongs to the loop around it. *)
Lemma handle_frame_body_locals st frame env st1 evs o :
  OutputUHD.handle_frame_body TIMESTAMP_ABORT_FUTURE conf sct st frame env
  = (st1, evs, o) ->
  OutputUHD.last_num_underflows st1 = OutputUHD.last_num_underflows st
  /\ OutputUHD.num_frames_modulated st1 = OutputUHD.num_frames_modulated st.
Proof.
  unfold OutputUHD.handle_frame_body. cbv beta zeta. intros H.
  repeat match type of H with
         | context [match ?x with _ => _ end] => destruct x
         end;
    injection H as <- _ _; split; reflexivity.
Qed.

Lemma handle_frame_locals st frame env st1 evs o :
  OutputUHD.handle_frame TIMESTAMP_ABORT_FUTURE conf sct st frame env
  = (st1, evs, o) ->
  OutputUHD.last_num_underflows st1 = OutputUHD.last_num_underflows st
  /\ OutputUHD.num_frames_modulated st1 = OutputUHD.num_frames_modulated st.
Proof.
  unfold OutputUHD.handle_frame. intros H.
  destruct (OutputUHD.refclk_loss_needs_check conf st).
  - destruct (OutputUHD.ref_locked env) as [[|]|].
    + eapply handle_frame_body_locals; eassumption.
    + destruct (OutputUHD.refclk_lock_loss_behaviour conf).
      * injection H as <- _ _. split; reflexivity.
      * eapply handle_frame_body_locals; eassumption.
    + apply handle_frame_body_locals in H. exact H.
  - eapply handle_frame_body_locals; eassumption.
Qed.

(** C6 (amended). When a frame arrives without a valid time stamp and
    [muteNoTimestamps] is set, no samples are sent. Either the check of
    the reference clock ends the thread with an exception before
    anything else is done, or the transmit loop sleeps 20 000
    microseconds, whatever the transmission mode, and counts the frame:
    [num_frames_modulated] goes up by one. *)
Theorem mute_without_timestamp st frame env underflows_test underflows_save :
  timestamp_valid (OutputUHD.ts frame) = false ->
  OutputUHD.muteNoTimestamps conf = true ->
  (OutputUHD.worker_turn TIMESTAMP_ABORT_FUTURE conf sct st frame env
     underflows_test underflows_save
   = (None, [],
      OutputUHD.Thrown
        (runtime_error "OutputUHD: External reference clock lock lost."))
   /\ OutputUHD.ref_locked env = Some false
   /\ OutputUHD.refclk_lock_loss_behaviour conf = OutputUHD.CRASH)
  \/ (exists st',
         OutputUHD.worker_turn TIMESTAMP_ABORT_FUTURE conf sct st frame env
           underflows_test underflows_save
         = (Some st', [OutputUHD.Usleep 20000], OutputUHD.Returned)
         /\ OutputUHD.num_frames_modulated st'
            = uint64 (OutputUHD.num_frames_modulated st + 1)).
Proof.
  intros Hv Hm. unfold OutputUHD.worker_turn, OutputUHD.handle_frame.
  set (st0 := OutputUHD.mk_worker _ _ _ _ _ _ _ _).
  destruct (OutputUHD.refclk_loss_needs_check conf st0).
  - destruct (OutputUHD.ref_locked env) as [[|]|] eqn:Hl.
    + right. rewrite handle_frame_body_mute by assumption.
      eexists. split; reflexivity.
    + destruct (OutputUHD.refclk_lock_loss_behaviour conf) eqn:Hb.
      * left. repeat split.
      * right. rewrite handle_frame_body_mute by assumption.
        eexists. split; reflexivity.
    + right. rewrite handle_frame_body_mute by assumption.
      eexists. split; reflexivity.
  - right. rewrite handle_frame_body_mute by assumption.
    eexists. split; reflexivity.
Qed.

(** C7 (amended). An [UNDERFLOW] event increments the underflow
    counter; an [UNDERFLOW_IN_PACKET] event leaves both counters as
    they are and is logged as a failure. Whenever the transmit thread,
    after a frame, reads an underflow counter above the value it saved
    after the previous frame, its next pop asks for [FRAMES_MAX_SIZE],
    that is 8, frames: it waits while the queue holds fewer and pops
    once it holds 8. *)
Theorem underflow_reengages_prebuffering :
  (forall c,
      OutputUHD.num_underflows
        (fst (fst (OutputUHD.handle_async_event c
                     OutputUHD.EVENT_CODE_UNDERFLOW)))
      = uint64 (OutputUHD.num_underflows c + 1))
  /\ (forall c,
         OutputUHD.handle_async_event c
           OutputUHD.EVENT_CODE_UNDERFLOW_IN_PACKET
         = (c, "Underflow occurred inside a packet."%string, true))
  /\ (forall st frame env underflows_test underflows_save st' evs o,
         OutputUHD.worker_turn TIMESTAMP_ABORT_FUTURE conf sct st frame env
           underflows_test underflows_save
         = (Some st', evs, o) ->
         OutputUHD.last_num_underflows st < underflows_test ->
         OutputUHD.pop_prebuffering st' = 8
         /\ forall frames env' t' s',
              (Z.of_nat (length frames) < 8 ->
               OutputUHD.worker_iteration TIMESTAMP_ABORT_FUTURE conf sct
                 st' frames env' t' s' = None)
              /\ (8 <= Z.of_nat (length frames) ->
                  OutputUHD.worker_iteration TIMESTAMP_ABORT_FUTURE conf sct
                    st' frames env' t' s' <> None)).
Proof.
  split; [|split].
  - intros c. reflexivity.
  - intros c. reflexivity.
  - intros st frame env ut us st' evs o Hturn Hlt.
    assert (Hpre : OutputUHD.pop_prebuffering st' = 8).
    { unfold OutputUHD.worker_turn in Hturn.
      destruct (OutputUHD.handle_frame _ _ _ _ _ _) as [[st1 evs1] o1]
        eqn:Hh.
      apply handle_frame_locals in Hh. destruct Hh as [Hlast _].
      cbn [OutputUHD.last_num_underflows] in Hlast.
      destruct o1; try discriminate.
      injection Hturn as <- _ _. cbn [OutputUHD.pop_prebuffering].
      rewrite Hlast.
      destruct (OutputUHD.last_num_underflows st <? ut) eqn:E;
        [reflexivity | lia]. }
    split; [exact Hpre|].
    intros frames env' t' s'. unfold OutputUHD.worker_iteration,
      ThreadsafeQueue.wait_and_pop. rewrite Hpre. split.
    + intros Hq. destruct (Z.of_nat (length frames) <? 8) eqn:E;
        [reflexivity | lia].
    + intros Hq. destruct (Z.of_nat (length frames) <? 8) eqn:E; [lia|].
      destruct frames as [|f q]; [cbn in Hq; lia|].
      destruct (OutputUHD.worker_turn TIMESTAMP_ABORT_FUTURE conf sct
                  st' f env' t' s') as [[? ?] ?].
      discriminate.
Qed.

End Mute.

(** C6, as stated, fails in transmission mode 1, where a frame lasts
    96 000 microseconds: a frame without a valid time stamp is slept
    through for 20 000 microseconds, and the frame counter goes from 7
    to 8. *)
Lemma mute_sleeps_20ms_and_counts_the_frame :
  let conf :=
    OutputUHD.mk_config 2048000 1 true true false 0 "internal"
      OutputUHD.IGNORE 0 0 0 0 0 in
  let st :=
    OutputUHD.mk_worker (OutputUHD.mk_md false 0 false)
      false 0 0 false 7 0 1 in
  let frame :=
    OutputUHD.mk_frame (repeat x00 16)
      (mk_frame_timestamp 0 0 0 false false) in
  let env :=
    OutputUHD.mk_tx_env (Some true) 0 false 2
      (fun _ => true) (fun _ => false) (fun _ n => n) in
  OutputUHD.transmission_frame_duration_ms (OutputUHD.dabMode conf) = Ok 96
  /\ OutputUHD.worker_turn (DA := Standin.binary64) 100 conf true st frame env 0 0
     = (Some (OutputUHD.mk_worker (OutputUHD.mk_md false 0 false)
                false 0 0 false 8 0 1),
        [OutputUHD.Usleep 20000], OutputUHD.Returned).
Proof. cbv zeta. split; vm_compute; reflexivity. Qed.

(** The same frame, by the theorem. *)
Lemma mute_without_timestamp_witness :
  let conf :=
    OutputUHD.mk_config 2048000 1 true true false 0 "internal"
      OutputUHD.IGNORE 0 0 0 0 0 in
  let st :=
    OutputUHD.mk_worker (OutputUHD.mk_md false 0 false)
      false 0 0 false 7 0 1 in
  let frame :=
    OutputUHD.mk_frame (repeat x00 16)
      (mk_frame_timestamp 0 0 0 false false) in
  let env :=
    OutputUHD.mk_tx_env (Some true) 0 false 2
      (fun _ => true) (fun _ => false) (fun _ n => n) in
  (OutputUHD.worker_turn (DA := Standin.binary64) 100 conf true st frame env 0 0
   = (None, [],
      OutputUHD.Thrown
        (runtime_error "OutputUHD: External reference clock lock lost."))
   /\ OutputUHD.ref_locked env = Some false
   /\ OutputUHD.refclk_lock_loss_behaviour conf = OutputUHD.CRASH)
  \/ (exists st',
         OutputUHD.worker_turn (DA := Standin.binary64) 100 conf true st frame env 0 0
         = (Some st', [OutputUHD.Usleep 20000], OutputUHD.Returned)
         /\ OutputUHD.num_frames_modulated st'
            = uint64 (OutputUHD.num_frames_modulated st + 1)).
Proof.
  cbv zeta. apply mute_without_timestamp; reflexivity.
Defined.

(** C7, as stated, fails: an [UNDERFLOW_IN_PACKET] event leaves an
    underflow counter of 3 at 3. *)
Lemma underflow_in_packet_is_not_counted :
  OutputUHD.num_underflows
    (fst (fst (OutputUHD.handle_async_event (OutputUHD.mk_counters 3 0)
                 OutputUHD.EVENT_CODE_UNDERFLOW_IN_PACKET)))
  = 3.
Proof. reflexivity. Qed.

(** After a frame during which the underflow counter went from 0 to 1,
    the transmit thread waits on a queue of seven frames. *)
Lemma underflow_reengages_prebuffering_witness :
  let conf :=
    OutputUHD.mk_config 2048000 1 true true false 0 "internal"
      OutputUHD.IGNORE 0 0 0 0 0 in
  let frame :=
    OutputUHD.mk_frame (repeat x00 16)
      (mk_frame_timestamp 0 0 0 false false) in
  let env :=
    OutputUHD.mk_tx_env (Some true) 0 false 2
      (fun _ => true) (fun _ => false) (fun _ n => n) in
  let st' :=
    OutputUHD.mk_worker (OutputUHD.mk_md false 0 false)
      false 0 0 false 1 1 8 in
  OutputUHD.worker_turn (DA := Standin.binary64) 100 conf true (OutputUHD.worker_init) frame env 1 1
  = (Some st', [OutputUHD.Usleep 20000], OutputUHD.Returned)
  /\ OutputUHD.worker_iteration (DA := Standin.binary64) 100 conf true st' (repeat frame 7) env 1 1
     = None.
Proof.
  intros conf frame env st'.
  assert (Hturn : OutputUHD.worker_turn (DA := Standin.binary64) 100 conf true OutputUHD.worker_init
                    frame env 1 1
                  = (Some st', [OutputUHD.Usleep 20000], OutputUHD.Returned))
    by (vm_compute; reflexivity).
  split; [exact Hturn|].
  refine (proj1 (proj2 (proj2 (proj2
            (underflow_reengages_prebuffering (DA := Standin.binary64)
               100 conf true))
            OutputUHD.worker_init frame env 1 1 st' _ _ Hturn _)
            (repeat frame 7) env 1 1) _); cbn; lia.
Defined.

(** ** Dropping frames *)

Section Drop.

Context {TA : TimestampArith}.




End Drop.



(** ** The feedback capture *)

Section Capture.

Context {TA : TimestampArith}.


End Capture.


(** * Further properties of the modelled code *)

(** ** Coefficient files that load *)

Section CoefficientLoad.

Context {F : Type} {FO : FloatOps F}.

Variable u : MemlessPoly.uninitialised F.

Lemma read_poly_coefs_length count :
  forall s acc l,
    MemlessPoly.read_poly_coefs u count s acc = Ok l ->
    length l = (length acc + count)%nat.
Proof.
  induction count as [|count IH]; intros s acc l H.
  - cbn in H. injection H as <-. lia.
  - cbn [MemlessPoly.read_poly_coefs] in H.
    destruct (MemlessPoly.extract MemlessPoly.as_float
              MemlessPoly.stored_float s) as [e s'].
    destruct (MemlessPoly.eofbit s'); [discriminate|].
    apply IH in H. rewrite length_app in H. cbn [length] in H. lia.
Qed.

(** Coefficients that parse are read in order as long as the stream
    does not reach its end. *)
Lemma read_poly_coefs_ok (vals : list F) :
  forall (ws rest : list (MemlessPoly.word F)) trailing acc,
    map MemlessPoly.as_float ws = map Some vals ->
    rest <> [] \/ trailing = true ->
    MemlessPoly.read_poly_coefs u (length ws)
      (MemlessPoly.mk_ifstream (ws ++ rest) trailing false false) acc
    = Ok (acc ++ vals).
Proof.
  induction vals as [|v vals IH]; intros ws rest trailing acc Hmap Hrest.
  - destruct ws; [|discriminate]. cbn. rewrite app_nil_r. reflexivity.
  - destruct ws as [|w ws]; [discriminate|].
    cbn [map] in Hmap. injection Hmap as Hw Hmap.
    cbn [length MemlessPoly.read_poly_coefs app]. unfold MemlessPoly.extract.
    cbn [MemlessPoly.failbit MemlessPoly.eofbit MemlessPoly.words
         MemlessPoly.trailing orb].
    rewrite Hw. cbn [MemlessPoly.eofbit MemlessPoly.stored].
    assert (He : match ws ++ rest with
                 | [] => negb trailing
                 | _ :: _ => false
                 end = false).
    { destruct (ws ++ rest) eqn:E; [|reflexivity].
      apply app_eq_nil in E. destruct E as [_ ->].
      destruct Hrest as [Hr | ->]; [congruence | reflexivity]. }
    rewrite He, IH by assumption.
    rewrite <- app_assoc. reflexivity.
Qed.

(** Reading the last word of a file that ends with it raises the
    end-of-file flag, and the loop throws. *)
Lemma read_poly_coefs_ends_at_eof (vals : list F) :
  forall (ws : list (MemlessPoly.word F)) acc,
    map MemlessPoly.as_float ws = map Some vals ->
    ws <> [] ->
    MemlessPoly.read_poly_coefs u (length ws)
      (MemlessPoly.mk_ifstream ws false false false) acc
    = Throw (runtime_error "MemlessPoly: coefs file invalid !").
Proof.
  induction vals as [|v vals IH]; intros ws acc Hmap Hne.
  - destruct ws; [congruence | discriminate].
  - destruct ws as [|w ws]; [discriminate|].
    cbn [map] in Hmap. injection Hmap as Hw Hmap.
    cbn [length MemlessPoly.read_poly_coefs]. unfold MemlessPoly.extract.
    cbn [MemlessPoly.failbit MemlessPoly.eofbit MemlessPoly.words
         MemlessPoly.trailing orb].
    rewrite Hw. cbn [MemlessPoly.eofbit MemlessPoly.stored].
    destruct ws as [|w' ws']; [reflexivity|].
    apply IH; [assumption | discriminate].
Qed.

(** X1. A file of the polynomial format with its ten coefficients is
    loaded, five amplitude coefficients and then five phase
    coefficients, if anything (white space is enough) follows the tenth
    coefficient. If the file ends with the last digit of the tenth
    coefficient, the load is refused and nothing changes. *)
Theorem polynomial_file_needs_a_trailing_character
    (st : MemlessPoly.dpd_state F) w1 w2 coefs rest trailing vals :
  MemlessPoly.as_uint32 w1 = Some 1 ->
  MemlessPoly.as_int w2 = Some 5 ->
  length coefs = 10%nat ->
  map MemlessPoly.as_float coefs = map Some vals ->
  let file :=
    Some (MemlessPoly.mk_ifstream (w1 :: w2 :: coefs ++ rest)
            trailing false false) in
  (rest <> [] \/ trailing = true ->
   MemlessPoly.load_coefficients u st file
   = (MemlessPoly.mk_dpd_state MemlessPoly.odd_only_poly
        (firstn 5 vals) (skipn 5 vals)
        (MemlessPoly.m_lut_scalefactor st) (MemlessPoly.m_lut st) true
        (MemlessPoly.m_coefs_file st),
      None))
  /\ (rest = [] /\ trailing = false ->
      MemlessPoly.load_coefficients u st file
      = (st, Some (runtime_error "MemlessPoly: coefs file invalid !"))).
Proof.
  intros H1 H2 Hlen Hmap file.
  assert (Hnext : match coefs ++ rest with
                  | [] => negb trailing
                  | _ :: _ => false
                  end = false).
  { destruct (coefs ++ rest) eqn:E; [|reflexivity].
    apply app_eq_nil in E. destruct E as [-> _]. discriminate. }
  assert (Hstart :
            MemlessPoly.load_coefficients u st file
            = match MemlessPoly.read_poly_coefs u 10
                      (MemlessPoly.mk_ifstream (coefs ++ rest) trailing
                         false false) [] with
              | Throw e => (st, Some e)
              | Ok l =>
                  (MemlessPoly.mk_dpd_state MemlessPoly.odd_only_poly
                     (firstn 5 l) (skipn 5 l)
                     (MemlessPoly.m_lut_scalefactor st)
                     (MemlessPoly.m_lut st) true
                     (MemlessPoly.m_coefs_file st), None)
              end).
  { unfold file, MemlessPoly.load_coefficients, MemlessPoly.extract.
    cbn [MemlessPoly.failbit MemlessPoly.eofbit MemlessPoly.words
         MemlessPoly.trailing orb MemlessPoly.stored].
    rewrite H1.
    cbn [MemlessPoly.failbit MemlessPoly.eofbit MemlessPoly.words
         MemlessPoly.trailing orb MemlessPoly.stored Z.eqb Pos.eqb].
    rewrite H2, Hnext. cbn [MemlessPoly.stored].
    change (5 <=? 0) with false.
    change (5 =? MemlessPoly.NUM_COEFS) with true. cbn [negb].
    reflexivity. }
  rewrite Hstart. rewrite <- Hlen. split.
  - intros Hrest. rewrite (read_poly_coefs_ok vals) by assumption.
    reflexivity.
  - intros [-> ->]. rewrite app_nil_r.
    rewrite (read_poly_coefs_ends_at_eof vals); [reflexivity | assumption|].
    intros ->. discriminate.
Qed.

(** ** Lookup-table files *)

Lemma read_lut_length count :
  forall s acc,
    length (MemlessPoly.read_lut u count s acc) = (length acc + count)%nat.
Proof.
  induction count as [|count IH]; intros s acc.
  - cbn. lia.
  - cbn [MemlessPoly.read_lut].
    destruct (MemlessPoly.extract MemlessPoly.as_float
              MemlessPoly.stored_float s) as [e s'].
    rewrite IH, length_app. cbn [length]. lia.
Qed.

(** Once the stream has failed, every entry read is the value the
    uninitialised local of its turn happens to hold. *)
Lemma read_lut_failed count :
  forall ws trailing e acc,
    MemlessPoly.read_lut u count
      (MemlessPoly.mk_ifstream ws trailing true e) acc
    = acc ++ map (fun n => MemlessPoly.c_of_float (MemlessPoly.junk_lut u n))
               (seq (length acc) count).
Proof.
  induction count as [|count IH]; intros ws trailing e acc.
  - cbn. rewrite app_nil_r. reflexivity.
  - cbn [MemlessPoly.read_lut]. unfold MemlessPoly.extract.
    cbn [MemlessPoly.failbit MemlessPoly.eofbit orb MemlessPoly.words
         MemlessPoly.trailing MemlessPoly.stored].
    rewrite IH, <- app_assoc, length_app. cbn [length seq map app].
    rewrite Nat.add_1_r. reflexivity.
Qed.

(** X2. A file that starts with the indicator of the table format is
    never refused: whatever follows, the load ends without an exception,
    switches the predistorter on with a table of exactly 32 entries, and
    leaves the polynomial coefficients alone. When nothing follows the
    indicator, the scale factor and each of the 32 entries are what the
    uninitialised local it is read into holds, [scalefactor] for the
    one and the [a] of its turn of the loop for the other. *)
Theorem lookup_table_file_is_never_refused
    (st : MemlessPoly.dpd_state F) w1 rest trailing :
  MemlessPoly.as_uint32 w1 = Some 2 ->
  let r :=
    MemlessPoly.load_coefficients u st
      (Some (MemlessPoly.mk_ifstream (w1 :: rest) trailing false false)) in
  snd r = None
  /\ MemlessPoly.m_dpd_settings_valid (fst r) = true
  /\ MemlessPoly.m_dpd_type (fst r) = MemlessPoly.lookup_table
  /\ length (MemlessPoly.m_lut (fst r)) = 32%nat
  /\ MemlessPoly.m_coefs_am (fst r) = MemlessPoly.m_coefs_am st
  /\ MemlessPoly.m_coefs_pm (fst r) = MemlessPoly.m_coefs_pm st
  /\ (rest = [] ->
      MemlessPoly.m_lut_scalefactor (fst r) = MemlessPoly.junk_scalefactor u
      /\ MemlessPoly.m_lut (fst r)
         = map (fun n => MemlessPoly.c_of_float (MemlessPoly.junk_lut u n))
             (seq 0 32)).
Proof.
  intros H1 r.
  set (s1 := MemlessPoly.mk_ifstream rest trailing false
               (match rest with [] => negb trailing | _ => false end)).
  assert (Hr : r = (MemlessPoly.mk_dpd_state MemlessPoly.lookup_table
                      (MemlessPoly.m_coefs_am st) (MemlessPoly.m_coefs_pm st)
                      (MemlessPoly.stored (MemlessPoly.junk_scalefactor u)
                         (fst (MemlessPoly.extract MemlessPoly.as_float
                                 MemlessPoly.stored_float s1)))
                      (MemlessPoly.read_lut u 32
                         (snd (MemlessPoly.extract MemlessPoly.as_float
                                 MemlessPoly.stored_float s1))
                         [])
                      true (MemlessPoly.m_coefs_file st), None)).
  { unfold r, MemlessPoly.load_coefficients.
    unfold MemlessPoly.extract at 1.
    cbn [MemlessPoly.failbit MemlessPoly.eofbit MemlessPoly.words
         MemlessPoly.trailing orb MemlessPoly.stored].
    rewrite H1. cbn [MemlessPoly.stored Z.eqb Pos.eqb]. fold s1.
    destruct (MemlessPoly.extract MemlessPoly.as_float
                MemlessPoly.stored_float s1) as [e s2].
    reflexivity. }
  rewrite Hr.
  cbn [fst snd MemlessPoly.m_dpd_settings_valid MemlessPoly.m_dpd_type
       MemlessPoly.m_lut MemlessPoly.m_coefs_am MemlessPoly.m_coefs_pm
       MemlessPoly.m_lut_scalefactor].
  repeat split.
  - rewrite read_lut_length. reflexivity.
  - subst rest. unfold s1, MemlessPoly.extract.
    cbn [MemlessPoly.failbit MemlessPoly.eofbit orb].
    destruct trailing; reflexivity.
  - subst rest. unfold s1, MemlessPoly.extract.
    cbn [MemlessPoly.failbit MemlessPoly.eofbit orb MemlessPoly.words].
    destruct trailing; cbn [negb snd]; apply (read_lut_failed 32 _ _ _ []).
Qed.

(** ** The shape of the coefficient tables *)

Lemma load_coefficients_wellformed (st : MemlessPoly.dpd_state F) file :
  MemlessPoly.dpd_wellformed st ->
  MemlessPoly.dpd_wellformed (fst (MemlessPoly.load_coefficients u st file)).
Proof.
  intros [Hlut Hpoly]. unfold MemlessPoly.load_coefficients.
  destruct file as [s|]; [|split; assumption].
  destruct (MemlessPoly.extract MemlessPoly.as_uint32
              MemlessPoly.stored_uint32 s) as [e s1].
  destruct (_ =? 1).
  - destruct (MemlessPoly.extract MemlessPoly.as_int
                MemlessPoly.stored_int s1) as [e2 s2].
    destruct (_ <=? 0); [split; assumption|].
    destruct (MemlessPoly.stored (MemlessPoly.junk_int u) e2
              =? MemlessPoly.NUM_COEFS) eqn:En; cbn [negb];
      [|split; assumption].
    apply Z.eqb_eq in En. rewrite En.
    destruct (MemlessPoly.read_poly_coefs u _ s2 []) as [l|e3] eqn:Hr;
      [|split; assumption].
    apply read_poly_coefs_length in Hr. cbn [length] in Hr.
    change (Z.to_nat (2 * MemlessPoly.NUM_COEFS)) with 10%nat in Hr.
    split; cbn [fst MemlessPoly.m_lut MemlessPoly.m_coefs_am
                MemlessPoly.m_coefs_pm]; [assumption|].
    intros _ _. rewrite length_firstn, length_skipn, Hr.
    change (Z.to_nat MemlessPoly.NUM_COEFS) with 5%nat. lia.
  - destruct (_ =? 2).
    + destruct (MemlessPoly.extract MemlessPoly.as_float
                MemlessPoly.stored_float s1) as [e2 s2].
      split; cbn [fst MemlessPoly.m_lut MemlessPoly.m_dpd_type].
      * rewrite read_lut_length. reflexivity.
      * intros _ H. discriminate.
    + split; cbn [fst MemlessPoly.m_lut MemlessPoly.m_dpd_settings_valid];
        [assumption | discriminate].
Qed.

(** X3. Whatever parameter is set to whatever value, with whatever file
    behind it, the predistorter keeps a table of 32 entries and, while
    its settings are valid and of the polynomial kind, five amplitude
    and five phase coefficients. *)
Theorem set_parameter_keeps_tables_wellformed
    (open : string -> option (MemlessPoly.ifstream F))
    (st : MemlessPoly.dpd_state F) (parameter value : string) :
  MemlessPoly.dpd_wellformed st ->
  MemlessPoly.dpd_wellformed
    (fst (MemlessPoly.set_parameter u open st parameter value)).
Proof.
  intros Hwf. unfold MemlessPoly.set_parameter.
  destruct (String.eqb parameter "ncoefs"); [exact Hwf|].
  destruct (String.eqb parameter "coeffile"); [|exact Hwf].
  pose proof (load_coefficients_wellformed st (open value) Hwf) as Hl.
  destruct (MemlessPoly.load_coefficients u st (open value)) as [st' [e|]];
    cbn [fst] in Hl.
  - destruct e; exact Hl.
  - exact Hl.
Qed.

End CoefficientLoad.

(** ** The predistortion kernels and the worker threads *)

Section Kernels.

Context {F : Type} {FO : FloatOps F}.

Lemma store_nth_error {A : Type} (l l' : list A) i v :
  MemlessPoly.store l i v = Some l' ->
  nth_error l' i = Some v
  /\ forall j, j <> i -> nth_error l' j = nth_error l j.
Proof.
  unfold MemlessPoly.store.
  destruct (Nat.ltb i (length l)) eqn:E; [|discriminate].
  apply Nat.ltb_lt in E. intros H.
  assert (Hl : l' = firstn i l ++ v :: skipn (S i) l) by congruence.
  assert (Hfl : length (firstn i l) = i) by (rewrite length_firstn; lia).
  subst l'. split.
  - rewrite nth_error_app2 by lia. rewrite Hfl, Nat.sub_diag. reflexivity.
  - intros j Hj. destruct (Nat.lt_ge_cases j i) as [Hlt|Hge].
    + rewrite nth_error_app1 by lia. rewrite nth_error_firstn.
      destruct (Nat.ltb_spec j i); [reflexivity | lia].
    + rewrite nth_error_app2 by lia. rewrite Hfl.
      destruct (j - i)%nat as [|k] eqn:Ek; [lia|].
      change (nth_error (v :: skipn (S i) l) (S k))
        with (nth_error (skipn (S i) l) k).
      rewrite nth_error_skipn. f_equal. lia.
Qed.

(** What a loop over a range leaves behind: each sample of the range
    is the kernel's value at the input sample, every other one is as it
    was. *)
Lemma for_range_content
    (f : (MemlessPoly.complexf F) -> option (MemlessPoly.complexf F))
    (in_ : list (MemlessPoly.complexf F)) count :
  forall start out out',
    MemlessPoly.for_range f in_ start count out = Some out' ->
    length out' = length out
    /\ forall i,
         ((start <= i < start + count)%nat ->
          exists x y,
            nth_error in_ i = Some x /\ f x = Some y
            /\ nth_error out' i = Some y)
         /\ ((i < start \/ start + count <= i)%nat ->
             nth_error out' i = nth_error out i).
Proof.
  induction count as [|count IH]; intros start out out' H.
  - cbn in H. injection H as <-. split; [reflexivity|].
    intros i. split; [lia | reflexivity].
  - cbn [MemlessPoly.for_range] in H.
    destruct (nth_error in_ start) as [x|] eqn:Ex; [|discriminate].
    destruct (f x) as [y|] eqn:Ey; [|discriminate].
    destruct (MemlessPoly.store out start y) as [out1|] eqn:Es;
      [|discriminate].
    pose proof (store_length _ _ _ _ Es) as Hlen.
    destruct (store_nth_error _ _ _ _ Es) as [Hsame Hother].
    destruct (IH _ _ _ H) as [Hlen' Hi].
    split; [lia|]. intros i. destruct (Hi i) as [Hin Hout]. split.
    + intros Hr. destruct (Nat.eq_dec i start) as [->|Hne].
      * exists x, y. repeat split; try assumption.
        rewrite Hout by lia. exact Hsame.
      * apply Hin. lia.
    + intros Hr. rewrite Hout by lia. apply Hother. lia.
Qed.

(** X4. [apply_lut] over a range replaces each output sample of the
    range by the input sample times the table entry of its bin, the top
    five bits of the scaled magnitude, and leaves every output sample
    outside the range as it was. *)
Theorem apply_lut_writes_its_range_only
    (lut : list (MemlessPoly.complexf F)) (scalefactor : F)
    in_ start stop out out' :
  MemlessPoly.apply_lut lut scalefactor in_ start stop out = Some out' ->
  length out' = length out
  /\ forall i,
       ((start <= i < stop)%nat ->
        exists x c,
          nth_error in_ i = Some x
          /\ nth_error lut
               (Z.to_nat
                  (Z.shiftr (MemlessPoly.scaled_in scalefactor x) 27))
             = Some c
          /\ nth_error out' i = Some (MemlessPoly.c_mul x c))
       /\ ((i < start \/ stop <= i)%nat ->
           nth_error out' i = nth_error out i).
Proof.
  unfold MemlessPoly.apply_lut. intros H.
  destruct (for_range_content _ _ _ _ _ _ H) as [Hlen Hi].
  split; [exact Hlen|]. intros i. destruct (Hi i) as [Hin Hout]. split.
  - intros Hr. destruct Hin as [x [y [Hx [Hy Ho]]]]; [lia|].
    unfold MemlessPoly.lut_sample in Hy.
    destruct (lut_ix_bound scalefactor x) as [Hix _].
    rewrite Hix in Hy.
    destruct (nth_error lut _) as [c|] eqn:Ec; [|discriminate].
    injection Hy as <-. exists x, c. repeat split; assumption.
  - intros Hr. apply Hout. lia.
Qed.

(** Two loops over adjacent ranges are one loop over their union. *)
Lemma for_range_app
    (f : (MemlessPoly.complexf F) -> option (MemlessPoly.complexf F))
    (in_ : list (MemlessPoly.complexf F)) c1 c2 :
  forall start out,
    MemlessPoly.for_range f in_ start (c1 + c2) out
    = match MemlessPoly.for_range f in_ start c1 out with
      | Some out1 => MemlessPoly.for_range f in_ (start + c1) c2 out1
      | None => None
      end.
Proof.
  induction c1 as [|c1 IH]; intros start out.
  - cbn [MemlessPoly.for_range Nat.add]. rewrite Nat.add_0_r. reflexivity.
  - cbn [MemlessPoly.for_range Nat.add].
    destruct (nth_error in_ start); [|reflexivity].
    destruct (f c); [|reflexivity].
    destruct (MemlessPoly.store out start c0); [|reflexivity].
    rewrite IH. replace (S start + c1)%nat with (start + S c1)%nat by lia.
    reflexivity.
Qed.

(** Both kernels are loops of [for_range]. *)
Lemma apply_dpd_for_range (st : MemlessPoly.dpd_state F) :
  exists f,
    (forall in_ start stop out,
        MemlessPoly.apply_dpd st in_ start stop out
        = MemlessPoly.for_range f in_ start (stop - start) out)
    /\ (MemlessPoly.dpd_wellformed st ->
        MemlessPoly.m_dpd_settings_valid st = true ->
        forall x, exists y, f x = Some y).
Proof.
  unfold MemlessPoly.apply_dpd, MemlessPoly.dpd_wellformed.
  destruct (MemlessPoly.m_dpd_type st).
  - eexists. split; [intros; reflexivity|].
    intros [_ Hpoly] Hv x. destruct (Hpoly Hv eq_refl) as [Ha Hp].
    unfold MemlessPoly.coeff_sample.
    destruct (MemlessPoly.m_coefs_am st) as [|? [|? [|? [|? [|? ?]]]]];
      try discriminate.
    destruct (MemlessPoly.m_coefs_pm st) as [|? [|? [|? [|? [|? ?]]]]];
      try discriminate.
    eexists. reflexivity.
  - eexists. split; [intros; reflexivity|].
    intros [Hlut _] _ x. unfold MemlessPoly.lut_sample.
    destruct (lut_ix_bound (MemlessPoly.m_lut_scalefactor st) x) as [_ Hb].
    destruct (nth_error (MemlessPoly.m_lut st) _) as [c|] eqn:E;
      [eexists; reflexivity|].
    apply nth_error_None in E. rewrite Hlut in E.
    unfold MemlessPoly.lut_entries in E. lia.
Qed.

Lemma dispatch_for_range (st : MemlessPoly.dpd_state F) f in_ step workers :
  (forall in_ start stop out,
      MemlessPoly.apply_dpd st in_ start stop out
      = MemlessPoly.for_range f in_ start (stop - start) out) ->
  forall start out,
    MemlessPoly.dispatch st in_ workers step start out
    = match MemlessPoly.for_range f in_ start (workers * step) out with
      | Some out' => Some ((start + workers * step)%nat, out')
      | None => None
      end.
Proof.
  intros Hf. induction workers as [|workers IH]; intros start out.
  - cbn. rewrite Nat.add_0_r. reflexivity.
  - cbn [MemlessPoly.dispatch]. rewrite Hf.
    replace (start + step - start)%nat with step by lia.
    replace (S workers * step)%nat with (step + workers * step)%nat by lia.
    rewrite for_range_app.
    destruct (MemlessPoly.for_range f in_ start step out) as [out1|];
      [|reflexivity].
    rewrite IH. rewrite Nat.add_assoc. reflexivity.
Qed.

(** With valid settings [internal_process] is one loop over the whole
    frame, whatever the number of worker threads. *)
Lemma internal_process_one_loop
    (st : MemlessPoly.dpd_state F) f (num_threads : nat)
    (fresh : nat -> byte) (dataIn dataOut : list byte) :
  (forall in_ start stop out,
      MemlessPoly.apply_dpd st in_ start stop out
      = MemlessPoly.for_range f in_ start (stop - start) out) ->
  MemlessPoly.m_dpd_settings_valid st = true ->
  MemlessPoly.internal_process st num_threads fresh dataIn dataOut
  = match
      MemlessPoly.for_range f
        (MemlessPoly.decode_samples
           (length (MemlessPoly.setLength fresh dataOut (length dataIn)) / 8)
           dataIn)
        0
        (length (MemlessPoly.setLength fresh dataOut (length dataIn)) / 8)
        (MemlessPoly.decode_samples
           (length (MemlessPoly.setLength fresh dataOut (length dataIn)) / 8)
           (MemlessPoly.setLength fresh dataOut (length dataIn)))
    with
    | None => None
    | Some out =>
        Some
          (MemlessPoly.encode_samples out
           ++ skipn
                (8 * (length
                        (MemlessPoly.setLength fresh dataOut (length dataIn))
                      / 8))
                (MemlessPoly.setLength fresh dataOut (length dataIn)),
           int32
             (Z.of_nat
                (length
                   (MemlessPoly.encode_samples out
                    ++ skipn
                         (8 * (length
                                 (MemlessPoly.setLength fresh dataOut
                                    (length dataIn)) / 8))
                         (MemlessPoly.setLength fresh dataOut
                            (length dataIn))))))
    end.
Proof.
  intros Hf Hv.
  unfold MemlessPoly.internal_process. cbv zeta. rewrite Hv.
  set (out0 := MemlessPoly.setLength fresh dataOut (length dataIn)).
  set (sizeOut := (length out0 / 8)%nat).
  destruct num_threads as [|n].
  - change (Nat.ltb 0 0) with false. cbv iota.
    rewrite Hf, Nat.sub_0_r. reflexivity.
  - change (Nat.ltb 0 (S n)) with true. cbv iota.
    set (step := (sizeOut / S n)%nat).
    rewrite (dispatch_for_range st f _ step (S n) Hf).
    assert (Hle : (S n * step <= sizeOut)%nat).
    { unfold step. apply Nat.Div0.mul_div_le. }
    replace sizeOut with (S n * step + (sizeOut - S n * step))%nat at 4
      by lia.
    rewrite for_range_app, !Nat.add_0_l.
    destruct (MemlessPoly.for_range f _ 0 (S n * step) _) as [out1|];
      rewrite ?Hf; reflexivity.
Qed.

(** X5. The number of worker threads does not change what
    [internal_process] computes: splitting the frame among any number
    of workers, the last part done by the caller, gives the output, or
    the failure, of processing the whole frame on the calling thread. *)
Theorem internal_process_independent_of_thread_count
    (st : MemlessPoly.dpd_state F) (num_threads : nat)
    (fresh : nat -> byte) (dataIn dataOut : list byte) :
  MemlessPoly.internal_process st num_threads fresh dataIn dataOut
  = MemlessPoly.internal_process st 0 fresh dataIn dataOut.
Proof.
  destruct (MemlessPoly.m_dpd_settings_valid st) eqn:Hv.
  - destruct (apply_dpd_for_range st) as [f [Hf _]].
    rewrite !(internal_process_one_loop st f) by assumption. reflexivity.
  - rewrite !internal_process_invalid by assumption. reflexivity.
Qed.

Lemma decode_samples_length n :
  forall data, length (MemlessPoly.decode_samples (FO := FO) n data) = n.
Proof.
  induction n as [|n IH]; intros data; [reflexivity|].
  cbn [MemlessPoly.decode_samples length]. rewrite IH. reflexivity.
Qed.

Lemma encode_samples_length (l : list (MemlessPoly.complexf F)) :
  (forall x, length (f_encode x) = 4%nat) ->
  length (MemlessPoly.encode_samples l) = (8 * length l)%nat.
Proof.
  intros Henc. unfold MemlessPoly.encode_samples.
  induction l as [|c l IH]; [reflexivity|].
  cbn [flat_map length]. rewrite !length_app, !Henc, IH. lia.
Qed.

(** X6. With coefficient tables of the right shape, whatever their
    content, [internal_process] never reads or writes outside the frame
    buffers or the tables, for any number of threads and any input: it
    returns, the output buffer has the length of the input, and the
    value returned is that length converted to [int]. (A float is
    stored in four bytes.) *)
Theorem internal_process_is_memory_safe
    (st : MemlessPoly.dpd_state F) (num_threads : nat)
    (fresh : nat -> byte) (dataIn dataOut : list byte) :
  (forall x : F, length (f_encode x) = 4%nat) ->
  MemlessPoly.dpd_wellformed st ->
  exists out,
    MemlessPoly.internal_process st num_threads fresh dataIn dataOut
    = Some (out, int32 (Z.of_nat (length dataIn)))
    /\ length out = length dataIn.
Proof.
  intros Henc Hwf.
  assert (Hlen0 : length (MemlessPoly.setLength fresh dataOut (length dataIn))
                  = length dataIn).
  { unfold MemlessPoly.setLength.
    rewrite length_app, length_firstn, length_map, length_seq. lia. }
  destruct (MemlessPoly.m_dpd_settings_valid st) eqn:Hv.
  2:{ rewrite internal_process_invalid by assumption.
      eexists. split; [reflexivity|].
      rewrite length_app, length_firstn, length_skipn, Hlen0.
      assert (length dataIn / 8 <= length dataIn)%nat
        by (apply Nat.Div0.div_le_upper_bound; lia).
      lia. }
  destruct (apply_dpd_for_range st) as [f [Hf Htot]].
  rewrite (internal_process_one_loop st f) by assumption.
  set (out0 := MemlessPoly.setLength fresh dataOut (length dataIn)) in *.
  set (sizeOut := (length out0 / 8)%nat).
  destruct (for_range_total f (MemlessPoly.decode_samples sizeOut dataIn)
              sizeOut (Htot Hwf Hv) 0%nat
              (MemlessPoly.decode_samples sizeOut out0))
    as [out' [Hout Hlen]];
    try (rewrite decode_samples_length; lia).
  rewrite Hout.
  assert (Hfinal : length (MemlessPoly.encode_samples out'
                           ++ skipn (8 * sizeOut) out0)
                   = length dataIn).
  { rewrite length_app, encode_samples_length, length_skipn by assumption.
    rewrite Hlen, decode_samples_length, Hlen0.
    assert (8 * sizeOut <= length dataIn)%nat.
    { unfold sizeOut. rewrite Hlen0. apply Nat.Div0.mul_div_le. }
    lia. }
  eexists. split; [|exact Hfinal].
  rewrite Hfinal. reflexivity.
Qed.

(** X7. The [coeffile] parameter reads back as the last file name whose
    load ended without an exception: a set that ends with an exception
    leaves the name as it was, any other set makes it the value given,
    also when the file's format was unknown and the predistorter is
    switched off. *)
Theorem coeffile_reads_back_the_last_accepted_name
    (u : MemlessPoly.uninitialised F)
    (open : string -> option (MemlessPoly.ifstream F))
    (st : MemlessPoly.dpd_state F) (value : string) :
  let r := MemlessPoly.set_parameter u open st "coeffile" value in
  MemlessPoly.get_parameter (fst r) "coeffile"
  = Ok (match snd r with
        | None => value
        | Some _ => MemlessPoly.m_coefs_file st
        end).
Proof.
  cbv zeta. unfold MemlessPoly.set_parameter, MemlessPoly.get_parameter.
  change (String.eqb "coeffile" "ncoefs") with false.
  change (String.eqb "coeffile" "coeffile") with true. cbv iota.
  assert (Hfile : MemlessPoly.m_coefs_file
                    (fst (MemlessPoly.load_coefficients u st (open value)))
                  = MemlessPoly.m_coefs_file st).
  { unfold MemlessPoly.load_coefficients.
    repeat match goal with
           | |- context [match ?x with _ => _ end] => destruct x
           end; reflexivity. }
  destruct (MemlessPoly.load_coefficients u st (open value)) as [st' [e|]];
    cbn [fst] in Hfile.
  - destruct e; cbn [fst snd]; rewrite Hfile; reflexivity.
  - reflexivity.
Qed.

End Kernels.

(** ** Trimming the driver's messages *)

Lemma find_if_not_space_split l :
  exists pre,
    l = pre ++ OutputUHD.find_if_not_space l
    /\ forallb OutputUHD.isspace pre = true.
Proof.
  induction l as [|c l [pre [Hl Hpre]]].
  - exists []. split; reflexivity.
  - cbn [OutputUHD.find_if_not_space].
    destruct (OutputUHD.isspace c) eqn:Ec.
    + exists (c :: pre). split; [cbn; congruence|].
      cbn [forallb]. rewrite Ec, Hpre. reflexivity.
    + exists []. split; reflexivity.
Qed.

Lemma find_if_not_space_head l c r :
  OutputUHD.find_if_not_space l = c :: r -> OutputUHD.isspace c = false.
Proof.
  induction l as [|a l IH]; [discriminate|].
  cbn [OutputUHD.find_if_not_space].
  destruct (OutputUHD.isspace a) eqn:Ea; [exact IH|].
  intros H. injection H as <- _. exact Ea.
Qed.

Lemma find_if_not_space_fixed l :
  (forall c r, l = c :: r -> OutputUHD.isspace c = false) ->
  OutputUHD.find_if_not_space l = l.
Proof.
  destruct l as [|c r]; [reflexivity|]. intros H.
  cbn [OutputUHD.find_if_not_space]. rewrite (H c r eq_refl). reflexivity.
Qed.

Lemma trim_split l :
  exists pre post,
    l = pre ++ OutputUHD.trim l ++ post
    /\ forallb OutputUHD.isspace pre = true
    /\ forallb OutputUHD.isspace post = true.
Proof.
  unfold OutputUHD.trim.
  destruct (find_if_not_space_split l) as [pre [Hl Hpre]].
  destruct (find_if_not_space_split (rev (OutputUHD.find_if_not_space l)))
    as [post [Hr Hpost]].
  exists pre, (rev post). split; [|split; [exact Hpre|]].
  - rewrite <- rev_app_distr, <- Hr, rev_involutive. exact Hl.
  - rewrite forallb_forall in *. intros x Hx. apply Hpost.
    apply in_rev. exact Hx.
Qed.

Lemma trim_ends l :
  (forall c r, OutputUHD.trim l = c :: r -> OutputUHD.isspace c = false)
  /\ (forall r c, OutputUHD.trim l = r ++ [c] -> OutputUHD.isspace c = false).
Proof.
  unfold OutputUHD.trim.
  set (front := OutputUHD.find_if_not_space l).
  destruct (find_if_not_space_split (rev front)) as [post [Hr Hpost]].
  split.
  - intros c r H.
    assert (Hfront : front = c :: (r ++ rev post)).
    { rewrite <- (rev_involutive front), Hr, rev_app_distr, H.
      reflexivity. }
    exact (find_if_not_space_head l c _ Hfront).
  - intros r c H.
    assert (Hback : OutputUHD.find_if_not_space (rev front) = c :: rev r).
    { rewrite <- (rev_involutive (OutputUHD.find_if_not_space (rev front))).
      rewrite H, rev_app_distr. reflexivity. }
    exact (find_if_not_space_head _ c _ Hback).
Qed.

Lemma trim_fixed l :
  (forall c r, l = c :: r -> OutputUHD.isspace c = false) ->
  (forall r c, l = r ++ [c] -> OutputUHD.isspace c = false) ->
  OutputUHD.trim l = l.
Proof.
  intros Hfirst Hlast. unfold OutputUHD.trim.
  rewrite (find_if_not_space_fixed l Hfirst).
  rewrite find_if_not_space_fixed; [apply rev_involutive|].
  intros c r H. apply (Hlast (rev r) c).
  rewrite <- (rev_involutive l), H. reflexivity.
Qed.

(** X8. [stringtrim] removes white space at the two ends and nothing
    else: the string is a run of white space, the trimmed string, and a
    run of white space, and the trimmed string neither starts nor ends
    with a white-space character. *)
Theorem stringtrim_removes_the_space_at_both_ends (s : string) :
  let t := list_ascii_of_string (OutputUHD.stringtrim s) in
  (exists pre post,
      list_ascii_of_string s = pre ++ t ++ post
      /\ forallb OutputUHD.isspace pre = true
      /\ forallb OutputUHD.isspace post = true)
  /\ (forall c r, t = c :: r -> OutputUHD.isspace c = false)
  /\ (forall r c, t = r ++ [c] -> OutputUHD.isspace c = false).
Proof.
  cbv zeta. unfold OutputUHD.stringtrim.
  rewrite list_ascii_of_string_of_list_ascii.
  split; [apply trim_split | apply trim_ends].
Qed.

(** X9. Trimming twice is trimming once. *)
Theorem stringtrim_is_idempotent (s : string) :
  OutputUHD.stringtrim (OutputUHD.stringtrim s) = OutputUHD.stringtrim s.
Proof.
  unfold OutputUHD.stringtrim.
  rewrite list_ascii_of_string_of_list_ascii. f_equal.
  destruct (trim_ends (list_ascii_of_string s)) as [Hfirst Hlast].
  apply trim_fixed; assumption.
Qed.

(** X10. The message handler drops a message exactly when it is neither
    a warning nor an error and consists, white space at its ends apart,
    of a single character; every other message is logged, with its text
    untrimmed behind the prefix of its kind. *)
Theorem uhd_msg_handler_drops_single_characters type msg :
  (OutputUHD.uhd_msg_handler type msg = None
   <-> type <> OutputUHD.msg_warning /\ type <> OutputUHD.msg_error
       /\ String.length (OutputUHD.stringtrim msg) = 1%nat)
  /\ (forall level line,
         OutputUHD.uhd_msg_handler type msg = Some (level, line) ->
         (level, line)
         = match type with
           | OutputUHD.msg_warning =>
               (OutputUHD.log_warn, "UHD Warning: " ++ msg)
           | OutputUHD.msg_error =>
               (OutputUHD.log_error, "UHD Error: " ++ msg)
           | _ => (OutputUHD.log_debug, "UHD Message: " ++ msg)
           end%string).
Proof.
  unfold OutputUHD.uhd_msg_handler. split.
  - destruct type;
      try (split; [discriminate | intros [H1 [H2 _]]; congruence]);
      destruct (Nat.eqb_spec (String.length (OutputUHD.stringtrim msg)) 1)
        as [He|Hne]; cbn [negb];
      (split;
       [ intros H; try discriminate; repeat split; try discriminate;
         assumption
       | intros [_ [_ H]]; try reflexivity; contradiction ]).
  - intros level line H.
    destruct type; try destruct (negb _); try discriminate; congruence.
Qed.

(** ** Remote control of the transmitter *)

(** X11. [set_parameter] ends with a parameter error exactly for the
    names that are not one of [txgain], [rxgain], [freq], [muting] and
    [staticdelay], the read-only counters among them, and then leaves
    the configuration untouched. For the five names it never ends with
    a parameter error, whatever the value. *)
Theorem set_parameter_refuses_all_but_five_names
    tuned myTFDurationMs c parameter value :
  let r := OutputUHD.set_parameter tuned myTFDurationMs c parameter value in
  (is_ParameterError (snd r) = true
   <-> ~ In parameter ["txgain"; "rxgain"; "freq"; "muting"; "staticdelay"]%string)
  /\ (is_ParameterError (snd r) = true -> fst r = c).
Proof.
  cbv zeta. unfold OutputUHD.set_parameter.
  destruct (String.eqb_spec parameter "txgain") as [->|H1].
  { split; [|destruct (OutputUHD.empty value), (OutputUHD.as_double value);
             discriminate].
    split; [|intros H; exfalso; apply H; cbn; tauto].
    destruct (OutputUHD.empty value), (OutputUHD.as_double value);
      discriminate. }
  destruct (String.eqb_spec parameter "rxgain") as [->|H2].
  { split; [|destruct (OutputUHD.empty value), (OutputUHD.as_double value);
             discriminate].
    split; [|intros H; exfalso; apply H; cbn; tauto].
    destruct (OutputUHD.empty value), (OutputUHD.as_double value);
      discriminate. }
  destruct (String.eqb_spec parameter "freq") as [->|H3].
  { split; [|destruct (OutputUHD.empty value), (OutputUHD.as_double value);
             discriminate].
    split; [|intros H; exfalso; apply H; cbn; tauto].
    destruct (OutputUHD.empty value), (OutputUHD.as_double value);
      discriminate. }
  destruct (String.eqb_spec parameter "muting") as [->|H4].
  { split; [|destruct (OutputUHD.empty value), (OutputUHD.as_bool value);
             discriminate].
    split; [|intros H; exfalso; apply H; cbn; tauto].
    destruct (OutputUHD.empty value), (OutputUHD.as_bool value);
      discriminate. }
  destruct (String.eqb_spec parameter "staticdelay") as [->|H5].
  { split; [|destruct (OutputUHD.empty value), (OutputUHD.as_int64 value);
             discriminate].
    split; [|intros H; exfalso; apply H; cbn; tauto].
    destruct (OutputUHD.empty value), (OutputUHD.as_int64 value);
      discriminate. }
  assert (Hnot : ~ In parameter
                     ["txgain"; "rxgain"; "freq"; "muting"; "staticdelay"]%string).
  { cbn. intros [H|[H|[H|[H|[H|[]]]]]]; congruence. }
  destruct (_ || _ || _)%bool; cbn [snd fst is_ParameterError];
    (split; [split; [intros _; exact Hnot | reflexivity] | reflexivity]).
Qed.

(** X12. Static-delay adjustments compose modulo the frame duration.
    With a delay in [0, D] stored, two sets with values between [-D]
    and [D] leave a delay in [0, D] that differs from the old delay
    plus the two values by a multiple of [D]. *)
Theorem staticdelay_adjustments_compose dabMode duration old v1 v2 :
  OutputUHD.transmission_frame_duration_ms dabMode = Ok duration ->
  0 <= old <= duration * 1000 ->
  - (duration * 1000) <= v1 <= duration * 1000 ->
  - (duration * 1000) <= v2 <= duration * 1000 ->
  let d1 := OutputUHD.set_staticdelay duration old v1 in
  let d2 := OutputUHD.set_staticdelay duration d1 v2 in
  0 <= d2 <= duration * 1000
  /\ exists k, d2 = old + v1 + v2 + k * (duration * 1000).
Proof.
  intros Hd Hold Hv1 Hv2 d1 d2.
  apply transmission_frame_duration_range in Hd.
  assert (Hstep : forall o v,
             0 <= o <= duration * 1000 ->
             - (duration * 1000) <= v <= duration * 1000 ->
             0 <= OutputUHD.set_staticdelay duration o v <= duration * 1000
             /\ exists k,
                  OutputUHD.set_staticdelay duration o v
                  = o + v + k * (duration * 1000)).
  { intros o v Ho Hv. unfold OutputUHD.set_staticdelay.
    destruct (v >? duration * 1000) eqn:E1; [lia|].
    rewrite (int32_small (o + v)) by lia.
    destruct (o + v >? duration * 1000) eqn:E2.
    - rewrite int32_small by lia. split; [lia|]. exists (-1). lia.
    - destruct (o + v <? 0) eqn:E3.
      + rewrite int32_small by lia. split; [lia|]. exists 1. lia.
      + split; [lia|]. exists 0. lia. }
  destruct (Hstep old v1 Hold Hv1) as [Hr1 [k1 Hk1]]. fold d1 in Hr1, Hk1.
  destruct (Hstep d1 v2 Hr1 Hv2) as [Hr2 [k2 Hk2]]. fold d2 in Hr2, Hk2.
  split; [exact Hr2|]. exists (k1 + k2). lia.
Qed.

(** ** The static-delay ring *)

(** The delay in bytes is within the delay buffer [SetDelayBuffer]
    allocates, as long as the delay stored is within the frame duration. *)
Lemma noByteDelay_bound c duration :
  0 <= duration <= 96 ->
  0 <= OutputUHD.sampleRate c < 2 ^ 31 ->
  0 <= OutputUHD.staticDelayUs c <= duration * 1000 ->
  0 <= OutputUHD.noByteDelay c
    <= 8 * Z.quot (duration * OutputUHD.sampleRate c) 1000.
Proof.
  intros Hd Hr Hs. unfold OutputUHD.noByteDelay, sizeof_complexf.
  rewrite (Z.quot_div_nonneg (OutputUHD.sampleRate c) 1000) by lia.
  set (r := OutputUHD.sampleRate c / 1000).
  assert (Hr0 : 0 <= r < 2147484).
  { unfold r. split; [apply Z.div_pos; lia|].
    apply Z.div_lt_upper_bound; lia. }
  rewrite !Z.quot_div_nonneg by nia.
  assert (Hq : 0 <= OutputUHD.staticDelayUs c * r / 1000 <= duration * r).
  { split; [apply Z.div_pos; nia|].
    apply Z.div_le_upper_bound; [lia|]. nia. }
  assert (Hdr : duration * r <= duration * OutputUHD.sampleRate c / 1000).
  { apply Z.div_le_lower_bound; [lia|].
    pose proof (Z.mul_div_le (OutputUHD.sampleRate c) 1000 ltac:(lia)).
    fold r in H. nia. }
  rewrite (uint32_small (OutputUHD.staticDelayUs c * r / 1000)) by nia.
  rewrite uint32_small by nia. lia.
Qed.

(** X13. A static delay within the frame duration never makes [process]
    copy outside a buffer: with the delay buffer as [SetDelayBuffer]
    sizes it (one frame) and an input of one frame, the delayed frame is
    built, it has the length of the input, and the delay buffer keeps
    its length. *)
Theorem static_delay_within_a_frame_is_memory_safe
    c dabMode duration (myDelayBuf dataIn : list byte) :
  OutputUHD.transmission_frame_duration_ms dabMode = Ok duration ->
  0 <= OutputUHD.sampleRate c < 2 ^ 31 ->
  0 <= OutputUHD.staticDelayUs c <= duration * 1000 ->
  Z.of_nat (length myDelayBuf)
  = 8 * Z.quot (duration * OutputUHD.sampleRate c) 1000 ->
  length dataIn = length myDelayBuf ->
  exists frame_buf delayBuf,
    OutputUHD.delay_frame c myDelayBuf dataIn = Some (frame_buf, delayBuf)
    /\ length frame_buf = length dataIn
    /\ length delayBuf = length myDelayBuf.
Proof.
  intros Hd Hr Hs Hbuf Hin.
  apply transmission_frame_duration_range in Hd.
  pose proof (noByteDelay_bound c duration Hd Hr Hs) as Hb.
  unfold OutputUHD.delay_frame.
  destruct (OutputUHD.noByteDelay c =? 0) eqn:E; cbn [negb].
  - eexists. eexists. repeat split.
  - assert (Hle : (Z.to_nat (OutputUHD.noByteDelay c)
                   <= length myDelayBuf)%nat) by lia.
    destruct (Nat.leb_spec (Z.to_nat (OutputUHD.noByteDelay c))
                (length dataIn)); [|lia].
    destruct (Nat.leb_spec (Z.to_nat (OutputUHD.noByteDelay c))
                (length myDelayBuf)); [|lia].
    cbn [andb]. eexists. eexists. split; [reflexivity|].
    rewrite !length_app, !length_firstn, !length_skipn. lia.
Qed.

(** X14. The static delay is a ring over consecutive frames: the
    frames handed to the worker for two inputs in a row are, end to end,
    the first [d] bytes of the delay buffer, the first input whole, and
    the second input without its last [d] bytes, which stay in the
    delay buffer for the frame after. *)
Theorem static_delay_ring c buf0 in1 in2 out1 buf1 out2 buf2 :
  OutputUHD.delay_frame c buf0 in1 = Some (out1, buf1) ->
  OutputUHD.delay_frame c buf1 in2 = Some (out2, buf2) ->
  let d := Z.to_nat (OutputUHD.noByteDelay c) in
  out1 ++ out2 = firstn d buf0 ++ in1 ++ firstn (length in2 - d) in2
  /\ firstn d buf2 = skipn (length in2 - d) in2
  /\ length out1 = length in1 /\ length out2 = length in2.
Proof.
  intros H1 H2 d. unfold OutputUHD.delay_frame in H1, H2.
  fold d in H1, H2.
  destruct (OutputUHD.noByteDelay c =? 0) eqn:E; cbn [negb] in H1, H2.
  - apply Z.eqb_eq in E. assert (Hd : d = 0%nat) by (unfold d; lia).
    injection H1 as <- <-. injection H2 as <- <-.
    rewrite Hd, Nat.sub_0_r, firstn_all, skipn_all. repeat split.
  - destruct (Nat.leb_spec d (length in1)) as [Hi1|]; [|discriminate].
    destruct (Nat.leb_spec d (length buf0)) as [Hb0|]; [|discriminate].
    cbn [andb] in H1. injection H1 as <- <-.
    destruct (Nat.leb_spec d (length in2)) as [Hi2|]; [|discriminate].
    destruct (Nat.leb_spec d (length (skipn (length in1 - d) in1
                                      ++ skipn d buf0))) as [Hb1|];
      [|discriminate].
    cbn [andb] in H2. injection H2 as <- <-.
    assert (Hlast : length (skipn (length in1 - d) in1) = d)
      by (rewrite length_skipn; lia).
    assert (Hlast2 : length (skipn (length in2 - d) in2) = d)
      by (rewrite length_skipn; lia).
    repeat split.
    + rewrite (firstn_app d), Hlast, Nat.sub_diag, firstn_O, app_nil_r.
      rewrite (firstn_all2 (skipn (length in1 - d) in1)) by lia.
      rewrite <- !app_assoc. f_equal. rewrite !app_assoc. f_equal.
      apply firstn_skipn.
    + rewrite (firstn_app d), Hlast2, Nat.sub_diag, firstn_O, app_nil_r.
      apply firstn_all2. lia.
    + rewrite length_app, !length_firstn. lia.
    + rewrite length_app, !length_firstn, length_app, Hlast. lia.
Qed.

(** ** The modulator side of the transmitter *)

Section ProcessSteps.

Context {TA : TimestampArith}.

Lemma delay_frame_length c myDelayBuf dataIn frame_buf delayBuf :
  OutputUHD.delay_frame c myDelayBuf dataIn = Some (frame_buf, delayBuf) ->
  length frame_buf = length dataIn.
Proof.
  unfold OutputUHD.delay_frame.
  destruct (negb _); [|intros H; injection H as <- _; reflexivity].
  destruct (Nat.leb_spec (Z.to_nat (OutputUHD.noByteDelay c))
              (length dataIn)) as [Hi|]; [|discriminate].
  destruct (Nat.leb_spec (Z.to_nat (OutputUHD.noByteDelay c))
              (length myDelayBuf)) as [Hb|]; [|discriminate].
  cbn [andb]. intros H. injection H as <- _.
  rewrite length_app, !length_firstn. lia.
Qed.

(** X15. Until the GPS fix is verified, [process] throws its input
    away: nothing is queued, nothing enters the delay buffer, the
    feedback is not called, and the call neither waits nor copies; when
    it returns, it returns the length of the input as an [int]. The
    call that verifies the fix is the one that clears [muting]. *)
Theorem process_discards_frames_until_the_gps_fix env st dataIn :
  OutputUHD.gps_fix_verified st = false ->
  let o := OutputUHD.process env st dataIn in
  OutputUHD.frames_after st o = OutputUHD.frames st
  /\ (forall st' frame, o <> OutputUHD.ProcessWaiting st' frame)
  /\ o <> OutputUHD.ProcessUndefined
  /\ forall st' ret,
       o = OutputUHD.ProcessReturned st' ret ->
       ret = int32 (Z.of_nat (length dataIn))
       /\ OutputUHD.frames st' = OutputUHD.frames st
       /\ OutputUHD.myDelayBuf st' = OutputUHD.myDelayBuf st
       /\ OutputUHD.uhdFeedback st' = OutputUHD.uhdFeedback st
       /\ (OutputUHD.gps_fix_verified st' = true ->
           OutputUHD.muting (OutputUHD.myConf st') = false).
Proof.
  intros Hv. cbv zeta. unfold OutputUHD.process, OutputUHD.verify_gps_fix.
  rewrite Hv. cbn [negb].
  repeat match goal with
         | |- context [match ?x with _ => _ end] => destruct x
         end;
    (split; [reflexivity|]; split; [discriminate|];
     split; [discriminate|]; intros st' ret H; try discriminate;
     injection H as <- <-; repeat split; try reflexivity;
     cbn [OutputUHD.gps_fix_verified]; congruence).
Qed.

(** The steady state: the fix is verified, the threads run, the input
    has the length of the first one, the clock supervisor is content,
    and the delayed frame can be built. *)
Lemma process_steady_state env st dataIn frame_buf delayBuf :
  OutputUHD.gps_fix_verified st = true ->
  OutputUHD.first_run st = false ->
  OutputUHD.lastLen st = Z.of_nat (length dataIn) ->
  OutputUHD.delay_frame (OutputUHD.myConf st) (OutputUHD.myDelayBuf st) dataIn
  = Some (frame_buf, delayBuf) ->
  OutputUHD.process env st dataIn
  = let contains :=
      OutputUHD.enableSync (OutputUHD.myConf st)
      && OutputUHD.eti_sourceContainsTimestamp env in
    let still_running :=
      if OutputUHD.gpsfix_needs_check (OutputUHD.myConf st) then
        match OutputUHD.check_gps_result env with
        | Throw _ => false
        | Ok _ => OutputUHD.running st
        end
      else OutputUHD.running st in
    let frame := OutputUHD.mk_frame frame_buf (OutputUHD.eti_timestamp env) in
    let st1 r fr q fb :=
      OutputUHD.mk_uhd (OutputUHD.myConf st) (OutputUHD.myTFDurationMs st)
        delayBuf (OutputUHD.gps_fix_verified st) fr r (OutputUHD.lastLen st)
        contains q fb in
    if negb (still_running && OutputUHD.worker_running env) then
      OutputUHD.ProcessThrown
        (st1 false true (OutputUHD.frames st) (OutputUHD.uhdFeedback st))
        (runtime_error "UHD worker failed")
    else if fct (OutputUHD.eti_timestamp env) =? -1 then
      OutputUHD.ProcessReturned
        (st1 true false (OutputUHD.frames st) (OutputUHD.uhdFeedback st))
        (int32 (Z.of_nat (length dataIn)))
    else
      let pushed fb :=
        match ThreadsafeQueue.push_wait_if_full (OutputUHD.frames st) frame
                OutputUHD.FRAMES_MAX_SIZE with
        | Some q =>
            OutputUHD.ProcessReturned (st1 true false q fb)
              (int32 (Z.of_nat (length dataIn)))
        | None =>
            OutputUHD.ProcessWaiting
              (st1 true false (OutputUHD.frames st) fb) frame
        end in
      match OutputUHDFeedback.set_tx_frame (OutputUHD.uhdFeedback st)
              frame_buf (OutputUHD.eti_timestamp env) with
      | Ok fb => pushed fb
      | Throw (runtime_error _) =>
          pushed (OutputUHDFeedback.make
                    (OutputUHD.dpdFeedbackServerPort (OutputUHD.myConf st))
                    (OutputUHD.sampleRate (OutputUHD.myConf st)))
      | Throw e =>
          OutputUHD.ProcessThrown
            (st1 true false (OutputUHD.frames st) (OutputUHD.uhdFeedback st))
            e
      end.
Proof.
  intros Hv Hfr Hlen Hdelay.
  assert (He : (OutputUHD.lastLen st =? Z.of_nat (length dataIn)) = true)
    by (apply Z.eqb_eq; exact Hlen).
  destruct st as [conf duration buf verified fr running lastLen contains q fb].
  cbn [OutputUHD.gps_fix_verified OutputUHD.first_run OutputUHD.lastLen
       OutputUHD.myConf OutputUHD.myDelayBuf] in Hv, Hfr, He, Hdelay.
  subst verified fr.
  unfold OutputUHD.process, OutputUHD.initialise, OutputUHD.process_frame.
  cbn [OutputUHD.gps_fix_verified OutputUHD.first_run OutputUHD.lastLen
       OutputUHD.myConf OutputUHD.myDelayBuf OutputUHD.running
       OutputUHD.frames OutputUHD.uhdFeedback OutputUHD.myTFDurationMs
       negb].
  rewrite He, Hdelay. reflexivity.
Qed.

(** X16. In the steady state a frame whose count is not -1 is queued
    whether or not the feedback server works: if the feedback is not
    running it is replaced by a new one and the frame is queued all the
    same. Only a running feedback handed a frame that is not a whole
    number of samples makes [process] throw, and then the frame is not
    queued. *)
Theorem process_queues_the_frame_whatever_the_feedback
    env st dataIn frame_buf delayBuf :
  OutputUHD.gps_fix_verified st = true ->
  OutputUHD.first_run st = false ->
  OutputUHD.lastLen st = Z.of_nat (length dataIn) ->
  OutputUHD.delay_frame (OutputUHD.myConf st) (OutputUHD.myDelayBuf st) dataIn
  = Some (frame_buf, delayBuf) ->
  OutputUHD.running st = true ->
  OutputUHD.worker_running env = true ->
  (OutputUHD.gpsfix_needs_check (OutputUHD.myConf st) = true ->
   OutputUHD.check_gps_result env = Ok tt) ->
  fct (OutputUHD.eti_timestamp env) <> -1 ->
  (length (OutputUHD.frames st) < 8)%nat ->
  let o := OutputUHD.process env st dataIn in
  let fb := OutputUHD.uhdFeedback st in
  let frame := OutputUHD.mk_frame frame_buf (OutputUHD.eti_timestamp env) in
  (OutputUHDFeedback.m_running fb = false ->
   exists st',
     o = OutputUHD.ProcessReturned st' (int32 (Z.of_nat (length dataIn)))
     /\ OutputUHD.frames st' = OutputUHD.frames st ++ [frame]
     /\ OutputUHD.uhdFeedback st'
        = OutputUHDFeedback.make
            (OutputUHD.dpdFeedbackServerPort (OutputUHD.myConf st))
            (OutputUHD.sampleRate (OutputUHD.myConf st)))
  /\ (OutputUHDFeedback.m_running fb = true ->
      Z.of_nat (length dataIn) mod 8 = 0 ->
      exists st',
        o = OutputUHD.ProcessReturned st' (int32 (Z.of_nat (length dataIn)))
        /\ OutputUHD.frames st' = OutputUHD.frames st ++ [frame]
        /\ OutputUHDFeedback.set_tx_frame fb frame_buf
             (OutputUHD.eti_timestamp env)
           = Ok (OutputUHD.uhdFeedback st'))
  /\ (OutputUHDFeedback.m_running fb = true ->
      Z.of_nat (length dataIn) mod 8 <> 0 ->
      exists st',
        o = OutputUHD.ProcessThrown st'
              (logic_error "Buffer for tx frame has incorrect size")
        /\ OutputUHD.frames st' = OutputUHD.frames st).
Proof.
  intros Hv Hfr Hlen Hdelay Hrun Hwork Hgps Hfct Hq o fb frame.
  unfold o. rewrite (process_steady_state env st dataIn frame_buf delayBuf)
    by assumption.
  cbv zeta.
  assert (Hstill : (if OutputUHD.gpsfix_needs_check (OutputUHD.myConf st)
                    then match OutputUHD.check_gps_result env with
                         | Ok _ => OutputUHD.running st
                         | Throw _ => false
                         end
                    else OutputUHD.running st) = true).
  { destruct (OutputUHD.gpsfix_needs_check (OutputUHD.myConf st));
      [rewrite Hgps by reflexivity|]; exact Hrun. }
  rewrite Hstill, Hwork. cbn [andb negb].
  destruct (fct (OutputUHD.eti_timestamp env) =? -1) eqn:Ef;
    [apply Z.eqb_eq in Ef; contradiction|].
  unfold ThreadsafeQueue.push_wait_if_full, OutputUHD.FRAMES_MAX_SIZE.
  destruct (Z.of_nat (length (OutputUHD.frames st)) <? 8) eqn:Eq;
    [|apply Z.ltb_ge in Eq; lia].
  pose proof (delay_frame_length _ _ _ _ _ Hdelay) as Hfl.
  unfold OutputUHDFeedback.set_tx_frame, sizeof_complexf. fold fb.
  rewrite Hfl.
  split; [|split].
  - intros Hm. rewrite Hm. cbn [negb]. eexists. repeat split.
  - intros Hm Hmod. rewrite Hm, Hmod. cbn [negb Z.eqb].
    destruct (OutputUHDFeedback.state (OutputUHDFeedback.burstRequest fb));
      eexists; repeat split.
  - intros Hm Hmod. rewrite Hm. cbn [negb].
    destruct (Z.of_nat (length dataIn) mod 8 =? 0) eqn:E;
      [apply Z.eqb_eq in E; contradiction|].
    cbn [negb]. eexists. repeat split.
Qed.

(** X17. Once the transmit thread has ended, or the clock supervisor
    has reported the loss of the GPS fix, [process] stops the output: it
    throws "UHD worker failed", queues nothing, and arms [first_run] so
    that the next call starts the threads again. *)
Theorem process_stops_when_the_worker_has_ended
    env st dataIn frame_buf delayBuf :
  OutputUHD.gps_fix_verified st = true ->
  OutputUHD.first_run st = false ->
  OutputUHD.lastLen st = Z.of_nat (length dataIn) ->
  OutputUHD.delay_frame (OutputUHD.myConf st) (OutputUHD.myDelayBuf st) dataIn
  = Some (frame_buf, delayBuf) ->
  OutputUHD.running st = false
  \/ OutputUHD.worker_running env = false
  \/ (OutputUHD.gpsfix_needs_check (OutputUHD.myConf st) = true
      /\ exists e, OutputUHD.check_gps_result env = Throw e) ->
  exists st',
    OutputUHD.process env st dataIn
    = OutputUHD.ProcessThrown st' (runtime_error "UHD worker failed")
    /\ OutputUHD.first_run st' = true
    /\ OutputUHD.running st' = false
    /\ OutputUHD.frames st' = OutputUHD.frames st
    /\ OutputUHD.uhdFeedback st' = OutputUHD.uhdFeedback st.
Proof.
  intros Hv Hfr Hlen Hdelay Hstop.
  rewrite (process_steady_state env st dataIn frame_buf delayBuf)
    by assumption.
  cbv zeta.
  assert (Hnot : (if OutputUHD.gpsfix_needs_check (OutputUHD.myConf st)
                  then match OutputUHD.check_gps_result env with
                       | Ok _ => OutputUHD.running st
                       | Throw _ => false
                       end
                  else OutputUHD.running st)
                 && OutputUHD.worker_running env = false).
  { destruct Hstop as [Hr | [Hw | [Hg [e He]]]].
    - rewrite Hr.
      destruct (OutputUHD.gpsfix_needs_check _);
        [destruct (OutputUHD.check_gps_result env)|]; reflexivity.
    - rewrite Hw. apply andb_false_r.
    - rewrite Hg, He. reflexivity. }
  rewrite Hnot. cbn [negb]. eexists. repeat split.
Qed.

End ProcessSteps.

(** ** The transmit thread *)

Section HandleFrame.

Context {DA : DoubleArith}.

Variable TIMESTAMP_ABORT_FUTURE : Q.
Variable conf : OutputUHD.OutputUHDConfig.
Variable sct : bool.                  (* sourceContainsTimestamp *)

(** The part of [handle_frame] after the reference-clock check neither
    touches the flag that suppresses the check nor reports a loss of the
    reference clock. *)
Lemma handle_frame_body_refclk st frame env st1 evs o :
  OutputUHD.handle_frame_body TIMESTAMP_ABORT_FUTURE conf sct st frame env
  = (st1, evs, o) ->
  OutputUHD.suppress_refclk_loss_check st1
  = OutputUHD.suppress_refclk_loss_check st
  /\ o <> OutputUHD.Thrown
            (runtime_error "OutputUHD: External reference clock lock lost.").
Proof.
  unfold OutputUHD.handle_frame_body. cbv beta zeta. intros H.
  repeat match type of H with
         | context [match ?x with _ => _ end] => destruct x
         end;
    injection H as <- _ <-; split; try reflexivity; discriminate.
Qed.

(** X18. [handle_frame] reports the loss of the reference clock exactly
    when the check is not suppressed, the reference clock is not the
    internal one, the sensor says unlocked, and the configured
    behaviour is to crash; nothing is sent then. When the device has no
    such sensor the check is suppressed from then on, and a suppressed
    check stays suppressed and ignores the sensor. *)
Theorem refclk_loss_is_reported_exactly_when st frame env :
  let r :=
    OutputUHD.handle_frame TIMESTAMP_ABORT_FUTURE conf sct st frame env in
  let lost :=
    OutputUHD.Thrown
      (runtime_error "OutputUHD: External reference clock lock lost.") in
  (snd r = lost
   <-> OutputUHD.suppress_refclk_loss_check st = false
       /\ OutputUHD.refclk_src conf <> "internal"%string
       /\ OutputUHD.ref_locked env = Some false
       /\ OutputUHD.refclk_lock_loss_behaviour conf = OutputUHD.CRASH)
  /\ (snd r = lost -> snd (fst r) = [])
  /\ (OutputUHD.suppress_refclk_loss_check st = false ->
      OutputUHD.refclk_src conf <> "internal"%string ->
      OutputUHD.ref_locked env = None ->
      OutputUHD.suppress_refclk_loss_check (fst (fst r)) = true)
  /\ (OutputUHD.suppress_refclk_loss_check st = true ->
      r = OutputUHD.handle_frame_body TIMESTAMP_ABORT_FUTURE conf sct
            st frame env
      /\ OutputUHD.suppress_refclk_loss_check (fst (fst r)) = true).
Proof.
  cbv zeta. unfold OutputUHD.handle_frame, OutputUHD.refclk_loss_needs_check.
  assert (Hbody : forall st0,
             let b :=
               OutputUHD.handle_frame_body TIMESTAMP_ABORT_FUTURE conf sct
                 st0 frame env in
             OutputUHD.suppress_refclk_loss_check (fst (fst b))
             = OutputUHD.suppress_refclk_loss_check st0
             /\ snd b <> OutputUHD.Thrown
                           (runtime_error
                              "OutputUHD: External reference clock lock lost.")).
  { intros st0. cbv zeta.
    destruct (OutputUHD.handle_frame_body _ _ _ st0 frame env)
      as [[st1 evs] o] eqn:Hb.
    exact (handle_frame_body_refclk _ _ _ _ _ _ Hb). }
  assert (Hsup : forall st0,
             OutputUHD.suppress_refclk_loss_check
               (OutputUHD.set_suppress st0) = true) by reflexivity.
  destruct (OutputUHD.suppress_refclk_loss_check st) eqn:Hs;
    [|destruct (String.eqb_spec (OutputUHD.refclk_src conf) "internal")
        as [Hi|Hi]; cbn [negb];
      [|destruct (OutputUHD.ref_locked env) as [[|]|] eqn:Hl;
        [|destruct (OutputUHD.refclk_lock_loss_behaviour conf) eqn:Hbeh|]]];
    try (destruct (Hbody st) as [Hk Hn]);
    try (destruct (Hbody (OutputUHD.set_suppress st)) as [Hk' Hn']);
    cbv zeta in *; cbn [fst snd];
    repeat split; intros; try congruence;
    match goal with
    | H : _ /\ _ /\ _ /\ _ |- _ =>
        destruct H as (? & ? & ? & ?); exfalso; congruence
    end.
Qed.

(** X19. With time stamps in use, a frame is dropped when its time
    plus twenty seconds is before the device's time, and the call throws
    when its time is after the device's time plus
    [TIMESTAMP_ABORT_FUTURE]; the times are compared as the doubles the
    code computes, each sum rounded. In both cases nothing is sent or
    slept, and the frame's stamp is remembered as the last one, the
    reference for the stamp expected of the next frame. *)
Theorem stale_and_far_timestamps st frame env discontinuity :
  sct = true ->
  timestamp_valid (OutputUHD.ts frame) = true ->
  OutputUHD.timestamp_discontinuity conf st frame = Some discontinuity ->
  let tx_second := uint32 (timestamp_sec (OutputUHD.ts frame)) in
  let tx_pps := uint32 (timestamp_pps (OutputUHD.ts frame)) in
  let t :=
    to_double (inject_Z tx_second
               + to_double (inject_Z tx_pps / inject_Z 16384000)) in
  let st' := OutputUHD.set_last_tx st tx_second tx_pps in
  let r :=
    OutputUHD.handle_frame_body TIMESTAMP_ABORT_FUTURE conf sct
      st frame env in
  OutputUHD.last_tx_second st' = tx_second
  /\ OutputUHD.last_tx_pps st' = tx_pps
  /\ OutputUHD.last_tx_time_initialised st' = true
  /\ ((to_double (t + 20) < OutputUHD.usrp_time env)%Q ->
      r = (st', [], OutputUHD.Returned))
  /\ ((OutputUHD.usrp_time env <= to_double (t + 20))%Q ->
      (to_double (OutputUHD.usrp_time env + TIMESTAMP_ABORT_FUTURE) < t)%Q ->
      r = (st', [],
           OutputUHD.Thrown (runtime_error "Timestamp error. Aborted."))).
Proof.
  intros Hsct Hvalid Hdisc. cbv zeta. subst sct.
  unfold OutputUHD.handle_frame_body. cbv beta zeta.
  rewrite Hvalid, Hdisc. cbn [negb].
  unfold OutputUHD.real_secs, OutputUHD.time_spec.
  cbn [OutputUHD.set_last_tx OutputUHD.last_tx_second OutputUHD.last_tx_pps
       OutputUHD.last_tx_time_initialised].
  repeat split.
  - intros Hpast.
    destruct (Qlt_le_dec _ _) as [_|Hge]; [reflexivity|].
    exfalso. exact (Qlt_not_le _ _ Hpast Hge).
  - intros Hnot Hfar.
    destruct (Qlt_le_dec _ (OutputUHD.usrp_time env)) as [Hlt|_].
    + exfalso. exact (Qlt_not_le _ _ Hlt Hnot).
    + destruct (Qlt_le_dec _ _) as [_|Hge]; [reflexivity|].
      exfalso. exact (Qlt_not_le _ _ Hfar Hge).
Qed.

End HandleFrame.

(** ** The chunks of a frame *)

Section Chunks.

Variable conf : OutputUHD.OutputUHDConfig.
Variable sct : bool.
Variable env : OutputUHD.tx_env.
Variable md : OutputUHD.tx_metadata_t.
Variable frame : OutputUHD.UHDWorkerFrameData.
Variable ts_update : bool.

(** X20. With a driver that never reports more samples than it was
    given, [tx_frame] never hands it samples outside the frame: the
    chunks start at sample 0, each starts where the samples taken so
    far end, none reaches beyond the frame, and the samples taken add
    up to at most the frame's sample count. *)
Theorem tx_frame_stays_within_the_frame :
  (forall i n, 0 <= n -> uint64 (OutputUHD.send_at env i n) <= n) ->
  exists evs,
    OutputUHD.tx_frame conf sct env md frame ts_update = Some evs
    /\ OutputUHD.chunks_within (OutputUHD.sizeIn_of frame) 0 evs
    /\ 0 <= OutputUHD.total_sent evs <= OutputUHD.sizeIn_of frame.
Proof.
  intros Hhonest. unfold OutputUHD.tx_frame.
  pose proof (sizeIn_of_range frame) as Hsize.
  destruct (tx_loop_honest conf sct env md frame ts_update
              (S (Z.to_nat (OutputUHD.sizeIn_of frame))) Hhonest 0%nat 0)
    as [evs (Hevs & Hw & Ht & Hs & _)]; [lia | lia |].
  exists evs. split; [exact Hevs|]. split; [exact Hw|]. lia.
Qed.

(** While the thread runs unmuted and the driver takes all it is given,
    the loop goes on to the end of the frame. *)
Lemma tx_loop_complete fuel :
  (forall i, OutputUHD.running_at env i = true) ->
  (forall i, OutputUHD.muting_at env i = false) ->
  0 < uint64 (OutputUHD.max_num_samps env) ->
  (forall i n, 0 <= n < 2 ^ 64 -> OutputUHD.send_at env i n = n) ->
  forall i acc evs,
    0 <= acc <= OutputUHD.sizeIn_of frame ->
    OutputUHD.tx_loop conf sct env md frame ts_update fuel i acc = Some evs ->
    acc + OutputUHD.total_sent evs = OutputUHD.sizeIn_of frame
    /\ Forall (fun e =>
                 match e with
                 | OutputUHD.Send _ samps_to_send _ _ _ num_tx_samps =>
                     num_tx_samps = samps_to_send /\ 0 < samps_to_send
                 | OutputUHD.Usleep _ => False
                 end) evs.
Proof.
  intros Hrun Hmute Hmax Hall.
  pose proof (sizeIn_of_range frame) as Hsize.
  induction fuel as [|fuel IH]; intros i acc evs Hacc H.
  - cbn [OutputUHD.tx_loop] in H. cbv zeta in H.
    rewrite Hrun, Hmute in H. cbn [negb andb] in H.
    destruct (acc <? OutputUHD.sizeIn_of frame) eqn:Hlt; [discriminate|].
    apply Z.ltb_ge in Hlt. injection H as <-. cbn. split; [lia|constructor].
  - cbn [OutputUHD.tx_loop] in H. cbv zeta in H.
    rewrite Hrun, Hmute in H. cbn [negb andb] in H.
    destruct (acc <? OutputUHD.sizeIn_of frame) eqn:Hlt.
    2:{ apply Z.ltb_ge in Hlt. injection H as <-. cbn.
        split; [lia|constructor]. }
    apply Z.ltb_lt in Hlt.
    pose proof (uint64_range (OutputUHD.max_num_samps env)) as Hm.
    set (n := Z.min (OutputUHD.sizeIn_of frame - acc)
                    (uint64 (OutputUHD.max_num_samps env))) in *.
    assert (Hn : 0 < n <= OutputUHD.sizeIn_of frame - acc)
      by (unfold n; lia).
    assert (Hn64 : 0 <= n < 2 ^ 64) by (unfold n; lia).
    rewrite (Hall i n Hn64), (uint64_small n Hn64) in H.
    rewrite (uint64_small (acc + n)) in H by lia.
    destruct (n =? 0) eqn:Hz; [lia|].
    destruct (OutputUHD.tx_loop conf sct env md frame ts_update fuel
                (S i) (acc + n)) as [rest|] eqn:Hrest; [|discriminate].
    injection H as <-.
    apply IH in Hrest; [|lia]. destruct Hrest as [Ht Hf].
    cbn [OutputUHD.total_sent fold_right OutputUHD.num_tx_samps_of].
    fold (OutputUHD.total_sent rest).
    split; [lia|]. constructor; [split; [reflexivity | lia] | exact Hf].
Qed.

(** X21. While the thread runs, the output is not muted and the driver
    takes every chunk whole, [tx_frame] delivers the whole frame: the
    samples taken add up to the frame's sample count, and no chunk is
    empty. *)
Theorem tx_frame_delivers_the_whole_frame :
  (forall i, OutputUHD.running_at env i = true) ->
  (forall i, OutputUHD.muting_at env i = false) ->
  0 < uint64 (OutputUHD.max_num_samps env) ->
  (forall i n, 0 <= n < 2 ^ 64 -> OutputUHD.send_at env i n = n) ->
  exists evs,
    OutputUHD.tx_frame conf sct env md frame ts_update = Some evs
    /\ OutputUHD.total_sent evs = OutputUHD.sizeIn_of frame
    /\ Forall (fun e =>
                 match e with
                 | OutputUHD.Send _ samps_to_send _ _ _ num_tx_samps =>
                     num_tx_samps = samps_to_send /\ 0 < samps_to_send
                 | OutputUHD.Usleep _ => False
                 end) evs.
Proof.
  intros Hrun Hmute Hmax Hall. unfold OutputUHD.tx_frame.
  pose proof (sizeIn_of_range frame) as Hsize.
  assert (Hhonest : forall i n,
             0 <= n -> uint64 (OutputUHD.send_at env i n) <= n).
  { intros i n Hn.
    destruct (Z_lt_ge_dec n (2 ^ 64)) as [Hlt|Hge].
    - rewrite Hall, uint64_small by lia. lia.
    - pose proof (uint64_range (OutputUHD.send_at env i n)). lia. }
  destruct (tx_loop_honest conf sct env md frame ts_update
              (S (Z.to_nat (OutputUHD.sizeIn_of frame))) Hhonest 0%nat 0)
    as [evs (Hevs & _)]; [lia | lia |].
  exists evs. split; [exact Hevs|].
  destruct (tx_loop_complete _ Hrun Hmute Hmax Hall _ _ _
              ltac:(split; [apply Z.le_refl | lia]) Hevs)
    as [Ht Hf].
  split; [lia | exact Hf].
Qed.

End Chunks.

(** ** The counters of asynchronous events *)

(** X22. Over any sequence of turns of the loop of
    [print_async_thread], the underflow counter grows by the number of
    underflow events received and the late-packet counter by the number
    of time errors, both modulo 2^64; time-outs, acknowledgements and
    the events reported as failures (among them an underflow inside a
    packet) leave both counters alone. *)
Theorem async_counters_count_their_events
    (c : OutputUHD.counters) (received : list (option OutputUHD.event_code_t)) :
  0 <= OutputUHD.num_underflows c < 2 ^ 64 ->
  0 <= OutputUHD.num_late_packets c < 2 ^ 64 ->
  let c' :=
    fold_left (fun c r => fst (OutputUHD.print_async_step c r)) received c in
  let underflows :=
    filter (fun r => match r with
                     | Some OutputUHD.EVENT_CODE_UNDERFLOW => true
                     | _ => false
                     end) received in
  let time_errors :=
    filter (fun r => match r with
                     | Some OutputUHD.EVENT_CODE_TIME_ERROR => true
                     | _ => false
                     end) received in
  OutputUHD.num_underflows c'
  = uint64 (OutputUHD.num_underflows c + Z.of_nat (length underflows))
  /\ OutputUHD.num_late_packets c'
     = uint64 (OutputUHD.num_late_packets c + Z.of_nat (length time_errors)).
Proof.
  cbv zeta. revert c.
  induction received as [|r received IH]; intros c Hu Hl.
  - cbn [fold_left filter length Z.of_nat]. rewrite !Z.add_0_r.
    rewrite !uint64_small by assumption. split; reflexivity.
  - cbn [fold_left filter].
    destruct r as [[| | | | | |]|];
      cbn [OutputUHD.print_async_step OutputUHD.handle_async_event fst
           length];
      try (exact (IH c Hu Hl)).
    + destruct (IH (OutputUHD.mk_counters
                      (uint64 (OutputUHD.num_underflows c + 1))
                      (OutputUHD.num_late_packets c))) as [H1 H2];
        [apply uint64_range | exact Hl |].
      cbn [OutputUHD.num_underflows OutputUHD.num_late_packets] in H1, H2.
      rewrite H1, H2. split; [|reflexivity].
      unfold uint64. rewrite Zplus_mod_idemp_l. f_equal. lia.
    + destruct (IH (OutputUHD.mk_counters
                      (OutputUHD.num_underflows c)
                      (uint64 (OutputUHD.num_late_packets c + 1))))
        as [H1 H2]; [exact Hu | apply uint64_range |].
      cbn [OutputUHD.num_underflows OutputUHD.num_late_packets] in H1, H2.
      rewrite H1, H2. split; [reflexivity|].
      unfold uint64. rewrite Zplus_mod_idemp_l. f_equal. lia.
Qed.

(** ** The clock supervisor *)

Section Holdover.

Variable gps_fix_check_interval : Z.

(** X23. One call of [check_gps] that reads the clock, with a holdover
    time that is not negative and a count of checks that does not
    overflow: the call ends with an exception exactly when a check is
    due, the sensor task has delivered "no fix", and the check interval
    times the failures counted so far, this one included, exceeds the
    holdover time. A delivered fix sets the count back to zero; a
    failure adds one; and when no check is due, or the task has not
    delivered yet, the count is left alone. *)
Theorem gps_holdover_is_counted_in_failed_checks
    (c : OutputUHD.OutputUHDConfig) (st : OutputUHD.gps_state)
    (env : OutputUHD.gps_env) (time_now : Z) :
  OutputUHD.clock_monotonic env = Some time_now ->
  0 <= OutputUHD.maxGPSHoldoverTime c ->
  0 <= gps_fix_check_interval ->
  0 <= OutputUHD.num_checks_without_gps_fix st ->
  OutputUHD.num_checks_without_gps_fix st + 1 < 2 ^ 31 ->
  gps_fix_check_interval * (OutputUHD.num_checks_without_gps_fix st + 1)
  < 2 ^ 31 ->
  let r := OutputUHD.check_gps gps_fix_check_interval c st env in
  let collected :=
    OutputUHD.gpsfix_needs_check c = true
    /\ (inject_Z (OutputUHD.last_gps_fix_check st)
        + inject_Z gps_fix_check_interval / 2 < inject_Z time_now)%Q
    /\ OutputUHD.gps_fix_task_joinable st = true in
  (snd r <> None
   <-> collected
       /\ OutputUHD.gps_fix_future env = Some false
       /\ gps_fix_check_interval
          * (OutputUHD.num_checks_without_gps_fix st + 1)
          > OutputUHD.maxGPSHoldoverTime c)
  /\ (collected -> OutputUHD.gps_fix_future env = Some true ->
      OutputUHD.num_checks_without_gps_fix (fst r) = 0)
  /\ (collected -> OutputUHD.gps_fix_future env = Some false ->
      OutputUHD.num_checks_without_gps_fix (fst r)
      = OutputUHD.num_checks_without_gps_fix st + 1)
  /\ (~ (collected /\ OutputUHD.gps_fix_future env <> None) ->
      OutputUHD.num_checks_without_gps_fix (fst r)
      = OutputUHD.num_checks_without_gps_fix st).
Proof.
  intros Hclock Hmax Hint Hn Hn1 Hprod. cbv zeta.
  unfold OutputUHD.check_gps. rewrite Hclock.
  destruct (OutputUHD.gpsfix_needs_check c); cbn [andb].
  2:{ cbn [fst snd]. repeat split; intros; try congruence;
      try (exfalso; intuition congruence). }
  destruct (Qlt_le_dec _ _) as [Hdue|Hnot].
  2:{ cbn [fst snd].
      repeat split; intros; try congruence;
        try (exfalso;
             match goal with
             | H : _ /\ _ |- _ =>
                 destruct H as (_ & H & _);
                 exact (Qlt_not_le _ _ H Hnot)
             | H : (_ /\ _) /\ _ |- _ =>
                 destruct H as ((_ & H & _) & _);
                 exact (Qlt_not_le _ _ H Hnot)
             end). }
  destruct (OutputUHD.gps_fix_task_joinable st).
  2:{ cbn [fst snd OutputUHD.num_checks_without_gps_fix].
      repeat split; intros; try congruence;
        try (exfalso; intuition congruence). }
  destruct (OutputUHD.gps_fix_future env) as [[|]|]; cbv zeta;
    rewrite ?(int32_small (OutputUHD.num_checks_without_gps_fix st + 1))
      by lia;
    rewrite ?(int32_small
                (gps_fix_check_interval
                 * (OutputUHD.num_checks_without_gps_fix st + 1))) by nia;
    rewrite ?Z.mul_0_r, ?(int32_small 0) by lia;
    cbn [fst snd OutputUHD.num_checks_without_gps_fix].
  - destruct (0 >? OutputUHD.maxGPSHoldoverTime c) eqn:Hgt;
      [apply Z.gtb_lt in Hgt; lia|].
    repeat split; intros; try congruence;
      try (exfalso; intuition congruence).
  - destruct (_ >? _) eqn:Hgt.
    + apply Z.gtb_lt in Hgt.
      repeat split; intros; try congruence; try lia;
        try (exfalso; intuition congruence).
    + assert (~ gps_fix_check_interval
                * (OutputUHD.num_checks_without_gps_fix st + 1)
                > OutputUHD.maxGPSHoldoverTime c).
      { intros Hc. apply Z.gt_lt in Hc. apply Z.gtb_lt in Hc. congruence. }
      repeat split; intros; try congruence;
        try (exfalso; intuition congruence).
  - repeat split; intros; try congruence;
      try (exfalso; intuition congruence).
Qed.

End Holdover.

(** ** The capture of a transmit burst *)

Section Capture.

Context {TA : TimestampArith} {DA : DoubleArith}.

(** When the threads run and the frame is a whole number of samples,
    [set_tx_frame] returns. *)
Lemma set_tx_frame_returns
    (fb : OutputUHDFeedback.feedback) (buf : list byte)
    (buf_ts : frame_timestamp) :
  OutputUHDFeedback.m_running fb = true ->
  Z.of_nat (length buf) mod 8 = 0 ->
  exists fb',
    OutputUHDFeedback.set_tx_frame fb buf buf_ts = Ok fb'
    /\ OutputUHDFeedback.m_running fb' = true
    /\ OutputUHDFeedback.m_port fb' = OutputUHDFeedback.m_port fb
    /\ OutputUHDFeedback.m_sampleRate fb'
       = OutputUHDFeedback.m_sampleRate fb
    /\ OutputUHDFeedback.rx_samples (OutputUHDFeedback.burstRequest fb')
       = OutputUHDFeedback.rx_samples (OutputUHDFeedback.burstRequest fb)
    /\ (OutputUHDFeedback.state (OutputUHDFeedback.burstRequest fb)
        <> BurstRequestState.SaveTransmitFrame -> fb' = fb).
Proof.
  intros Hrun Hmod. apply Z.eqb_eq in Hmod.
  unfold OutputUHDFeedback.set_tx_frame, sizeof_complexf.
  rewrite Hrun, Hmod. cbn [negb]. cbv zeta.
  destruct (OutputUHDFeedback.state (OutputUHDFeedback.burstRequest fb));
    eexists; (split; [reflexivity|]);
    cbn [OutputUHDFeedback.m_running OutputUHDFeedback.m_port
         OutputUHDFeedback.m_sampleRate OutputUHDFeedback.burstRequest
         OutputUHDFeedback.rx_samples];
    repeat split; try assumption; intros; congruence.
Qed.

(** X24. [set_tx_frame] throws a [runtime_error] exactly when the
    feedback threads do not run, and a [logic_error] exactly when they
    run and the frame is not a whole number of samples, whatever the
    state of the request. When it returns, the flags, the port, the
    sample rate and the received samples are as before, and outside the
    state [SaveTransmitFrame] so is the whole request. *)
Theorem set_tx_frame_errors_and_frame
    (fb : OutputUHDFeedback.feedback) (buf : list byte)
    (buf_ts : frame_timestamp) :
  let r := OutputUHDFeedback.set_tx_frame fb buf buf_ts in
  (r = Throw (runtime_error "OutputUHDFeedback not running")
   <-> OutputUHDFeedback.m_running fb = false)
  /\ (r = Throw (logic_error "Buffer for tx frame has incorrect size")
      <-> OutputUHDFeedback.m_running fb = true
          /\ Z.of_nat (length buf) mod 8 <> 0)
  /\ (OutputUHDFeedback.m_running fb = true ->
      Z.of_nat (length buf) mod 8 = 0 ->
      exists fb',
        r = Ok fb'
        /\ OutputUHDFeedback.m_running fb' = true
        /\ OutputUHDFeedback.m_port fb' = OutputUHDFeedback.m_port fb
        /\ OutputUHDFeedback.m_sampleRate fb'
           = OutputUHDFeedback.m_sampleRate fb
        /\ OutputUHDFeedback.rx_samples (OutputUHDFeedback.burstRequest fb')
           = OutputUHDFeedback.rx_samples (OutputUHDFeedback.burstRequest fb)
        /\ (OutputUHDFeedback.state (OutputUHDFeedback.burstRequest fb)
            <> BurstRequestState.SaveTransmitFrame -> fb' = fb)).
Proof.
  cbv zeta.
  split; [|split; [|apply set_tx_frame_returns]].
  - destruct (OutputUHDFeedback.m_running fb) eqn:Hrun.
    + destruct (Z.eq_dec (Z.of_nat (length buf) mod 8) 0) as [Hmod|Hmod].
      * destruct (set_tx_frame_returns fb buf buf_ts Hrun Hmod)
          as [fb' [-> _]].
        split; intros; discriminate.
      * apply Z.eqb_neq in Hmod.
        unfold OutputUHDFeedback.set_tx_frame, sizeof_complexf.
        rewrite Hrun, Hmod. cbn [negb]. split; intros; discriminate.
    + unfold OutputUHDFeedback.set_tx_frame. rewrite Hrun. cbn [negb].
      split; reflexivity.
  - destruct (OutputUHDFeedback.m_running fb) eqn:Hrun.
    + destruct (Z.eq_dec (Z.of_nat (length buf) mod 8) 0) as [Hmod|Hmod].
      * destruct (set_tx_frame_returns fb buf buf_ts Hrun Hmod)
          as [fb' [-> _]].
        split; [discriminate|]. intros [_ H]. contradiction.
      * pose proof Hmod as Hmod'. apply Z.eqb_neq in Hmod'.
        unfold OutputUHDFeedback.set_tx_frame, sizeof_complexf.
        rewrite Hrun, Hmod'. cbn [negb]. split; [|reflexivity].
        intros _. split; [reflexivity | exact Hmod].
    + unfold OutputUHDFeedback.set_tx_frame. rewrite Hrun. cbn [negb].
      split; [discriminate|]. intros [H _]. discriminate.
Qed.

(** X25. Once a request with a sample count that is not negative has
    been acquired, the reply of [ServeFeedback] never throws: the count
    it announces is the least of the count requested and the samples
    held for either direction, so both buffers hold enough. The request
    goes back to state [None]. The whole reply goes out exactly when
    all seven [sendall] calls succeed, and it is then the count, the
    transmit time, the transmitted samples, the receive time and the
    received samples, both runs of samples of eight bytes per sample
    announced. *)
Theorem feedback_reply_never_throws
    (fb : OutputUHDFeedback.feedback) (c : OutputUHDFeedback.client) :
  let br := OutputUHDFeedback.burstRequest fb in
  0 <= OutputUHDFeedback.num_samples br ->
  Z.of_nat (length (OutputUHDFeedback.tx_samples br)) < 2 ^ 64 ->
  let r := OutputUHDFeedback.serve_reply fb c in
  let n :=
    Z.min (OutputUHDFeedback.num_samples br)
      (Z.min (Z.of_nat (length (OutputUHDFeedback.tx_samples br)) / 8)
             (Z.of_nat (length (OutputUHDFeedback.rx_samples br)) / 8)) in
  let tx_payload :=
    firstn (Z.to_nat (8 * n)) (OutputUHDFeedback.tx_samples br) in
  let rx_payload :=
    firstn (Z.to_nat (8 * n)) (OutputUHDFeedback.rx_samples br) in
  snd (fst r) = None
  /\ OutputUHDFeedback.state
       (OutputUHDFeedback.burstRequest (fst (fst (fst r))))
     = BurstRequestState.None
  /\ (snd r = true
      <-> forall i, (i < 7)%nat -> OutputUHDFeedback.sendall_ok c i = true)
  /\ (snd r = true ->
      snd (fst (fst r))
      = [OutputUHDFeedback.Word32 (uint32 n);
         OutputUHDFeedback.Word32 (OutputUHDFeedback.tx_second br);
         OutputUHDFeedback.Word32 (OutputUHDFeedback.tx_pps br);
         OutputUHDFeedback.Payload tx_payload;
         OutputUHDFeedback.Word32 (OutputUHDFeedback.rx_second br);
         OutputUHDFeedback.Word32 (OutputUHDFeedback.rx_pps br);
         OutputUHDFeedback.Payload rx_payload])
  /\ Z.of_nat (length tx_payload) = 8 * n
  /\ Z.of_nat (length rx_payload) = 8 * n.
Proof.
  intros br Hnum Htx r n tx_payload rx_payload.
  assert (Hn : 0 <= n
               /\ 8 * n <= Z.of_nat (length (OutputUHDFeedback.tx_samples br))
               /\ 8 * n
                  <= Z.of_nat (length (OutputUHDFeedback.rx_samples br))).
  { pose proof (Z.mul_div_le
                  (Z.of_nat (length (OutputUHDFeedback.tx_samples br))) 8
                  ltac:(lia)).
    pose proof (Z.mul_div_le
                  (Z.of_nat (length (OutputUHDFeedback.rx_samples br))) 8
                  ltac:(lia)).
    pose proof (Z.div_pos
                  (Z.of_nat (length (OutputUHDFeedback.tx_samples br))) 8
                  ltac:(lia) ltac:(lia)).
    pose proof (Z.div_pos
                  (Z.of_nat (length (OutputUHDFeedback.rx_samples br))) 8
                  ltac:(lia) ltac:(lia)).
    unfold n. lia. }
  destruct Hn as [Hn0 [Hntx Hnrx]].
  assert (Hbytes : uint64 (n * 8) = 8 * n)
    by (rewrite uint64_small; lia).
  assert (Hlt : (Z.of_nat (length (OutputUHDFeedback.tx_samples br))
                 <? 8 * n) = false) by (apply Z.ltb_ge; lia).
  assert (Hlr : (Z.of_nat (length (OutputUHDFeedback.rx_samples br))
                 <? 8 * n) = false) by (apply Z.ltb_ge; lia).
  assert (Hr : r = OutputUHDFeedback.serve_reply fb c) by reflexivity.
  unfold OutputUHDFeedback.serve_reply, sizeof_complexf in Hr.
  cbv zeta in Hr. fold br in Hr. fold n in Hr.
  rewrite Hbytes, Hlt, Hlr in Hr.
  fold tx_payload in Hr. fold rx_payload in Hr.
  assert (Hlen : Z.of_nat (length tx_payload) = 8 * n
                 /\ Z.of_nat (length rx_payload) = 8 * n).
  { unfold tx_payload, rx_payload. rewrite !length_firstn. lia. }
  assert (Hall : forall b0 b1 b2 b3 b4 b5 b6,
             OutputUHDFeedback.sendall_ok c 0 = b0 ->
             OutputUHDFeedback.sendall_ok c 1 = b1 ->
             OutputUHDFeedback.sendall_ok c 2 = b2 ->
             OutputUHDFeedback.sendall_ok c 3 = b3 ->
             OutputUHDFeedback.sendall_ok c 4 = b4 ->
             OutputUHDFeedback.sendall_ok c 5 = b5 ->
             OutputUHDFeedback.sendall_ok c 6 = b6 ->
             (b0 && b1 && b2 && b3 && b4 && b5 && b6 = true
              <-> forall i, (i < 7)%nat ->
                            OutputUHDFeedback.sendall_ok c i = true)).
  { intros b0 b1 b2 b3 b4 b5 b6 H0 H1 H2 H3 H4 H5 H6. split.
    - intros Hb i Hi.
      repeat (apply andb_prop in Hb; destruct Hb as [Hb ?]).
      do 7 (destruct i as [|i]; [congruence|]). lia.
    - intros Hi.
      rewrite <- H0, <- H1, <- H2, <- H3, <- H4, <- H5, <- H6.
      rewrite !Hi by lia. reflexivity. }
  specialize (Hall _ _ _ _ _ _ _ eq_refl eq_refl eq_refl eq_refl eq_refl
                eq_refl eq_refl).
  destruct (OutputUHDFeedback.sendall_ok c 0);
    [destruct (OutputUHDFeedback.sendall_ok c 1);
     [destruct (OutputUHDFeedback.sendall_ok c 2);
      [destruct (OutputUHDFeedback.sendall_ok c 3);
       [destruct (OutputUHDFeedback.sendall_ok c 4);
        [destruct (OutputUHDFeedback.sendall_ok c 5);
         [destruct (OutputUHDFeedback.sendall_ok c 6)|]|]|]|]|]|];
    cbn [negb andb] in Hr, Hall; rewrite Hr; cbn [fst snd
      OutputUHDFeedback.burstRequest OutputUHDFeedback.state app];
    (split; [reflexivity|]); (split; [reflexivity|]);
    (split; [exact Hall|]);
    (split; [|exact Hlen]);
    intros H; try discriminate; reflexivity.
Qed.

(** [resize] gives the length asked for, and shrinking after a resize
    is one resize. *)
Lemma resize_bytes_length (data : list byte) (len : nat) :
  length (OutputUHDFeedback.resize_bytes data len) = len.
Proof.
  unfold OutputUHDFeedback.resize_bytes.
  rewrite length_app, length_firstn, repeat_length. lia.
Qed.

Lemma firstn_repeat_min {A : Type} (x : A) (n m : nat) :
  firstn n (repeat x m) = repeat x (Nat.min n m).
Proof.
  revert m. induction n as [|n IH]; intros [|m]; cbn; try reflexivity.
  now rewrite IH.
Qed.

Lemma resize_bytes_shrink (data : list byte) (a b : nat) :
  (b <= a)%nat ->
  OutputUHDFeedback.resize_bytes (OutputUHDFeedback.resize_bytes data a) b
  = OutputUHDFeedback.resize_bytes data b.
Proof.
  intros Hba.
  unfold OutputUHDFeedback.resize_bytes at 1.
  rewrite resize_bytes_length.
  replace (b - a)%nat with 0%nat by lia. cbn [repeat]. rewrite app_nil_r.
  unfold OutputUHDFeedback.resize_bytes.
  rewrite firstn_app, firstn_firstn, length_firstn, firstn_repeat_min.
  replace (Nat.min b a) with b by lia.
  f_equal. f_equal. lia.
Qed.

(** The reply of [ServeFeedback] when every [sendall] succeeds. *)
Lemma serve_reply_whole
    (fb : OutputUHDFeedback.feedback) (c : OutputUHDFeedback.client) n :
  Z.min (OutputUHDFeedback.num_samples (OutputUHDFeedback.burstRequest fb))
    (Z.min
       (Z.of_nat
          (length
             (OutputUHDFeedback.tx_samples
                (OutputUHDFeedback.burstRequest fb))) / 8)
       (Z.of_nat
          (length
             (OutputUHDFeedback.rx_samples
                (OutputUHDFeedback.burstRequest fb))) / 8)) = n ->
  0 <= n -> 8 * n < 2 ^ 64 ->
  (forall i, (i < 7)%nat -> OutputUHDFeedback.sendall_ok c i = true) ->
  let br := OutputUHDFeedback.burstRequest fb in
  OutputUHDFeedback.serve_reply fb c
  = (OutputUHDFeedback.mk_feedback
       (OutputUHDFeedback.m_running fb) (OutputUHDFeedback.m_port fb)
       (OutputUHDFeedback.m_sampleRate fb)
       (OutputUHDFeedback.mk_burst BurstRequestState.None n
          (OutputUHDFeedback.tx_second br) (OutputUHDFeedback.tx_pps br)
          (OutputUHDFeedback.tx_samples br)
          (OutputUHDFeedback.rx_second br) (OutputUHDFeedback.rx_pps br)
          (OutputUHDFeedback.rx_samples br)),
     [OutputUHDFeedback.Word32 (uint32 n);
      OutputUHDFeedback.Word32 (OutputUHDFeedback.tx_second br);
      OutputUHDFeedback.Word32 (OutputUHDFeedback.tx_pps br);
      OutputUHDFeedback.Payload
        (firstn (Z.to_nat (8 * n)) (OutputUHDFeedback.tx_samples br));
      OutputUHDFeedback.Word32 (OutputUHDFeedback.rx_second br);
      OutputUHDFeedback.Word32 (OutputUHDFeedback.rx_pps br);
      OutputUHDFeedback.Payload
        (firstn (Z.to_nat (8 * n)) (OutputUHDFeedback.rx_samples br))],
     None, true).
Proof.
  intros Hmin Hn0 Hn64 Hsend br.
  pose proof (Z.mul_div_le
                (Z.of_nat (length (OutputUHDFeedback.tx_samples br))) 8
                ltac:(lia)) as Htx.
  pose proof (Z.mul_div_le
                (Z.of_nat (length (OutputUHDFeedback.rx_samples br))) 8
                ltac:(lia)) as Hrx.
  fold br in Hmin.
  assert (Hlt : (Z.of_nat (length (OutputUHDFeedback.tx_samples br))
                 <? 8 * n) = false) by (apply Z.ltb_ge; lia).
  assert (Hlr : (Z.of_nat (length (OutputUHDFeedback.rx_samples br))
                 <? 8 * n) = false) by (apply Z.ltb_ge; lia).
  unfold OutputUHDFeedback.serve_reply, sizeof_complexf. cbv zeta.
  fold br. rewrite Hmin.
  replace (uint64 (n * 8)) with (8 * n) by (rewrite uint64_small; lia).
  rewrite Hlt, Hlr, !Hsend by lia. reflexivity.
Qed.

(** X26. One whole capture, from the client's request to the reply:
    the client asks for [k] samples, the transmitter hands over a frame
    of whole samples, the receiver reports [s] samples, no more than
    were asked of it, and every [sendall] succeeds. The reply announces
    [s] samples; its transmit time is the frame's advanced by the
    samples skipped; its transmitted samples are the first [s] of the
    last [min k (samples in the frame)] samples of the frame; its
    receive time is the whole seconds of the receiver's time and the
    ticks of its fraction, the product with 16 384 000 computed in
    doubles and cut to an integer; its received samples are the [8 s]
    bytes the receiver wrote, filled up with zero bytes; and the request
    is back in state [None]. *)
Theorem capture_round_trip
    (fb : OutputUHDFeedback.feedback) (c : OutputUHDFeedback.client)
    (buf : list byte) (buf_ts : frame_timestamp)
    (rx : OutputUHDFeedback.rx_result) (k : Z) :
  OutputUHDFeedback.m_running fb = true ->
  OutputUHDFeedback.recv_version c = OutputUHDFeedback.RecvValue 1 ->
  OutputUHDFeedback.recv_num_samples c = OutputUHDFeedback.RecvValue k ->
  0 <= k < 2 ^ 32 ->
  Z.of_nat (length buf) mod 8 = 0 ->
  Z.of_nat (length buf) < 2 ^ 64 ->
  0 <= OutputUHDFeedback.samples_read rx
    <= Z.min k (Z.of_nat (length buf) / 8) ->
  (forall i, (i < 7)%nat -> OutputUHDFeedback.sendall_ok c i = true) ->
  let s := OutputUHDFeedback.samples_read rx in
  let kept := Z.min (8 * k) (Z.of_nat (length buf)) in
  let start_ix := Z.of_nat (length buf) - kept in
  let ts :=
    timestamp_add buf_ts
      (inject_Z start_ix
       / inject_Z (8 * OutputUHDFeedback.m_sampleRate fb))%Q in
  exists fb1 fb2,
    OutputUHDFeedback.serve_request fb c = (fb1, true)
    /\ OutputUHDFeedback.set_tx_frame fb1 buf buf_ts = Ok fb2
    /\ let r :=
         OutputUHDFeedback.serve_reply
           (OutputUHDFeedback.receive_burst fb2 rx) c in
       snd (fst r) = None
       /\ snd r = true
       /\ snd (fst (fst r))
          = [OutputUHDFeedback.Word32 s;
             OutputUHDFeedback.Word32 (timestamp_sec ts);
             OutputUHDFeedback.Word32 (timestamp_pps ts);
             OutputUHDFeedback.Payload
               (firstn (Z.to_nat (8 * s))
                  (skipn (Z.to_nat start_ix) buf));
             OutputUHDFeedback.Word32
               (uint32 (OutputUHDFeedback.md_full_secs rx));
             OutputUHDFeedback.Word32
               (uint32
                  (Qtruncate
                     (to_double (OutputUHDFeedback.md_frac_secs rx
                                 * inject_Z 16384000))));
             OutputUHDFeedback.Payload
               (OutputUHDFeedback.resize_bytes
                  (OutputUHDFeedback.received rx) (Z.to_nat (8 * s)))]
       /\ OutputUHDFeedback.state
            (OutputUHDFeedback.burstRequest (fst (fst (fst r))))
          = BurstRequestState.None
       /\ OutputUHDFeedback.num_samples
            (OutputUHDFeedback.burstRequest (fst (fst (fst r)))) = s.
Proof.
  intros Hrun Hver Hnum Hk Hmod Hlen Hs Hsend s kept start_ix ts.
  pose proof (Z.div_mod (Z.of_nat (length buf)) 8 ltac:(lia)) as Hdiv.
  rewrite Hmod, Z.add_0_r in Hdiv.
  assert (Hkept : kept = 8 * Z.min k (Z.of_nat (length buf) / 8))
    by (unfold kept; lia).
  assert (Hkept8 : kept / 8 = Z.min k (Z.of_nat (length buf) / 8)).
  { rewrite Hkept, Z.mul_comm. apply Z.div_mul. lia. }
  assert (Hkept0 : 0 <= kept <= Z.of_nat (length buf))
    by (unfold kept; lia).
  fold s in Hs.
  eexists. eexists.
  split.
  { unfold OutputUHDFeedback.serve_request. rewrite Hver, Hnum.
    cbn [Z.eqb Pos.eqb negb]. rewrite (uint32_small k Hk). reflexivity. }
  split.
  { unfold OutputUHDFeedback.set_tx_frame, sizeof_complexf.
    cbn [OutputUHDFeedback.m_running OutputUHDFeedback.burstRequest
         OutputUHDFeedback.state OutputUHDFeedback.num_samples
         OutputUHDFeedback.m_sampleRate OutputUHDFeedback.m_port
         OutputUHDFeedback.rx_samples].
    rewrite Hrun. apply Z.eqb_eq in Hmod. rewrite Hmod. cbn [negb].
    cbv zeta.
    replace (uint64 (k * 8)) with (8 * k) by (rewrite uint64_small; lia).
    fold kept. fold start_ix. fold ts. rewrite Hkept8. reflexivity. }
  cbv zeta.
  unfold OutputUHDFeedback.receive_burst.
  cbn [OutputUHDFeedback.m_running OutputUHDFeedback.burstRequest
       OutputUHDFeedback.state OutputUHDFeedback.num_samples
       OutputUHDFeedback.m_sampleRate OutputUHDFeedback.m_port
       OutputUHDFeedback.rx_samples OutputUHDFeedback.tx_samples
       OutputUHDFeedback.tx_second OutputUHDFeedback.tx_pps].
  cbv zeta. unfold sizeof_complexf. fold s.
  rewrite (uint64_small (s * 8)) by lia.
  rewrite (uint64_small (Z.min k (Z.of_nat (length buf) / 8) * 8)) by lia.
  rewrite resize_bytes_shrink by lia.
  replace (s * 8) with (8 * s) by lia.
  erewrite (serve_reply_whole _ c s); [| | lia | lia | exact Hsend].
  - cbn [fst snd OutputUHDFeedback.burstRequest OutputUHDFeedback.state
         OutputUHDFeedback.num_samples OutputUHDFeedback.tx_second
         OutputUHDFeedback.tx_pps OutputUHDFeedback.tx_samples
         OutputUHDFeedback.rx_second OutputUHDFeedback.rx_pps
         OutputUHDFeedback.rx_samples].
    rewrite (uint32_small s) by lia.
    rewrite (firstn_all2 (OutputUHDFeedback.resize_bytes _ _))
      by (rewrite resize_bytes_length; lia).
    repeat split; reflexivity.
  - cbn [OutputUHDFeedback.burstRequest OutputUHDFeedback.num_samples
         OutputUHDFeedback.tx_samples OutputUHDFeedback.rx_samples].
    rewrite resize_bytes_length, length_skipn.
    replace (Z.of_nat (length buf - Z.to_nat start_ix)) with kept
      by (unfold start_ix; lia).
    rewrite Hkept8, Z2Nat.id by lia.
    replace (8 * s / 8) with s
      by (rewrite Z.mul_comm, Z.div_mul; lia).
    lia.
Qed.

End Capture.

(** ** Reading back the remote-control parameters *)

Lemma string_length_append (s1 s2 : string) :
  String.length (s1 ++ s2) = (String.length s1 + String.length s2)%nat.
Proof. induction s1 as [|a s1 IH]; cbn; [reflexivity | now rewrite IH]. Qed.

Ltac rc_name p :=
  destruct (String.eqb_spec p "txgain") as [?|?];
  [|destruct (String.eqb_spec p "rxgain") as [?|?];
    [|destruct (String.eqb_spec p "freq") as [?|?];
      [|destruct (String.eqb_spec p "muting") as [?|?];
        [|destruct (String.eqb_spec p "staticdelay") as [?|?];
          [|destruct (String.eqb_spec p "underruns") as [?|?];
            [|destruct (String.eqb_spec p "latepackets") as [?|?];
              [|destruct (String.eqb_spec p "frames") as [?|?]]]]]]]];
  try subst p.

Ltac rc_value v :=
  repeat match goal with
         | |- context [OutputUHD.empty v] => destruct (OutputUHD.empty v)
         | |- context [OutputUHD.as_double v] =>
             destruct (OutputUHD.as_double v)
         | |- context [OutputUHD.as_bool v] =>
             destruct (OutputUHD.as_bool v)
         | |- context [OutputUHD.as_int64 v] =>
             destruct (OutputUHD.as_int64 v)
         end.

(** X28. After a [set_parameter] that does not throw, [get_parameter]
    shows for that name the gain or the muting flag that was written,
    for [freq] the frequency the device reports after tuning and not
    the one asked for, and for [staticdelay] the adjusted delay; and
    what it shows, or throws, for every other name is as before the
    call. *)
Theorem get_parameter_after_set_parameter
    tuned myTFDurationMs c ctr frames parameter value other :
  let r := OutputUHD.set_parameter tuned myTFDurationMs c parameter value in
  snd r = None ->
  match OutputUHD.get_parameter (fst r) ctr frames parameter with
  | Ok (OutputUHD.ShownDouble x) =>
      if String.eqb parameter "freq" then x = tuned
      else OutputUHD.as_double value = Some x
  | Ok (OutputUHD.ShownBool b) => OutputUHD.as_bool value = Some b
  | Ok (OutputUHD.ShownNumber n) =>
      exists adjust,
        OutputUHD.as_int64 value = Some adjust
        /\ n = OutputUHD.set_staticdelay myTFDurationMs
                 (OutputUHD.staticDelayUs c) adjust
  | Throw _ => False
  end
  /\ (other <> parameter ->
      OutputUHD.get_parameter (fst r) ctr frames other
      = OutputUHD.get_parameter c ctr frames other).
Proof.
  cbv zeta. unfold OutputUHD.set_parameter.
  rc_name parameter; cbn [String.eqb Ascii.eqb Bool.eqb orb andb];
    try discriminate;
    rc_value value; try discriminate;
    intros _;
    (split; [cbn; first [reflexivity | eexists; split; reflexivity]|]);
    intros Hother;
    unfold OutputUHD.get_parameter;
    rc_name other; try congruence; reflexivity.
Qed.

(** X29. [get_parameter] and [set_parameter] know the same names:
    reading a name throws exactly when writing it ends with "not
    exported", and then with the same message; the three counters can
    be read though writing them is refused as read-only. *)
Theorem get_and_set_parameter_export_the_same_names
    tuned myTFDurationMs c ctr frames parameter value :
  let not_exported :=
    ParameterError
      ("Parameter '" ++ parameter ++ "' is not exported by controllable uhd")
  in
  let w := OutputUHD.set_parameter tuned myTFDurationMs c parameter value in
  let r := OutputUHD.get_parameter c ctr frames parameter in
  (r = Throw not_exported <-> snd w = Some not_exported)
  /\ ((exists v, r = Ok v) \/ r = Throw not_exported)
  /\ (snd w = Some (ParameterError
                      ("Parameter " ++ parameter ++ " is read-only."))
      -> r = Ok (OutputUHD.ShownNumber
                   (if String.eqb parameter "underruns" then
                      OutputUHD.num_underflows ctr
                    else if String.eqb parameter "latepackets" then
                      OutputUHD.num_late_packets ctr
                    else frames))).
Proof.
  cbv zeta. unfold OutputUHD.set_parameter, OutputUHD.get_parameter.
  rc_name parameter; cbn [String.eqb Ascii.eqb Bool.eqb orb andb];
    rc_value value; cbn [fst snd];
    repeat split; intros; try discriminate; try reflexivity;
    try (left; eexists; reflexivity);
    try (right; reflexivity).
  all: try (exfalso;
            match goal with
            | H : Some _ = Some _ |- _ =>
                injection H as H; apply (f_equal String.length) in H;
                cbn in H; rewrite ?string_length_append in H; cbn in H; lia
            end).
Qed.

(** * Instances

    Each property that has a premise, at one input that meets it. The
    floats are the rationals of [Standin], the time stamps its ticks. *)

(** A polynomial file, 1 5 and ten coefficients, that ends in a new
    line: the coefficients are loaded, five and five. *)
Lemma polynomial_file_needs_a_trailing_character_witness :
  let num (z : Z) :=
    MemlessPoly.mk_word (Some z) (Some z) (Some (inject_Z z)) 0 0 0%Q false in
  let st :=
    MemlessPoly.mk_dpd_state MemlessPoly.lookup_table
      [] [] 0%Q (repeat (0, 0)%Q 32) false "" in
  let u :=
    MemlessPoly.mk_uninitialised 7 7 (fun _ => 7 # 1) (7 # 1)
      (fun _ => 7 # 1) in
  MemlessPoly.load_coefficients (FO := Standin.rationals) u st
    (Some (MemlessPoly.mk_ifstream
             (num 1 :: num 5
              :: map num [1; 2; 3; 4; 5; 6; 7; 8; 9; 10] ++ [])
             true false false))
  = (MemlessPoly.mk_dpd_state MemlessPoly.odd_only_poly
       (map inject_Z [1; 2; 3; 4; 5]) (map inject_Z [6; 7; 8; 9; 10])
       0%Q (repeat (0, 0)%Q 32) true "",
     None).
Proof.
  intros num st u.
  exact (proj1
           (polynomial_file_needs_a_trailing_character
              (FO := Standin.rationals) u st (num 1) (num 5)
              (map num [1; 2; 3; 4; 5; 6; 7; 8; 9; 10]) [] true
              (map inject_Z [1; 2; 3; 4; 5; 6; 7; 8; 9; 10])
              eq_refl eq_refl eq_refl eq_refl)
           (or_intror eq_refl)).
Defined.

(** A file that holds the word 2 and nothing else, when [scalefactor]
    happens to hold 5/2 and the [a] of turn [n] holds [n]. *)
Lemma lookup_table_file_is_never_refused_witness :
  let st :=
    MemlessPoly.mk_dpd_state MemlessPoly.odd_only_poly
      [1; 0; 0; 0; 0]%Q [0; 0; 0; 0; 0]%Q 0%Q (repeat (0, 0)%Q 32)
      true "poly.coef" in
  let u :=
    MemlessPoly.mk_uninitialised 7 7 (fun _ => 7 # 1) (5 # 2)
      (fun n => inject_Z (Z.of_nat n)) in
  let two :=
    MemlessPoly.mk_word (Some 2) (Some 2) (Some (2 # 1)) 0 0 0%Q false in
  let r :=
    MemlessPoly.load_coefficients (FO := Standin.rationals) u st
      (Some (MemlessPoly.mk_ifstream [two] false false false)) in
  snd r = None
  /\ MemlessPoly.m_dpd_settings_valid (fst r) = true
  /\ MemlessPoly.m_lut_scalefactor (fst r) = (5 # 2)
  /\ nth_error (MemlessPoly.m_lut (fst r)) 3 = Some (3 # 1, 0 # 1).
Proof.
  intros st u two r.
  pose proof (lookup_table_file_is_never_refused
                (FO := Standin.rationals) u st two [] false eq_refl) as H.
  destruct H as (H1 & H2 & _ & _ & _ & _ & H7).
  destruct (H7 eq_refl) as [H8 H9].
  split; [exact H1|]. split; [exact H2|]. split; [exact H8|].
  fold r in H9. rewrite H9. reflexivity.
Defined.

(** Loading a polynomial file into a predistorter that holds a table:
    the table stays, and five coefficients of each sort come with the
    valid settings of the polynomial kind. *)
Lemma set_parameter_keeps_tables_wellformed_witness :
  let num (z : Z) :=
    MemlessPoly.mk_word (Some z) (Some z) (Some (inject_Z z)) 0 0 0%Q false in
  let st :=
    MemlessPoly.mk_dpd_state MemlessPoly.lookup_table
      [] [] 1%Q (repeat (1, 0)%Q 32) true "lut.coef" in
  let file :=
    MemlessPoly.mk_ifstream
      (num 1 :: num 5 :: map num [1; 2; 3; 4; 5; 6; 7; 8; 9; 10])
      true false false in
  let u :=
    MemlessPoly.mk_uninitialised 7 7 (fun _ => 7 # 1) (7 # 1)
      (fun _ => 7 # 1) in
  let st' :=
    fst (MemlessPoly.set_parameter (FO := Standin.rationals) u
           (fun _ => Some file) st "coeffile" "poly.coef") in
  MemlessPoly.dpd_wellformed st'
  /\ MemlessPoly.m_dpd_type st' = MemlessPoly.odd_only_poly
  /\ MemlessPoly.m_coefs_file st' = "poly.coef"%string.
Proof.
  intros num st file u st'.
  split; [|split; reflexivity].
  apply (set_parameter_keeps_tables_wellformed
           (FO := Standin.rationals) u (fun _ => Some file) st
           "coeffile" "poly.coef").
  split; [reflexivity | intros _ H; discriminate].
Defined.

(** Two samples through a table of ones. *)
Lemma apply_lut_writes_its_range_only_witness :
  let lut := repeat (1, 0)%Q 32 in
  let in_ := [(1, 0); (2, 0)]%Q in
  let out := [(0, 0); (0, 0)]%Q in
  exists out',
    MemlessPoly.apply_lut (FO := Standin.rationals) lut 1%Q in_ 0 2 out
    = Some out'
    /\ length out' = 2%nat.
Proof.
  intros lut in_ out.
  destruct (MemlessPoly.apply_lut (FO := Standin.rationals) lut 1%Q in_ 0 2 out)
    as [out'|] eqn:H; [|vm_compute in H; discriminate].
  exists out'. split; [reflexivity|].
  exact (proj1 (apply_lut_writes_its_range_only
                  (FO := Standin.rationals) lut 1%Q in_ 0 2 out out' H)).
Defined.

(** Two samples, three threads, valid polynomial settings. *)
Lemma internal_process_is_memory_safe_witness :
  let st :=
    MemlessPoly.mk_dpd_state MemlessPoly.odd_only_poly
      [1; 0; 0; 0; 0]%Q [0; 0; 0; 0; 0]%Q 0%Q (repeat (0, 0)%Q 32)
      true "poly.coef" in
  let dataIn := repeat x01 16 in
  exists out,
    MemlessPoly.internal_process (FO := Standin.rationals) st 3
      (fun _ => x00) dataIn []
    = Some (out, int32 (Z.of_nat (length dataIn)))
    /\ length out = length dataIn.
Proof.
  intros st dataIn.
  apply (internal_process_is_memory_safe (FO := Standin.rationals)
           st 3 (fun _ => x00) dataIn []).
  - intros x. reflexivity.
  - split; [reflexivity | intros _ _; split; reflexivity].
Defined.

(** Mode 1, a delay of 500 microseconds, plus 95 900, minus 200. *)
Lemma staticdelay_adjustments_compose_witness :
  let d1 := OutputUHD.set_staticdelay 96 500 95900 in
  let d2 := OutputUHD.set_staticdelay 96 d1 (-200) in
  0 <= d2 <= 96 * 1000
  /\ exists k, d2 = 500 + 95900 + -200 + k * (96 * 1000).
Proof.
  apply (staticdelay_adjustments_compose 1 96 500 95900 (-200));
    [reflexivity | lia | lia | lia].
Defined.

(** Mode 2 at 8000 samples per second, a delay of one millisecond: 192
    samples in the delay buffer, 8 of them the delay. *)
Lemma static_delay_within_a_frame_is_memory_safe_witness :
  let c :=
    OutputUHD.mk_config 8000 2 true false false 1000 "internal"
      OutputUHD.IGNORE 0 0 0 0 0 in
  let myDelayBuf := repeat x00 1536 in
  let dataIn := repeat x01 1536 in
  exists frame_buf delayBuf,
    OutputUHD.delay_frame c myDelayBuf dataIn = Some (frame_buf, delayBuf)
    /\ length frame_buf = length dataIn
    /\ length delayBuf = length myDelayBuf.
Proof.
  intros c myDelayBuf dataIn.
  apply (static_delay_within_a_frame_is_memory_safe c 2 24 myDelayBuf dataIn);
    [reflexivity | cbn; lia | cbn; lia | vm_compute; reflexivity
    | vm_compute; reflexivity].
Defined.

(** Two frames of two samples through a delay of one sample. *)
Lemma static_delay_ring_witness :
  let c :=
    OutputUHD.mk_config 1000 1 true false false 1000 "internal"
      OutputUHD.IGNORE 0 0 0 0 0 in
  let buf0 := repeat x00 16 in
  let in1 := repeat x01 16 in
  let in2 := repeat x02 16 in
  let out1 := repeat x00 8 ++ repeat x01 8 in
  let out2 := repeat x01 8 ++ repeat x02 8 in
  out1 ++ out2 = firstn 8 buf0 ++ in1 ++ firstn 8 in2.
Proof.
  intros c buf0 in1 in2 out1 out2.
  exact (proj1
           (static_delay_ring c buf0 in1 in2 out1
              (repeat x01 8 ++ repeat x00 8) out2
              (repeat x02 8 ++ repeat x00 8) eq_refl eq_refl)).
Defined.

(** A transmitter on its internal clock before the first call. *)
Lemma process_discards_frames_until_the_gps_fix_witness :
  let c :=
    OutputUHD.mk_config 2048000 1 true false true 0 "internal"
      OutputUHD.IGNORE 0 0 0 0 0 in
  let st :=
    OutputUHD.mk_uhd c 96 [] false true false 0 false []
      (OutputUHDFeedback.make 0 2048000) in
  let env :=
    OutputUHD.mk_process_env (Ok 0) (Ok tt) (Ok tt) 1 true
      (mk_frame_timestamp 42 3 10 true false) true in
  let o :=
    OutputUHD.process (TA := Standin.ticks_arith) env st (repeat x01 16) in
  OutputUHD.frames_after st o = []
  /\ o <> OutputUHD.ProcessUndefined.
Proof.
  intros c st env o.
  pose proof (process_discards_frames_until_the_gps_fix
                (TA := Standin.ticks_arith) env st (repeat x01 16) eq_refl)
    as H.
  exact (conj (proj1 H) (proj1 (proj2 (proj2 H)))).
Defined.

(** A running transmitter without feedback server and a frame of two
    samples: the frame is queued and the server made anew. *)
Lemma process_queues_the_frame_whatever_the_feedback_witness :
  let c :=
    OutputUHD.mk_config 2048000 1 true false false 0 "internal"
      OutputUHD.IGNORE 0 0 0 0 0 in
  let st :=
    OutputUHD.mk_uhd c 96 [] true false true 16 false []
      (OutputUHDFeedback.make 0 2048000) in
  let stamp := mk_frame_timestamp 42 3 10 true false in
  let env :=
    OutputUHD.mk_process_env (Ok 0) (Ok tt) (Ok tt) 1 true stamp true in
  exists st',
    OutputUHD.process (TA := Standin.ticks_arith) env st (repeat x01 16)
    = OutputUHD.ProcessReturned st' 16
    /\ OutputUHD.frames st' = [OutputUHD.mk_frame (repeat x01 16) stamp]
    /\ OutputUHD.uhdFeedback st' = OutputUHDFeedback.make 0 2048000.
Proof.
  intros c st stamp env.
  apply (proj1
           (process_queues_the_frame_whatever_the_feedback
              (TA := Standin.ticks_arith) env st (repeat x01 16)
              (repeat x01 16) []
              eq_refl eq_refl eq_refl eq_refl eq_refl eq_refl
              (fun _ => eq_refl)
              ltac:(cbn; lia) ltac:(cbn; lia))).
  reflexivity.
Defined.

(** The worker has cleared [running]. *)
Lemma process_stops_when_the_worker_has_ended_witness :
  let c :=
    OutputUHD.mk_config 2048000 1 true false false 0 "internal"
      OutputUHD.IGNORE 0 0 0 0 0 in
  let st :=
    OutputUHD.mk_uhd c 96 [] true false true 16 false []
      (OutputUHDFeedback.make 0 2048000) in
  let env :=
    OutputUHD.mk_process_env (Ok 0) (Ok tt) (Ok tt) 1 true
      (mk_frame_timestamp 42 3 10 true false) false in
  exists st',
    OutputUHD.process (TA := Standin.ticks_arith) env st (repeat x01 16)
    = OutputUHD.ProcessThrown st' (runtime_error "UHD worker failed")
    /\ OutputUHD.first_run st' = true
    /\ OutputUHD.running st' = false
    /\ OutputUHD.frames st' = OutputUHD.frames st
    /\ OutputUHD.uhdFeedback st' = OutputUHD.uhdFeedback st.
Proof.
  intros c st env.
  apply (process_stops_when_the_worker_has_ended
           (TA := Standin.ticks_arith) env st (repeat x01 16)
           (repeat x01 16) []);
    [reflexivity | reflexivity | reflexivity | reflexivity
    | right; left; reflexivity].
Defined.

(** The first frame, stamped 3 s and 3 ticks, when the device's time is
    100 s: the frame is dropped and its stamp remembered. *)
Lemma stale_and_far_timestamps_witness :
  let c :=
    OutputUHD.mk_config 2048000 1 true false false 0 "internal"
      OutputUHD.IGNORE 0 0 0 0 0 in
  let frame :=
    OutputUHD.mk_frame (repeat x01 16)
      (mk_frame_timestamp 42 3 3 true false) in
  let env :=
    OutputUHD.mk_tx_env (Some true) 100 false 4 (fun _ => true)
      (fun _ => false) (fun _ n => n) in
  OutputUHD.handle_frame_body (DA := Standin.binary64) 50 c true
    OutputUHD.worker_init frame env
  = (OutputUHD.set_last_tx (DA := Standin.binary64)
       OutputUHD.worker_init 3 3, [],
     OutputUHD.Returned).
Proof.
  intros c frame env.
  apply (proj1 (proj2 (proj2 (proj2
           (stale_and_far_timestamps (DA := Standin.binary64) 50 c true
              OutputUHD.worker_init frame env false
              eq_refl eq_refl eq_refl))))).
  vm_compute. reflexivity.
Defined.

(** The same frame when the device's time is the double next to
    23.00000018310547, which is the double that 3 s and 3 ticks plus
    twenty seconds round to: in exact arithmetic the frame's time plus
    twenty seconds is before the device's time, but the doubles are
    equal, and the frame is sent. *)
Lemma a_timestamp_at_the_rounding_of_the_limit_is_sent :
  let c :=
    OutputUHD.mk_config 2048000 1 true false false 0 "internal"
      OutputUHD.IGNORE 0 0 0 0 0 in
  let frame :=
    OutputUHD.mk_frame (repeat x01 16)
      (mk_frame_timestamp 42 3 3 true false) in
  let usrp_time := (809240564485587 # 35184372088832)%Q in
  let env :=
    OutputUHD.mk_tx_env (Some true) usrp_time false 4 (fun _ => true)
      (fun _ => false) (fun _ n => n) in
  (inject_Z 3 + inject_Z 3 / inject_Z 16384000 + 20 < usrp_time)%Q
  /\ Standin.round_binary64 usrp_time = usrp_time
  /\ snd (fst (OutputUHD.handle_frame_body (DA := Standin.binary64) 50 c
                 true OutputUHD.worker_init frame env))
     = [OutputUHD.Send 0 2 true
          (inject_Z 3
           + Standin.round_binary64 (inject_Z 3 / inject_Z 16384000))%Q
          false 2].
Proof. cbv zeta. repeat split; vm_compute; reflexivity. Qed.

(** A driver that takes every chunk whole, four samples at a time, and
    a frame of ten samples. *)
Lemma tx_frame_stays_within_the_frame_witness :
  let c :=
    OutputUHD.mk_config 2048000 1 true false false 0 "internal"
      OutputUHD.IGNORE 0 0 0 0 0 in
  let frame :=
    OutputUHD.mk_frame (repeat x01 80)
      (mk_frame_timestamp 42 3 10 true false) in
  let env :=
    OutputUHD.mk_tx_env (Some true) 0 false 4 (fun _ => true)
      (fun _ => false) (fun _ n => n) in
  exists evs,
    OutputUHD.tx_frame c true env (OutputUHD.mk_md true 3 false) frame false
    = Some evs
    /\ OutputUHD.chunks_within (OutputUHD.sizeIn_of frame) 0 evs
    /\ 0 <= OutputUHD.total_sent evs <= OutputUHD.sizeIn_of frame.
Proof.
  intros c frame env.
  apply (tx_frame_stays_within_the_frame c true env
           (OutputUHD.mk_md true 3 false) frame false).
  intros i n Hn. cbn [OutputUHD.send_at env]. unfold uint64.
  apply Z.mod_le; lia.
Defined.

(** The same driver and frame: all ten samples are taken. *)
Lemma tx_frame_delivers_the_whole_frame_witness :
  let c :=
    OutputUHD.mk_config 2048000 1 true false false 0 "internal"
      OutputUHD.IGNORE 0 0 0 0 0 in
  let frame :=
    OutputUHD.mk_frame (repeat x01 80)
      (mk_frame_timestamp 42 3 10 true false) in
  let env :=
    OutputUHD.mk_tx_env (Some true) 0 false 4 (fun _ => true)
      (fun _ => false) (fun _ n => n) in
  exists evs,
    OutputUHD.tx_frame c true env (OutputUHD.mk_md true 3 false) frame false
    = Some evs
    /\ OutputUHD.total_sent evs = 10.
Proof.
  intros c frame env.
  destruct (tx_frame_delivers_the_whole_frame c true env
              (OutputUHD.mk_md true 3 false) frame false
              (fun _ => eq_refl) (fun _ => eq_refl)
              ltac:(vm_compute; reflexivity) (fun _ _ _ => eq_refl))
    as [evs [Hevs [Htotal _]]].
  exists evs. split; [exact Hevs | exact Htotal].
Defined.

(** Two underflows, a time-out, a late packet and an underflow inside
    a packet. *)
Lemma async_counters_count_their_events_witness :
  let c' :=
    fold_left (fun c r => fst (OutputUHD.print_async_step c r))
      [Some OutputUHD.EVENT_CODE_UNDERFLOW; None;
       Some OutputUHD.EVENT_CODE_UNDERFLOW;
       Some OutputUHD.EVENT_CODE_TIME_ERROR;
       Some OutputUHD.EVENT_CODE_UNDERFLOW_IN_PACKET]
      (OutputUHD.mk_counters 5 0) in
  OutputUHD.num_underflows c' = uint64 (5 + 2)
  /\ OutputUHD.num_late_packets c' = uint64 (0 + 1).
Proof.
  apply (async_counters_count_their_events (OutputUHD.mk_counters 5 0)
           [Some OutputUHD.EVENT_CODE_UNDERFLOW; None;
            Some OutputUHD.EVENT_CODE_UNDERFLOW;
            Some OutputUHD.EVENT_CODE_TIME_ERROR;
            Some OutputUHD.EVENT_CODE_UNDERFLOW_IN_PACKET]);
    cbn; lia.
Defined.

(** Checks every ten seconds, a holdover of 25 seconds, two failures
    counted and a third delivered: thirty seconds exceed the holdover. *)
Lemma gps_holdover_is_counted_in_failed_checks_witness :
  let c :=
    OutputUHD.mk_config 2048000 1 true false false 0 "gpsdo"
      OutputUHD.CRASH 25 0 0 0 0 in
  let st := OutputUHD.mk_gps_state 100 true 2 in
  let env := OutputUHD.mk_gps_env (Some 110) "" (Some false) in
  snd (OutputUHD.check_gps 10 c st env) <> None.
Proof.
  intros c st env.
  apply (proj1 (gps_holdover_is_counted_in_failed_checks 10 c st env 110
                  eq_refl ltac:(cbn; lia) ltac:(lia) ltac:(cbn; lia)
                  ltac:(cbn; lia) ltac:(cbn; lia))).
  repeat split; reflexivity.
Defined.

(** An acquired request for two samples with three transmitted and two
    received. *)
Lemma feedback_reply_never_throws_witness :
  let fb :=
    OutputUHDFeedback.mk_feedback true 50055 2048000
      (OutputUHDFeedback.mk_burst BurstRequestState.Acquired
         2 3 26 (repeat x01 24) 3 30 (repeat x02 16)) in
  let c :=
    OutputUHDFeedback.mk_client (OutputUHDFeedback.RecvValue 1)
      (OutputUHDFeedback.RecvValue 2) (fun _ => true) in
  let r := OutputUHDFeedback.serve_reply fb c in
  snd (fst r) = None
  /\ OutputUHDFeedback.state
       (OutputUHDFeedback.burstRequest (fst (fst (fst r))))
     = BurstRequestState.None.
Proof.
  intros fb c r.
  pose proof (feedback_reply_never_throws fb c
                ltac:(cbn; lia) ltac:(cbn; lia)) as H.
  exact (conj (proj1 H) (proj1 (proj2 H))).
Defined.

(** A request for two samples, a frame of four stamped 3 s and 10 ticks
    at 2 048 000 samples per second, and a receiver that delivers both
    samples at 3 s and the double next to 9 / 16 384 000 s: two samples
    skipped are sixteen ticks, and the fraction times 16 384 000 is 9 in
    doubles, though a little less than 9 in exact arithmetic. *)
Lemma capture_round_trip_witness :
  let fb := OutputUHDFeedback.make 50055 2048000 in
  let c :=
    OutputUHDFeedback.mk_client (OutputUHDFeedback.RecvValue 1)
      (OutputUHDFeedback.RecvValue 2) (fun _ => true) in
  let buf := repeat x01 16 ++ repeat x02 16 in
  let buf_ts := mk_frame_timestamp 42 3 10 true false in
  let frac_secs := (5188146770730811 # 9444732965739290427392)%Q in
  let rx := OutputUHDFeedback.mk_rx_result 2 (repeat x03 16) 3 frac_secs in
  (frac_secs * inject_Z 16384000 < 9)%Q
  /\ exists fb1 fb2,
       OutputUHDFeedback.serve_request fb c = (fb1, true)
       /\ OutputUHDFeedback.set_tx_frame (TA := Standin.ticks_arith)
            fb1 buf buf_ts = Ok fb2
       /\ snd (fst (fst (OutputUHDFeedback.serve_reply
                           (OutputUHDFeedback.receive_burst
                              (DA := Standin.binary64) fb2 rx) c)))
          = [OutputUHDFeedback.Word32 2;
             OutputUHDFeedback.Word32 3;
             OutputUHDFeedback.Word32 26;
             OutputUHDFeedback.Payload (repeat x02 16);
             OutputUHDFeedback.Word32 3;
             OutputUHDFeedback.Word32 9;
             OutputUHDFeedback.Payload (repeat x03 16)].
Proof.
  intros fb c buf buf_ts frac_secs rx.
  split; [vm_compute; reflexivity|].
  destruct (capture_round_trip (TA := Standin.ticks_arith)
              (DA := Standin.binary64) fb c buf buf_ts rx 2
              eq_refl eq_refl eq_refl ltac:(lia) eq_refl
              ltac:(cbn; lia) ltac:(cbn; lia) (fun _ _ => eq_refl))
    as [fb1 [fb2 [H1 [H2 [_ [_ [H3 _]]]]]]].
  exists fb1, fb2. split; [exact H1|]. split; [exact H2|].
  rewrite H3. vm_compute. reflexivity.
Defined.

(** Setting the transmit gain to 12.5 and reading the receive gain. *)
Lemma get_parameter_after_set_parameter_witness :
  let c :=
    OutputUHD.mk_config 2048000 1 true false false 0 "internal"
      OutputUHD.IGNORE 0 0 1 2 3 in
  let value :=
    OutputUHD.mk_rc_value false (Some (25 # 2)) None (Some 12) 0 false in
  let c' := fst (OutputUHD.set_parameter 0 96 c "txgain" value) in
  OutputUHD.get_parameter c' (OutputUHD.mk_counters 0 0) 0 "rxgain"
  = Ok (OutputUHD.ShownDouble 2).
Proof.
  intros c value c'.
  exact (proj2
           (get_parameter_after_set_parameter 0 96 c
              (OutputUHD.mk_counters 0 0) 0 "txgain" value "rxgain"
              eq_refl)
           ltac:(discriminate)).
Defined.
